(** * TofuTune: the Settings Catalog setting codec and its reconciliation glue

    A shallow embedding of
    [internal/provider/resource_settings_catalog_policy_settings.go]
    (the conversion between the declared [setting] blocks and the Graph
    "setting instance" tree, and the Create/Read/Update/Delete methods that
    drive it) together with the part of [internal/clients] the resource
    calls.

    Go strings are byte strings, modelled by [string] (a list of [ascii]
    bytes).  The Go standard library functions the code calls
    ([strconv.ParseInt], [fmt.Sprintf "%v"], [encoding/json]) are modelled by
    their documented behaviour in the modules [strconv], [fmt] and [json]. *)

From Stdlib Require Import String Ascii List ZArith NArith Bool Lia.
Import ListNotations.
Open Scope string_scope.
Set Warnings "-register-all".

(** ** Bytes *)

Definition byte_val (c : ascii) : N := N_of_ascii c.
Definition byte_of (n : N) : ascii := ascii_of_N n.

Definition in_range (lo hi : N) (c : ascii) : bool :=
  (lo <=? byte_val c)%N && (byte_val c <=? hi)%N.

Fixpoint join (sep : string) (l : list string) : string :=
  match l with
  | [] => ""
  | [x] => x
  | x :: rest => x ++ sep ++ join sep rest
  end.

(** ** Dynamic values: what a Go [interface{}] holds in this program

    [SimpleSettingValue.Value] is an [interface{}].  The encoder stores a
    [string], an [int64] or a [bool] in it; [encoding/json] stores [nil],
    [bool], [float64], [string], [[]interface{}] and
    [map[string]interface{}].  A [float64] is represented by the text
    [%v] prints for it, a map by its entries in increasing key order (the
    order [fmt] prints them in). *)

Inductive GoValue : Type :=
| GoNil
| GoBool (b : bool)
| GoString (s : string)
| GoInt64 (z : Z)
| GoFloat64 (text : string)
| GoSlice (l : list GoValue)
| GoMap (m : list (string * GoValue)).

(** ** strconv *)

Module strconv.

Inductive NumError := ErrSyntax | ErrRange.

Definition is_digit (c : ascii) : bool := in_range 48 57 c.
Definition digit_val (c : ascii) : Z := Z.of_N (byte_val c) - 48.
Definition digit_char (d : Z) : ascii := byte_of (48 + Z.to_N d).

Definition maxUint64 : Z := 18446744073709551615.
Definition cutoff63 : Z := 9223372036854775808.

(** The digit loop of [ParseUint(s, 10, 64)]: a byte that is not a decimal
    digit is a syntax error, a value above [maxUint64] a range error,
    whichever comes first from the left. *)
Fixpoint ParseUint_loop (s : string) (n : Z) : NumError + Z :=
  match s with
  | EmptyString => inr n
  | String c r =>
      if is_digit c then
        let n1 := (n * 10 + digit_val c)%Z in
        if (maxUint64 <? n1)%Z then inl ErrRange else ParseUint_loop r n1
      else inl ErrSyntax
  end.

Definition ParseUint (s : string) : NumError + Z :=
  match s with
  | EmptyString => inl ErrSyntax
  | _ => ParseUint_loop s 0
  end.

(** [ParseInt(s, 10, 64)]: an optional sign, then [ParseUint], then the
    signed range check. *)
Definition ParseInt (s : string) : NumError + Z :=
  match s with
  | EmptyString => inl ErrSyntax
  | String c r =>
      let neg := (c =? "-")%char in
      let body := if ((c =? "+")%char || neg)%bool then r else s in
      match ParseUint body with
      | inl e => inl e
      | inr un =>
          if (negb neg && (cutoff63 <=? un)%Z)%bool then inl ErrRange
          else if (neg && (cutoff63 <? un)%Z)%bool then inl ErrRange
          else inr (if neg then (- un)%Z else un)
      end
  end.

Fixpoint digits_of (fuel : nat) (n : Z) (acc : string) : string :=
  match fuel with
  | O => acc
  | S f =>
      let acc' := String (digit_char (n mod 10)) acc in
      if (n <? 10)%Z then acc' else digits_of f (n / 10) acc'
  end.

(** Decimal digits of a value below [10^20] (every uint64 is). *)
Definition FormatUint (n : Z) : string := digits_of 20 n "".

(** [FormatInt(z, 10)]. *)
Definition FormatInt (z : Z) : string :=
  if (z <? 0)%Z then String "-" (FormatUint (- z)) else FormatUint z.

Definition int64_range (z : Z) : bool :=
  ((- cutoff63 <=? z)%Z && (z <? cutoff63)%Z)%bool.

End strconv.

(** ** fmt *)

Module fmt.

(** [fmt.Sprintf("%v", v)] for the dynamic values above. *)
Fixpoint sprintV (v : GoValue) : string :=
  match v with
  | GoNil => "<nil>"
  | GoBool true => "true"
  | GoBool false => "false"
  | GoString s => s
  | GoInt64 z => strconv.FormatInt z
  | GoFloat64 text => text
  | GoSlice l => "[" ++ join " " (map sprintV l) ++ "]"
  | GoMap m =>
      "map[" ++
      join " " (map (fun kv : string * GoValue =>
                       match kv with (k, x) => k ++ ":" ++ sprintV x end) m) ++
      "]"
  end.

End fmt.

(** ** encoding/json

    The two calls the codec makes: [json.Unmarshal(data, &values)] with
    [values []interface{}], and [json.Marshal(values)] with
    [values []string]. *)

Module json.

Definition is_byte (n : N) (c : ascii) : bool := (byte_val c =? n)%N.

Definition dquote : ascii := Eval cbv in byte_of 34.
Definition backslash : ascii := Eval cbv in byte_of 92.

(** *** UTF-8, as [unicode/utf8] accepts it *)

Definition cont (c : ascii) : bool := in_range 0x80 0xBF c.

Definition valid2 (b0 b1 : ascii) : bool :=
  in_range 0xC2 0xDF b0 && cont b1.

Definition valid3 (b0 b1 b2 : ascii) : bool :=
  ((is_byte 0xE0 b0 && in_range 0xA0 0xBF b1)
   || (in_range 0xE1 0xEC b0 && cont b1)
   || (is_byte 0xED b0 && in_range 0x80 0x9F b1)
   || (in_range 0xEE 0xEF b0 && cont b1))
  && cont b2.

Definition valid4 (b0 b1 b2 b3 : ascii) : bool :=
  ((is_byte 0xF0 b0 && in_range 0x90 0xBF b1)
   || (in_range 0xF1 0xF3 b0 && cont b1)
   || (is_byte 0xF4 b0 && in_range 0x80 0x8F b1))
  && cont b2 && cont b3.

(** [utf8.ValidString] *)
Fixpoint ValidString (s : string) : bool :=
  match s with
  | EmptyString => true
  | String b0 r1 =>
      if (byte_val b0 <? 0x80)%N then ValidString r1
      else
        match r1 with
        | String b1 r2 =>
            if valid2 b0 b1 then ValidString r2
            else
              match r2 with
              | String b2 r3 =>
                  if valid3 b0 b1 b2 then ValidString r3
                  else
                    match r3 with
                    | String b3 r4 =>
                        if valid4 b0 b1 b2 b3 then ValidString r4 else false
                    | EmptyString => false
                    end
              | EmptyString => false
              end
        | EmptyString => false
        end
  end.

(** [utf8.EncodeRune]: the UTF-8 bytes of a code point; a surrogate or a
    value above U+10FFFF is written as U+FFFD. *)
Definition replacement : string :=
  String (byte_of 0xEF) (String (byte_of 0xBF) (String (byte_of 0xBD) "")).

Definition EncodeRune (r : N) : string :=
  let tail (k : N) := byte_of (N.lor 0x80 (N.land (N.shiftr r k) 0x3F)) in
  if (r <? 0x80)%N then String (byte_of r) ""
  else if (r <? 0x800)%N then
    String (byte_of (N.lor 0xC0 (N.shiftr r 6))) (String (tail 0%N) "")
  else if ((0xD800 <=? r) && (r <=? 0xDFFF))%N then replacement
  else if (r <? 0x10000)%N then
    String (byte_of (N.lor 0xE0 (N.shiftr r 12)))
      (String (tail 6%N) (String (tail 0%N) ""))
  else if (r <=? 0x10FFFF)%N then
    String (byte_of (N.lor 0xF0 (N.shiftr r 18)))
      (String (tail 12%N) (String (tail 6%N) (String (tail 0%N) "")))
  else replacement.

(** *** Marshal of a [[]string] *)

Definition hex_digit (n : N) : ascii :=
  if (n <? 10)%N then byte_of (48 + n) else byte_of (87 + n).

(** One byte below 0x80 inside a JSON string, with HTML escaping on (the
    default of [json.Marshal]).  Backspace and form feed are written as
    two-character escapes, as Go 1.22 and later do; earlier releases wrote
    their six-character unicode escapes, which read back the same. *)
Definition quote_ascii (c : ascii) : string :=
  let n := byte_val c in
  if is_byte 34 c then String backslash (String dquote "")
  else if is_byte 92 c then String backslash (String backslash "")
  else if is_byte 8 c then "\b"
  else if is_byte 12 c then "\f"
  else if is_byte 10 c then "\n"
  else if is_byte 13 c then "\r"
  else if is_byte 9 c then "\t"
  else if ((n <? 32) || is_byte 60 c || is_byte 62 c || is_byte 38 c)%N%bool then
    "\u00" ++ String (hex_digit (N.shiftr n 4)) (String (hex_digit (N.land n 15)) "")
  else String c "".

(** What is written for a byte that does not begin well-formed UTF-8: the
    escape of U+FFFD. *)
Definition escaped_replacement : string := String backslash "ufffd".

(** U+2028 and U+2029 (E2 80 A8, E2 80 A9) are always escaped. *)
Definition is_line_sep (b0 b1 b2 : ascii) : bool :=
  is_byte 0xE2 b0 && is_byte 0x80 b1 && in_range 0xA8 0xA9 b2.

Fixpoint quote_body (s : string) : string :=
  match s with
  | EmptyString => ""
  | String b0 r1 =>
      if (byte_val b0 <? 0x80)%N then quote_ascii b0 ++ quote_body r1
      else
        let bad := escaped_replacement ++ quote_body r1 in
        match r1 with
        | String b1 r2 =>
            if valid2 b0 b1 then String b0 (String b1 (quote_body r2))
            else
              match r2 with
              | String b2 r3 =>
                  if valid3 b0 b1 b2 then
                    if is_line_sep b0 b1 b2 then
                      "\u202" ++
                      String (hex_digit (N.land (byte_val b2) 15)) (quote_body r3)
                    else String b0 (String b1 (String b2 (quote_body r3)))
                  else
                    match r3 with
                    | String b3 r4 =>
                        if valid4 b0 b1 b2 b3 then
                          String b0 (String b1 (String b2 (String b3 (quote_body r4))))
                        else bad
                    | EmptyString => bad
                    end
              | EmptyString => bad
              end
        | EmptyString => bad
        end
  end.

Definition quote (s : string) : string :=
  String dquote (quote_body s ++ String dquote "").

(** The JSON text of a list of strings: a compact array. *)
Definition array_of_strings (l : list string) : string :=
  "[" ++ join "," (map quote l) ++ "]".

(** [json.Marshal(values)] for [values []string].  The slice is built by
    [append] from a [nil] variable, so the only empty slice it can be is
    [nil], which marshals to [null]. *)
Definition Marshal_strings (l : list string) : string :=
  match l with
  | [] => "null"
  | _ => array_of_strings l
  end.

(** *** The syntax of JSON texts, as the scanner of [encoding/json]
    accepts it *)

Inductive value : Type :=
| JNull
| JBool (b : bool)
| JNumber (literal : string)
| JString (s : string)
| JArray (l : list value)
| JObject (m : list (string * value)).

Definition is_ws (c : ascii) : bool :=
  is_byte 32 c || is_byte 9 c || is_byte 13 c || is_byte 10 c.

Fixpoint skip_ws (s : string) : string :=
  match s with
  | String c r => if is_ws c then skip_ws r else s
  | EmptyString => s
  end.

Definition hex_val (c : ascii) : option N :=
  let n := byte_val c in
  if in_range 48 57 c then Some (n - 48)%N
  else if in_range 97 102 c then Some (n - 87)%N
  else if in_range 65 70 c then Some (n - 55)%N
  else None.

Definition hex4 (h1 h2 h3 h4 : ascii) : option N :=
  match hex_val h1, hex_val h2, hex_val h3, hex_val h4 with
  | Some a, Some b, Some c, Some d => Some (((a * 16 + b) * 16 + c) * 16 + d)%N
  | _, _, _, _ => None
  end.

Definition simple_escape (e : ascii) : option ascii :=
  if is_byte 34 e || is_byte 92 e || is_byte 47 e then Some e
  else if is_byte 98 e then Some (byte_of 8)
  else if is_byte 102 e then Some (byte_of 12)
  else if is_byte 110 e then Some (byte_of 10)
  else if is_byte 114 e then Some (byte_of 13)
  else if is_byte 116 e then Some (byte_of 9)
  else None.

Definition is_surrogate (r : N) : bool := ((0xD800 <=? r) && (r <? 0xE000))%N.

(** [utf16.DecodeRune]: [None] stands for U+FFFD (not a valid pair). *)
Definition utf16_DecodeRune (r1 r2 : N) : option N :=
  if ((0xD800 <=? r1) && (r1 <? 0xDC00) && (0xDC00 <=? r2) && (r2 <? 0xE000))%N
  then Some (N.lor (N.shiftl (r1 - 0xD800) 10) (r2 - 0xDC00) + 0x10000)%N
  else None.

Definition push (c : ascii) (k : option (string * string)) : option (string * string) :=
  match k with
  | Some (t, rest) => Some (String c t, rest)
  | None => None
  end.

Definition pushs (p : string) (k : option (string * string)) : option (string * string) :=
  match k with
  | Some (t, rest) => Some (p ++ t, rest)
  | None => None
  end.

(** The body of a string literal, from just after the opening quote: the
    decoded bytes and the input after the closing quote.  [None] is a
    syntax error (a control byte, a bad escape, no closing quote).  Bytes
    that are not well-formed UTF-8 are replaced by U+FFFD one at a time,
    a lone surrogate escape by U+FFFD. *)
Fixpoint unquote (s : string) : option (string * string) :=
  match s with
  | EmptyString => None
  | String c r1 =>
      if is_byte 34 c then Some ("", r1)
      else if is_byte 92 c then
        match r1 with
        | EmptyString => None
        | String e r2 =>
            match simple_escape e with
            | Some d => push d (unquote r2)
            | None =>
                if is_byte 117 e then
                  match r2 with
                  | String h1 (String h2 (String h3 (String h4 r6))) =>
                      match hex4 h1 h2 h3 h4 with
                      | None => None
                      | Some rr =>
                          if is_surrogate rr then
                            let lone := pushs replacement (unquote r6) in
                            match r6 with
                            | String e1 (String e2 (String l1 (String l2
                                (String l3 (String l4 r12))))) =>
                                match
                                  (if is_byte 92 e1 && is_byte 117 e2
                                   then hex4 l1 l2 l3 l4 else None)
                                with
                                | Some rr1 =>
                                    match utf16_DecodeRune rr rr1 with
                                    | Some dec => pushs (EncodeRune dec) (unquote r12)
                                    | None => lone
                                    end
                                | None => lone
                                end
                            | _ => lone
                            end
                          else pushs (EncodeRune rr) (unquote r6)
                      end
                  | _ => None
                  end
                else None
            end
        end
      else if (byte_val c <? 32)%N then None
      else if (byte_val c <? 0x80)%N then push c (unquote r1)
      else
        let bad := pushs replacement (unquote r1) in
        match r1 with
        | String b1 r2 =>
            if valid2 c b1 then push c (push b1 (unquote r2))
            else
              match r2 with
              | String b2 r3 =>
                  if valid3 c b1 b2 then push c (push b1 (push b2 (unquote r3)))
                  else
                    match r3 with
                    | String b3 r4 =>
                        if valid4 c b1 b2 b3 then
                          push c (push b1 (push b2 (push b3 (unquote r4))))
                        else bad
                    | EmptyString => bad
                    end
              | EmptyString => bad
              end
        | EmptyString => bad
        end
  end.

(** A number literal: an optional minus sign; the integer part, [0] or a
    non-zero digit followed by digits; an optional fraction, a dot and at
    least one digit; an optional exponent, [e] or [E], an optional sign
    and at least one digit. *)
Fixpoint span_digits (s : string) : string * string :=
  match s with
  | String c r =>
      if strconv.is_digit c then
        let (ds, rest) := span_digits r in (String c ds, rest)
      else ("", s)
  | EmptyString => ("", s)
  end.

Definition scan_int (s : string) : option (string * string) :=
  match s with
  | String c r =>
      if is_byte 48 c then Some (String c "", r)
      else if in_range 49 57 c then
        let (ds, rest) := span_digits r in Some (String c ds, rest)
      else None
  | EmptyString => None
  end.

Definition scan_frac (s : string) : option (string * string) :=
  match s with
  | String c r =>
      if is_byte 46 c then
        match span_digits r with
        | (EmptyString, _) => None
        | (ds, rest) => Some (String c ds, rest)
        end
      else Some ("", s)
  | EmptyString => Some ("", s)
  end.

Definition scan_exp (s : string) : option (string * string) :=
  match s with
  | String c r =>
      if is_byte 101 c || is_byte 69 c then
        let (sign, r') :=
          match r with
          | String g r' =>
              if is_byte 43 g || is_byte 45 g then (String g "", r') else ("", r)
          | EmptyString => ("", r)
          end in
        match span_digits r' with
        | (EmptyString, _) => None
        | (ds, rest) => Some (String c (sign ++ ds), rest)
        end
      else Some ("", s)
  | EmptyString => Some ("", s)
  end.

Definition scan_number (s : string) : option (string * string) :=
  let (sign, s1) :=
    match s with
    | String c r => if is_byte 45 c then (String c "", r) else ("", s)
    | EmptyString => ("", s)
    end in
  match scan_int s1 with
  | None => None
  | Some (i, s2) =>
      match scan_frac s2 with
      | None => None
      | Some (f, s3) =>
          match scan_exp s3 with
          | None => None
          | Some (e, s4) => Some (sign ++ i ++ f ++ e, s4)
          end
      end
  end.

(** [expect lit s]: [s] without the prefix [lit]. *)
Fixpoint expect (lit s : string) : option string :=
  match lit, s with
  | EmptyString, _ => Some s
  | String a lit', String b s' => if (a =? b)%char then expect lit' s' else None
  | String _ _, EmptyString => None
  end.

Definition maxNestingDepth : N := 10000.

(** One value, from its first byte ([depth] containers are open around
    it); the elements of an array, from the first byte of an element to
    the closing bracket; the members of an object, from the quote of a key
    to the closing brace.  [None] is a syntax error.  The recursion is on
    [fuel]; [2 * length s + 2] is enough for a text [s]. *)
Fixpoint parse_value (fuel : nat) (depth : N) (s : string) : option (value * string) :=
  match fuel with
  | O => None
  | S f =>
      match s with
      | EmptyString => None
      | String c r =>
          if is_byte 34 c then
            match unquote r with
            | Some (t, rest) => Some (JString t, rest)
            | None => None
            end
          else if is_byte 91 c then
            if (maxNestingDepth <=? depth)%N then None
            else
              match skip_ws r with
              | EmptyString => None
              | String c' r' as r0 =>
                  if is_byte 93 c' then Some (JArray [], r')
                  else
                    match parse_elements f (N.succ depth) r0 with
                    | Some (l, rest) => Some (JArray l, rest)
                    | None => None
                    end
              end
          else if is_byte 123 c then
            if (maxNestingDepth <=? depth)%N then None
            else
              match skip_ws r with
              | EmptyString => None
              | String c' r' as r0 =>
                  if is_byte 125 c' then Some (JObject [], r')
                  else
                    match parse_members f (N.succ depth) r0 with
                    | Some (m, rest) => Some (JObject m, rest)
                    | None => None
                    end
              end
          else if is_byte 116 c then
            option_map (fun rest => (JBool true, rest)) (expect "rue" r)
          else if is_byte 102 c then
            option_map (fun rest => (JBool false, rest)) (expect "alse" r)
          else if is_byte 110 c then
            option_map (fun rest => (JNull, rest)) (expect "ull" r)
          else
            match scan_number s with
            | Some (lit, rest) => Some (JNumber lit, rest)
            | None => None
            end
      end
  end

with parse_elements (fuel : nat) (depth : N) (s : string) : option (list value * string) :=
  match fuel with
  | O => None
  | S f =>
      match parse_value f depth s with
      | None => None
      | Some (v, r) =>
          match skip_ws r with
          | EmptyString => None
          | String c r' =>
              if is_byte 44 c then
                match parse_elements f depth (skip_ws r') with
                | Some (l, rest) => Some (v :: l, rest)
                | None => None
                end
              else if is_byte 93 c then Some ([v], r')
              else None
          end
      end
  end

with parse_members (fuel : nat) (depth : N) (s : string)
     : option (list (string * value) * string) :=
  match fuel with
  | O => None
  | S f =>
      match s with
      | EmptyString => None
      | String q r0 =>
          if is_byte 34 q then
            match unquote r0 with
            | None => None
            | Some (key, r1) =>
                match skip_ws r1 with
                | EmptyString => None
                | String c r2 =>
                    if is_byte 58 c then
                      match parse_value f depth (skip_ws r2) with
                      | None => None
                      | Some (v, r3) =>
                          match skip_ws r3 with
                          | EmptyString => None
                          | String c' r4 =>
                              if is_byte 44 c' then
                                match parse_members f depth (skip_ws r4) with
                                | Some (m, rest) => Some ((key, v) :: m, rest)
                                | None => None
                                end
                              else if is_byte 125 c' then Some ([(key, v)], r4)
                              else None
                          end
                      end
                    else None
                end
            end
          else None
      end
  end.

(** A whole text: one value between optional white space. *)
Definition parse_document (data : string) : option value :=
  match parse_value (2 * String.length data + 2) 0 (skip_ws data) with
  | Some (v, rest) =>
      match skip_ws rest with
      | EmptyString => Some v
      | String _ _ => None
      end
  | None => None
  end.

(** *** Unmarshal into a [[]interface{}] *)

Inductive Error :=
| SyntaxError
| UnmarshalTypeError (what : string).

(** [m[k] = v] on a map kept in increasing key order. *)
Fixpoint map_set (k : string) (v : GoValue) (m : list (string * GoValue))
  : list (string * GoValue) :=
  match m with
  | [] => [(k, v)]
  | (k', v') :: rest =>
      match String.compare k k' with
      | Lt => (k, v) :: m
      | Eq => (k, v) :: rest
      | Gt => (k', v') :: map_set k v rest
      end
  end.

Section Decode.

(** [strconv.ParseFloat(literal, 64)] followed by [%v]: the text [fmt]
    prints for the float64 nearest to a number literal, [None] when the
    literal is out of the float64 range. *)
Variable ParseFloat : string -> option string.

(** The dynamic value [encoding/json] builds for a JSON value stored in
    an [interface{}]; [None] when a number in it is out of range. *)
Fixpoint to_interface (j : value) : option GoValue :=
  match j with
  | JNull => Some GoNil
  | JBool b => Some (GoBool b)
  | JNumber lit => option_map GoFloat64 (ParseFloat lit)
  | JString s => Some (GoString s)
  | JArray l =>
      option_map GoSlice
        ((fix elements (l : list value) : option (list GoValue) :=
            match l with
            | [] => Some []
            | j' :: rest =>
                match to_interface j', elements rest with
                | Some v, Some vs => Some (v :: vs)
                | _, _ => None
                end
            end) l)
  | JObject m =>
      option_map GoMap
        ((fix members (m : list (string * value)) (acc : list (string * GoValue))
            : option (list (string * GoValue)) :=
            match m with
            | [] => Some acc
            | (k, j') :: rest =>
                match to_interface j' with
                | Some v => members rest (map_set k v acc)
                | None => None
                end
            end) m [])
  end.

Fixpoint to_interfaces (l : list value) : option (list GoValue) :=
  match l with
  | [] => Some []
  | j :: rest =>
      match to_interface j, to_interfaces rest with
      | Some v, Some vs => Some (v :: vs)
      | _, _ => None
      end
  end.

(** [json.Unmarshal(data, &values)] with [var values []interface{}]:
    a syntax error for a text that is not JSON; [null] leaves the slice
    [nil]; an array fills it; any other value is a type error. *)
Definition Unmarshal_slice (data : string) : Error + list GoValue :=
  match parse_document data with
  | None => inl SyntaxError
  | Some JNull => inr []
  | Some (JArray l) =>
      match to_interfaces l with
      | Some vs => inr vs
      | None => inl (UnmarshalTypeError "number")
      end
  | Some (JObject _) => inl (UnmarshalTypeError "object")
  | Some (JString _) => inl (UnmarshalTypeError "string")
  | Some (JNumber _) => inl (UnmarshalTypeError "number")
  | Some (JBool _) => inl (UnmarshalTypeError "bool")
  end.

End Decode.

End json.

(** ** Errors

    The Go [error] values this program creates or inspects. *)

Inductive error : Type :=
| NumError (Func Num : string) (Err : strconv.NumError)   (* *strconv.NumError *)
| JSONError (e : json.Error)                               (* encoding/json *)
| GraphError (Code Message : string)                       (* *clients.GraphError *)
| errorString (msg : string)                               (* any other error *)
| wrapError (msg : string) (err : error).                  (* fmt.Errorf("msg: %w", err) *)

(** ** terraform-plugin-framework values

    A [types.String] read from a plan or a state at apply time is null or
    known; [ValueString] of a null string is the empty string.  A
    [types.List] is null or holds its elements. *)

Inductive tfString : Type :=
| StringNull
| StringValue (s : string).

Definition ValueString (v : tfString) : string :=
  match v with
  | StringNull => ""
  | StringValue s => s
  end.

Inductive tfList (A : Type) : Type :=
| ListNull
| ListValue (elems : list A).
Arguments ListNull {A}.
Arguments ListValue {A} elems.

Definition IsNull {A} (l : tfList A) : bool :=
  match l with
  | ListNull => true
  | ListValue _ => false
  end.

Definition Elements {A} (l : tfList A) : list A :=
  match l with
  | ListNull => []
  | ListValue elems => elems
  end.

(** [types.ListValueFrom] on a Go slice. *)
Definition ListValueFrom {A} (elems : list A) : tfList A := ListValue elems.

(** ** internal/clients *)

Module clients.

(** A Go slice, where [nil] and an empty slice differ (in JSON: [null] and
    [[]]). *)
Inductive slice (A : Type) : Type :=
| nil_slice
| make_slice (elems : list A).
Arguments nil_slice {A}.
Arguments make_slice {A} elems.

Definition append {A} (s : slice A) (x : A) : slice A :=
  match s with
  | nil_slice => make_slice [x]
  | make_slice elems => make_slice (elems ++ [x])
  end.

Record SimpleSettingValue : Type := {
  ssv_ODataType : string;
  ssv_Value : GoValue
}.

Record SettingInstanceTemplateRef : Type := {
  SettingInstanceTemplateId : string
}.

(** The wire tree.  Slices inside it are only ranged over and measured, so
    a list stands for them ([nil] and empty are the empty list). *)
Inductive SettingsCatalogPolicySetting : Type :=
  Build_SettingsCatalogPolicySetting {
    ODataType : string;
    ID : string;
    SettingInstance_ : option SettingInstance
  }
with SettingInstance : Type :=
  Build_SettingInstance {
    si_ODataType : string;
    SettingDefinitionId : string;
    SettingInstanceTemplateRef_ : option SettingInstanceTemplateRef;
    SimpleSettingValue_ : option SimpleSettingValue;
    ChoiceSettingValue_ : option ChoiceSettingValue;
    SimpleSettingCollectionValue : list SimpleSettingValue;
    GroupSettingValue_ : option GroupSettingValue;
    GroupSettingCollectionValue : list GroupSettingValue
  }
with ChoiceSettingValue : Type :=
  Build_ChoiceSettingValue {
    csv_ODataType : string;
    csv_Value : string;
    csv_Children : list SettingsCatalogPolicySetting
  }
with GroupSettingValue : Type :=
  Build_GroupSettingValue {
    gsv_ODataType : string;
    gsv_Children : list SettingsCatalogPolicySetting
  }.

(** The keys [json.Marshal] writes for a [GroupSettingValue]: a field
    tagged [omitempty] is left out when it is the empty string or a slice
    of length zero. *)
Definition GroupSettingValue_keys (g : GroupSettingValue) : list string :=
  (if (gsv_ODataType g =? "")%string then [] else ["@odata.type"]) ++
  (match gsv_Children g with [] => [] | _ :: _ => ["children"] end).

Record SettingsCatalogTemplateReference : Type := {
  TemplateId : string;
  TemplateFamily : string;
  TemplateDisplayName : string;
  TemplateDisplayVersion : string
}.

Record SettingsCatalogPolicy : Type := {
  p_ODataType : string;
  p_ID : string;
  Name : string;
  Description : string;
  Platforms : string;
  Technologies : string;
  CreatedDateTime : string;
  LastModifiedDateTime : string;
  RoleScopeTagIds : list string;
  SettingCount : Z;
  Settings : list SettingsCatalogPolicySetting;
  TemplateReference : option SettingsCatalogTemplateReference
}.

Record GraphResponse : Type := {
  r_ODataContext : string;
  r_ODataType : string;
  r_ODataNextLink : string;
  r_Value : string;
  r_ID : string
}.

(** A request handed to [doRequest].  The only body this resource sends
    is the map [{"settings": settings}]. *)
Inductive Body : Type :=
| SettingsBody (settings : slice SettingsCatalogPolicySetting).

Record Request : Type := {
  Method : string;
  Path : string;
  RequestBody : option Body
}.

Definition PathSettingsCatalogPolicies : string :=
  "/deviceManagement/configurationPolicies".

End clients.

(** ** The read path of the client

    [GetSettingsCatalogPolicy] fetches the policy with [Get], writes the
    [*GraphResponse] it got back as JSON and reads that text into a
    [SettingsCatalogPolicy].  The JSON text in between is kept as the
    value it denotes: the members of the object, in the order of the
    fields of the struct. *)

Module GraphClient.
Import clients.

(** What a string written by [json.Marshal] denotes when it is read back:
    each byte that does not begin well-formed UTF-8 has become U+FFFD. *)
Fixpoint replace_ill_formed (s : string) : string :=
  match s with
  | EmptyString => ""
  | String b0 r1 =>
      if (byte_val b0 <? 0x80)%N then String b0 (replace_ill_formed r1)
      else
        let bad := json.replacement ++ replace_ill_formed r1 in
        match r1 with
        | String b1 r2 =>
            if json.valid2 b0 b1 then String b0 (String b1 (replace_ill_formed r2))
            else
              match r2 with
              | String b2 r3 =>
                  if json.valid3 b0 b1 b2 then
                    String b0 (String b1 (String b2 (replace_ill_formed r3)))
                  else
                    match r3 with
                    | String b3 r4 =>
                        if json.valid4 b0 b1 b2 b3 then
                          String b0 (String b1 (String b2 (String b3
                            (replace_ill_formed r4))))
                        else bad
                    | EmptyString => bad
                    end
              | EmptyString => bad
              end
        | EmptyString => bad
        end
  end.

(** A string field tagged [omitempty]. *)
Definition omitempty (key s : string) : list (string * json.value) :=
  if (s =? "")%string then [] else [(key, json.JString (replace_ill_formed s))].

(** [json.Marshal(resp)] for [resp *GraphResponse]: every field is tagged
    [omitempty]; the raw [Value] is written as the JSON value it holds
    and makes [Marshal] fail when it holds none ([None]).  The [Error]
    field, which [clients.GraphResponse] does not keep, would add a
    member [error], a key that names no field of a policy. *)
Definition Marshal_GraphResponse (r : GraphResponse)
  : option (list (string * json.value)) :=
  let value :=
    if (r_Value r =? "")%string then Some []
    else
      match json.parse_document (r_Value r) with
      | Some v => Some [("value", v)]
      | None => None
      end in
  match value with
  | Some value =>
      Some (omitempty "@odata.context" (r_ODataContext r)
            ++ omitempty "@odata.type" (r_ODataType r)
            ++ omitempty "@odata.nextLink" (r_ODataNextLink r)
            ++ value
            ++ omitempty "id" (r_ID r))%list
  | None => None
  end.

(** The fields of [SettingsCatalogPolicy] and their JSON names. *)
Inductive Field : Type :=
| FODataType | FID | FName | FDescription | FPlatforms | FTechnologies
| FCreatedDateTime | FLastModifiedDateTime
| FRoleScopeTagIds | FSettingCount | FSettings | FTemplateReference.

Definition fields : list Field :=
  [FODataType; FID; FName; FDescription; FPlatforms; FTechnologies;
   FCreatedDateTime; FLastModifiedDateTime;
   FRoleScopeTagIds; FSettingCount; FSettings; FTemplateReference].

Definition tag (f : Field) : string :=
  match f with
  | FODataType => "@odata.type"
  | FID => "id"
  | FName => "name"
  | FDescription => "description"
  | FPlatforms => "platforms"
  | FTechnologies => "technologies"
  | FCreatedDateTime => "createdDateTime"
  | FLastModifiedDateTime => "lastModifiedDateTime"
  | FRoleScopeTagIds => "roleScopeTagIds"
  | FSettingCount => "settingCount"
  | FSettings => "settings"
  | FTemplateReference => "templateReference"
  end.

Definition lower (c : ascii) : ascii :=
  if in_range 65 90 c then byte_of (byte_val c + 32) else c.

(** The case folding under which [encoding/json] compares an object key
    with the names above when none is equal to it: letters A to Z fold to
    a to z, and so do the two other characters that fold to a letter of
    these names, U+017F (C5 BF) to s and U+212A (E2 84 AA) to k. *)
Fixpoint foldName (s : string) : string :=
  match s with
  | EmptyString => ""
  | String c r1 =>
      match r1 with
      | String c1 r2 =>
          if json.is_byte 0xC5 c && json.is_byte 0xBF c1 then String "s" (foldName r2)
          else
            match r2 with
            | String c2 r3 =>
                if json.is_byte 0xE2 c && json.is_byte 0x84 c1 && json.is_byte 0xAA c2
                then String "k" (foldName r3)
                else String (lower c) (foldName r1)
            | EmptyString => String (lower c) (foldName r1)
            end
      | EmptyString => String (lower c) ""
      end
  end.

(** The field an object key is stored into: the one of that name, or
    else the first one of that name up to case. *)
Definition field_of_key (key : string) : option Field :=
  match find (fun f => (tag f =? key)%string) fields with
  | Some f => Some f
  | None => find (fun f => (foldName (tag f) =? foldName key)%string) fields
  end.

Definition zero_policy : SettingsCatalogPolicy :=
  {| p_ODataType := ""; p_ID := ""; Name := ""; Description := "";
     Platforms := ""; Technologies := "";
     CreatedDateTime := ""; LastModifiedDateTime := "";
     RoleScopeTagIds := []; SettingCount := 0;
     Settings := []; TemplateReference := None |}.

(** [p] with the string field [f] set to [s]. *)
Definition with_string (f : Field) (s : string) (p : SettingsCatalogPolicy)
  : SettingsCatalogPolicy :=
  {| p_ODataType := match f with FODataType => s | _ => p_ODataType p end;
     p_ID := match f with FID => s | _ => p_ID p end;
     Name := match f with FName => s | _ => Name p end;
     Description := match f with FDescription => s | _ => Description p end;
     Platforms := match f with FPlatforms => s | _ => Platforms p end;
     Technologies := match f with FTechnologies => s | _ => Technologies p end;
     CreatedDateTime :=
       match f with FCreatedDateTime => s | _ => CreatedDateTime p end;
     LastModifiedDateTime :=
       match f with FLastModifiedDateTime => s | _ => LastModifiedDateTime p end;
     RoleScopeTagIds := RoleScopeTagIds p;
     SettingCount := SettingCount p;
     Settings := Settings p;
     TemplateReference := TemplateReference p |}.

Section Client.

(** What the Graph endpoint answers to a request of [doRequest]. *)
Variable transport : Request -> error + GraphResponse.

(** What [json.Unmarshal] stores into each field that is not a string,
    from a JSON value and what the field holds. *)
Variable decode_RoleScopeTagIds : json.value -> list string -> json.Error + list string.
Variable decode_SettingCount : json.value -> Z -> json.Error + Z.
Variable decode_Settings :
  json.value -> list SettingsCatalogPolicySetting
  -> json.Error + list SettingsCatalogPolicySetting.
Variable decode_TemplateReference :
  json.value -> option SettingsCatalogTemplateReference
  -> json.Error + option SettingsCatalogTemplateReference.

(** A string field takes a JSON string, is left alone by [null] and
    rejects every other value. *)
Definition store_string (f : Field) (v : json.value) (p : SettingsCatalogPolicy)
  : json.Error + SettingsCatalogPolicy :=
  match v with
  | json.JString s => inr (with_string f s p)
  | json.JNull => inr p
  | json.JBool _ => inl (json.UnmarshalTypeError "bool")
  | json.JNumber _ => inl (json.UnmarshalTypeError "number")
  | json.JArray _ => inl (json.UnmarshalTypeError "array")
  | json.JObject _ => inl (json.UnmarshalTypeError "object")
  end.

Definition store (f : Field) (v : json.value) (p : SettingsCatalogPolicy)
  : json.Error + SettingsCatalogPolicy :=
  match f with
  | FRoleScopeTagIds =>
      match decode_RoleScopeTagIds v (RoleScopeTagIds p) with
      | inl e => inl e
      | inr x =>
          inr {| p_ODataType := p_ODataType p; p_ID := p_ID p; Name := Name p;
                 Description := Description p; Platforms := Platforms p;
                 Technologies := Technologies p;
                 CreatedDateTime := CreatedDateTime p;
                 LastModifiedDateTime := LastModifiedDateTime p;
                 RoleScopeTagIds := x; SettingCount := SettingCount p;
                 Settings := Settings p;
                 TemplateReference := TemplateReference p |}
      end
  | FSettingCount =>
      match decode_SettingCount v (SettingCount p) with
      | inl e => inl e
      | inr x =>
          inr {| p_ODataType := p_ODataType p; p_ID := p_ID p; Name := Name p;
                 Description := Description p; Platforms := Platforms p;
                 Technologies := Technologies p;
                 CreatedDateTime := CreatedDateTime p;
                 LastModifiedDateTime := LastModifiedDateTime p;
                 RoleScopeTagIds := RoleScopeTagIds p; SettingCount := x;
                 Settings := Settings p;
                 TemplateReference := TemplateReference p |}
      end
  | FSettings =>
      match decode_Settings v (Settings p) with
      | inl e => inl e
      | inr x =>
          inr {| p_ODataType := p_ODataType p; p_ID := p_ID p; Name := Name p;
                 Description := Description p; Platforms := Platforms p;
                 Technologies := Technologies p;
                 CreatedDateTime := CreatedDateTime p;
                 LastModifiedDateTime := LastModifiedDateTime p;
                 RoleScopeTagIds := RoleScopeTagIds p;
                 SettingCount := SettingCount p;
                 Settings := x;
                 TemplateReference := TemplateReference p |}
      end
  | FTemplateReference =>
      match decode_TemplateReference v (TemplateReference p) with
      | inl e => inl e
      | inr x =>
          inr {| p_ODataType := p_ODataType p; p_ID := p_ID p; Name := Name p;
                 Description := Description p; Platforms := Platforms p;
                 Technologies := Technologies p;
                 CreatedDateTime := CreatedDateTime p;
                 LastModifiedDateTime := LastModifiedDateTime p;
                 RoleScopeTagIds := RoleScopeTagIds p;
                 SettingCount := SettingCount p;
                 Settings := Settings p;
                 TemplateReference := x |}
      end
  | _ => store_string f v p
  end.

(** The members of the object, in order: a key that names no field is
    skipped; a value its field rejects leaves the field as it was, and
    the first such error is the one returned once every member has been
    read. *)
Fixpoint decode_members (m : list (string * json.value)) (p : SettingsCatalogPolicy)
         (saved : option json.Error) : SettingsCatalogPolicy * option json.Error :=
  match m with
  | [] => (p, saved)
  | (key, v) :: rest =>
      match field_of_key key with
      | None => decode_members rest p saved
      | Some f =>
          match store f v p with
          | inr p' => decode_members rest p' saved
          | inl e =>
              decode_members rest p
                (match saved with None => Some e | Some _ => saved end)
          end
      end
  end.

(** [json.Unmarshal(respBytes, &policy)] with [var policy
    SettingsCatalogPolicy]; the error of [json.Marshal] is dropped by the
    caller, and the empty text it leaves is a syntax error here. *)
Definition Unmarshal_policy (data : option (list (string * json.value)))
  : error + SettingsCatalogPolicy :=
  match data with
  | None => inl (JSONError json.SyntaxError)
  | Some m =>
      match decode_members m zero_policy None with
      | (p, None) => inr p
      | (_, Some e) => inl (JSONError e)
      end
  end.

Definition Get (path : string) : error + GraphResponse :=
  transport {| Method := "GET"; Path := path; RequestBody := None |}.

Definition GetSettingsCatalogPolicy (id : string) : error + SettingsCatalogPolicy :=
  let path := PathSettingsCatalogPolicies ++ "('" ++ id ++ "')?$expand=settings" in
  match Get path with
  | inl err => inl (wrapError "failed to get settings catalog policy" err)
  | inr resp =>
      match Unmarshal_policy (Marshal_GraphResponse resp) with
      | inl err => inl (wrapError "failed to parse policy" err)
      | inr policy =>
          inr (if (p_ID policy =? "")%string then with_string FID (r_ID resp) policy
               else policy)
      end
  end.

End Client.

(** The policy that holds nothing but the type and the id of a response. *)
Definition identity_of (resp : GraphResponse) : SettingsCatalogPolicy :=
  with_string FID (replace_ill_formed (r_ID resp))
    (with_string FODataType (replace_ill_formed (r_ODataType resp)) zero_policy).

(** A decoder that takes nothing but [null], which resets the field. *)
Definition null_only {A : Type} (zero : A) (v : json.value) (old : A)
  : json.Error + A :=
  match v with
  | json.JNull => inr zero
  | _ => inl (json.UnmarshalTypeError "value")
  end.

(** *** Paginated lists *)

Definition GraphAPIVersion : string := "beta".

(** [strings.TrimPrefix] *)
Definition TrimPrefix (s prefix : string) : string :=
  match json.expect prefix s with
  | Some rest => rest
  | None => s
  end.

Section Paging.

Variable transport : Request -> error + GraphResponse.

(** [json.Unmarshal(resp.Value, &items)] with [var items
    []json.RawMessage]: the texts of the elements of the array. *)
Variable items_of : string -> json.Error + list string.

(** [url.Parse(link)]: the [Path] and the [RawQuery] of the link. *)
Variable url_Parse : string -> error + (string * string).

(** The items of one page, appended to those gathered so far; a response
    without a [value] adds none. *)
Definition append_items (allItems : list string) (resp : GraphResponse)
  : error + list string :=
  if (r_Value resp =? "")%string then inr allItems
  else
    match items_of (r_Value resp) with
    | inl e => inl (wrapError "failed to parse items" (JSONError e))
    | inr items => inr (allItems ++ items)%list
    end.

(** The path of the next turn, from a next link. *)
Definition next_path (link : string) : error + string :=
  match url_Parse link with
  | inl err => inl (wrapError "failed to parse next link" err)
  | inr (path, query) => inr (TrimPrefix (path ++ "?" ++ query) ("/" ++ GraphAPIVersion))
  end.

(** The loop of [ListAll], for at most [fuel] turns: the paths requested,
    in order, and what is returned, [None] when the loop is still running
    after [fuel] turns. *)
Fixpoint ListAll_loop (fuel : nat) (currentPath : string) (allItems : list string)
  : list string * option (error + list string) :=
  match fuel with
  | O => ([], None)
  | S fuel' =>
      match Get transport currentPath with
      | inl err => ([currentPath], Some (inl err))
      | inr resp =>
          match append_items allItems resp with
          | inl err => ([currentPath], Some (inl err))
          | inr allItems' =>
              if (r_ODataNextLink resp =? "")%string
              then ([currentPath], Some (inr allItems'))
              else
                match next_path (r_ODataNextLink resp) with
                | inl err => ([currentPath], Some (inl err))
                | inr next =>
                    let (sent, result) := ListAll_loop fuel' next allItems' in
                    (currentPath :: sent, result)
                end
          end
      end
  end.

Definition ListAll (fuel : nat) (path : string)
  : list string * option (error + list string) :=
  ListAll_loop fuel path [].

(** [paged path pages]: starting from [path], the endpoint serves the
    pages [pages], each with the path it is requested at and its items,
    every page but the last linking to the next one. *)
Inductive paged : string -> list (string * list string) -> Prop :=
| paged_last : forall path resp items,
    Get transport path = inr resp ->
    append_items [] resp = inr items ->
    r_ODataNextLink resp = "" ->
    paged path [(path, items)]
| paged_next : forall path resp items next rest,
    Get transport path = inr resp ->
    append_items [] resp = inr items ->
    r_ODataNextLink resp <> "" ->
    next_path (r_ODataNextLink resp) = inr next ->
    paged next rest ->
    paged path ((path, items) :: rest).

End Paging.

(** An endpoint with two pages of scope tags, and one whose only page
    links to itself. *)
Definition two_pages : Request -> error + GraphResponse :=
  fun req =>
    if (Path req =? "/deviceManagement/roleScopeTags")%string then
      inr {| r_ODataContext := ""; r_ODataType := "";
             r_ODataNextLink :=
               "https://graph.microsoft.com/beta/deviceManagement/roleScopeTags?$skiptoken=2";
             r_Value := "[1,2]"; r_ID := "" |}
    else if (Path req =? "/deviceManagement/roleScopeTags?$skiptoken=2")%string then
      inr {| r_ODataContext := ""; r_ODataType := ""; r_ODataNextLink := "";
             r_Value := "[3]"; r_ID := "" |}
    else inl (GraphError "NotFound" "no such page").

Definition looping : Request -> error + GraphResponse :=
  fun _ =>
    inr {| r_ODataContext := ""; r_ODataType := "";
           r_ODataNextLink :=
             "https://graph.microsoft.com/beta/deviceManagement/roleScopeTags";
           r_Value := ""; r_ID := "" |}.

(** The elements of the two arrays above. *)
Definition sample_items (raw : string) : json.Error + list string :=
  if (raw =? "[1,2]")%string then inr ["1"; "2"]
  else if (raw =? "[3]")%string then inr ["3"]
  else inl json.SyntaxError.

(** The path and the query of the two links above. *)
Definition sample_Parse (link : string) : error + (string * string) :=
  if (link =? "https://graph.microsoft.com/beta/deviceManagement/roleScopeTags?$skiptoken=2")%string
  then inr ("/beta/deviceManagement/roleScopeTags", "$skiptoken=2")
  else if (link =? "https://graph.microsoft.com/beta/deviceManagement/roleScopeTags")%string
  then inr ("/beta/deviceManagement/roleScopeTags", "")
  else inl (errorString "parse error").

End GraphClient.

(** ** internal/provider: the settings resource *)

Module provider.
Import clients.

(** *** The declared model *)

Record ChildSettingModel : Type := {
  child_DefinitionID : tfString;
  child_ValueType : tfString;
  child_Value : tfString
}.

Record SettingModel : Type := {
  DefinitionID : tfString;
  ValueType : tfString;
  Value : tfString;
  Children : tfList ChildSettingModel
}.

Record SettingsCatalogPolicySettingsResourceModel : Type := {
  model_ID : tfString;
  PolicyID : tfString;
  model_Settings : tfList SettingModel
}.

(** *** What a method call leaves behind

    The diagnostics of the response, the [tflog] lines, the requests the
    client sent, and what was done to the state of the response. *)

Inductive Severity := SeverityError | SeverityWarning.

(** The detail of a diagnostic built by [fmt.Sprintf(format, ..., err)]
    is [detail] followed by the text of [cause]. *)
Record Diagnostic : Type := {
  severity : Severity;
  summary : string;
  detail : string;
  cause : error
}.

Inductive Level := Debug | Warn.

Record LogEntry : Type := {
  level : Level;
  message : string;
  fields : list (string * GoValue)
}.

Inductive StateAction : Type :=
| Untouched
| Removed                                                  (* State.RemoveResource *)
| SetTo (data : SettingsCatalogPolicySettingsResourceModel). (* State.Set *)

Record Env : Type := {
  diagnostics : list Diagnostic;
  logs : list LogEntry;
  requests : list Request;
  state : StateAction
}.

Definition empty_env : Env :=
  {| diagnostics := []; logs := []; requests := []; state := Untouched |}.

Definition M (A : Type) : Type := Env -> A * Env.

Definition ret {A} (a : A) : M A := fun env => (a, env).

Definition bind {A B} (m : M A) (k : A -> M B) : M B :=
  fun env => let (a, env') := m env in k a env'.

Notation "x <- m ;; k" := (bind m (fun x => k))
  (at level 61, m at next level, right associativity).
Notation "m ;;; k" := (bind m (fun _ => k))
  (at level 61, right associativity).

Definition AddError (summary detail : string) (cause : error) : M unit :=
  fun env =>
    (tt, {| diagnostics :=
              diagnostics env ++
              [{| severity := SeverityError; summary := summary;
                  detail := detail; cause := cause |}];
            logs := logs env; requests := requests env; state := state env |}).

Definition is_error (d : Diagnostic) : bool :=
  match severity d with
  | SeverityError => true
  | SeverityWarning => false
  end.

Definition HasError : M bool :=
  fun env => (existsb is_error (diagnostics env), env).

Definition tflog (lvl : Level) (msg : string) (fs : list (string * GoValue)) : M unit :=
  fun env =>
    (tt, {| diagnostics := diagnostics env;
            logs := logs env ++ [{| level := lvl; message := msg; fields := fs |}];
            requests := requests env; state := state env |}).

Definition send (req : Request) : M unit :=
  fun env =>
    (tt, {| diagnostics := diagnostics env; logs := logs env;
            requests := requests env ++ [req]; state := state env |}).

Definition set_state (a : StateAction) : M unit :=
  fun env =>
    (tt, {| diagnostics := diagnostics env; logs := logs env;
            requests := requests env; state := a |}).

(** *** Wire constants *)

Definition odata_Setting := "#microsoft.graph.deviceManagementConfigurationSetting".
Definition odata_SimpleInstance :=
  "#microsoft.graph.deviceManagementConfigurationSimpleSettingInstance".
Definition odata_ChoiceInstance :=
  "#microsoft.graph.deviceManagementConfigurationChoiceSettingInstance".
Definition odata_CollectionInstance :=
  "#microsoft.graph.deviceManagementConfigurationSimpleSettingCollectionInstance".
Definition odata_GroupInstance :=
  "#microsoft.graph.deviceManagementConfigurationGroupSettingInstance".
Definition odata_StringValue :=
  "#microsoft.graph.deviceManagementConfigurationStringSettingValue".
Definition odata_IntegerValue :=
  "#microsoft.graph.deviceManagementConfigurationIntegerSettingValue".
Definition odata_BooleanValue :=
  "#microsoft.graph.deviceManagementConfigurationBooleanSettingValue".
Definition odata_ChoiceValue :=
  "#microsoft.graph.deviceManagementConfigurationChoiceSettingValue".
Definition odata_GroupValue :=
  "#microsoft.graph.deviceManagementConfigurationGroupSettingValue".

(** [&clients.SettingInstance{SettingDefinitionId: id}] *)
Definition new_instance (id : string) : SettingInstance :=
  {| si_ODataType := ""; SettingDefinitionId := id;
     SettingInstanceTemplateRef_ := None;
     SimpleSettingValue_ := None; ChoiceSettingValue_ := None;
     SimpleSettingCollectionValue := []; GroupSettingValue_ := None;
     GroupSettingCollectionValue := [] |}.

Definition simple_instance (id ty : string) (v : GoValue) : SettingInstance :=
  {| si_ODataType := odata_SimpleInstance; SettingDefinitionId := id;
     SettingInstanceTemplateRef_ := None;
     SimpleSettingValue_ := Some {| ssv_ODataType := ty; ssv_Value := v |};
     ChoiceSettingValue_ := None;
     SimpleSettingCollectionValue := []; GroupSettingValue_ := None;
     GroupSettingCollectionValue := [] |}.

Definition choice_instance (id value : string)
           (children : list SettingsCatalogPolicySetting) : SettingInstance :=
  {| si_ODataType := odata_ChoiceInstance; SettingDefinitionId := id;
     SettingInstanceTemplateRef_ := None;
     SimpleSettingValue_ := None;
     ChoiceSettingValue_ :=
       Some {| csv_ODataType := odata_ChoiceValue; csv_Value := value;
               csv_Children := children |};
     SimpleSettingCollectionValue := []; GroupSettingValue_ := None;
     GroupSettingCollectionValue := [] |}.

Definition collection_instance (id : string) (vs : list SimpleSettingValue)
  : SettingInstance :=
  {| si_ODataType := odata_CollectionInstance; SettingDefinitionId := id;
     SettingInstanceTemplateRef_ := None;
     SimpleSettingValue_ := None; ChoiceSettingValue_ := None;
     SimpleSettingCollectionValue := vs; GroupSettingValue_ := None;
     GroupSettingCollectionValue := [] |}.

Definition group_instance (id : string)
           (children : list SettingsCatalogPolicySetting) : SettingInstance :=
  {| si_ODataType := odata_GroupInstance; SettingDefinitionId := id;
     SettingInstanceTemplateRef_ := None;
     SimpleSettingValue_ := None; ChoiceSettingValue_ := None;
     SimpleSettingCollectionValue := [];
     GroupSettingValue_ :=
       Some {| gsv_ODataType := odata_GroupValue; gsv_Children := children |};
     GroupSettingCollectionValue := [] |}.

Definition wrap_setting (inst : option SettingInstance) : SettingsCatalogPolicySetting :=
  {| ODataType := odata_Setting; ID := ""; SettingInstance_ := inst |}.

Definition invalid_integer (value : string) (e : strconv.NumError) : M unit :=
  AddError "Invalid Integer Value"
           ("Could not parse '" ++ value ++ "' as integer: ")
           (NumError "ParseInt" value e).

(** *** Declared model to wire *)

(** [convertChildSetting]: [None] is the [nil] returned after an integer
    that does not parse. *)
Definition convertChildSetting (child : ChildSettingModel)
  : M (option SettingsCatalogPolicySetting) :=
  let id := ValueString (child_DefinitionID child) in
  let valueType := ValueString (child_ValueType child) in
  let value := ValueString (child_Value child) in
  if (valueType =? "string")%string then
    ret (Some (wrap_setting (Some (simple_instance id odata_StringValue (GoString value)))))
  else if (valueType =? "integer")%string then
    match strconv.ParseInt value with
    | inl e => invalid_integer value e ;;; ret None
    | inr intVal =>
        ret (Some (wrap_setting
                     (Some (simple_instance id odata_IntegerValue (GoInt64 intVal)))))
    end
  else if (valueType =? "boolean")%string then
    ret (Some (wrap_setting
                 (Some (simple_instance id odata_BooleanValue
                                        (GoBool (value =? "true")%string)))))
  else if (valueType =? "choice")%string then
    ret (Some (wrap_setting (Some (choice_instance id value []))))
  else
    ret (Some (wrap_setting (Some (new_instance id)))).

(** The loop over [children] in the choice and group cases: every child
    that converts is appended. *)
Fixpoint convertChildren (children : list ChildSettingModel)
  : M (list SettingsCatalogPolicySetting) :=
  match children with
  | [] => ret []
  | child :: rest =>
      childSetting <- convertChildSetting child ;;
      others <- convertChildren rest ;;
      ret (match childSetting with
           | Some c => c :: others
           | None => others
           end)
  end.

(** The children of a choice or group setting: [None] is the early
    [return nil] taken when the diagnostics already hold an error. *)
Definition encodeChildren (children : tfList ChildSettingModel)
  : M (option (list SettingsCatalogPolicySetting)) :=
  if (negb (IsNull children) && (0 <? length (Elements children))%nat)%bool then
    failed <- HasError ;;
    if failed then ret None
    else
      cs <- convertChildren (Elements children) ;;
      ret (Some cs)
  else ret (Some []).

Section Encode.

Variable ParseFloat : string -> option string.

(** [convertSettingInstance]: [None] is a [nil] instance. *)
Definition convertSettingInstance (setting : SettingModel)
  : M (option SettingInstance) :=
  let id := ValueString (DefinitionID setting) in
  let valueType := ValueString (ValueType setting) in
  let value := ValueString (Value setting) in
  if (valueType =? "string")%string then
    ret (Some (simple_instance id odata_StringValue (GoString value)))
  else if (valueType =? "integer")%string then
    match strconv.ParseInt value with
    | inl e => invalid_integer value e ;;; ret None
    | inr intVal => ret (Some (simple_instance id odata_IntegerValue (GoInt64 intVal)))
    end
  else if (valueType =? "boolean")%string then
    ret (Some (simple_instance id odata_BooleanValue (GoBool (value =? "true")%string)))
  else if (valueType =? "choice")%string then
    cs <- encodeChildren (Children setting) ;;
    ret (match cs with
         | Some children => Some (choice_instance id value children)
         | None => None
         end)
  else if (valueType =? "collection")%string then
    match json.Unmarshal_slice ParseFloat value with
    | inl e =>
        AddError "Invalid Collection Value"
                 ("Could not parse '" ++ value ++ "' as JSON array: ")
                 (JSONError e) ;;;
        ret None
    | inr values =>
        ret (Some (collection_instance id
                     (map (fun v => {| ssv_ODataType := odata_StringValue;
                                       ssv_Value := GoString (fmt.sprintV v) |})
                          values)))
    end
  else if (valueType =? "group")%string then
    cs <- encodeChildren (Children setting) ;;
    ret (match cs with
         | Some children => Some (group_instance id children)
         | None => None
         end)
  else
    ret (Some (new_instance id)).

(** The loop of [convertToAPISettings]. *)
Fixpoint convertSettings (settings : list SettingModel)
         (apiSettings : slice SettingsCatalogPolicySetting)
  : M (slice SettingsCatalogPolicySetting) :=
  match settings with
  | [] => ret apiSettings
  | setting :: rest =>
      inst <- convertSettingInstance setting ;;
      convertSettings rest (append apiSettings (wrap_setting inst))
  end.

(** [convertToAPISettings] *)
Definition convertToAPISettings (data : SettingsCatalogPolicySettingsResourceModel)
  : M (slice SettingsCatalogPolicySetting) :=
  failed <- HasError ;;
  if failed then ret nil_slice
  else convertSettings (Elements (model_Settings data)) nil_slice.

End Encode.


(** *** Wire to declared model *)

(** [parseSimpleSettingValue] *)
Definition parseSimpleSettingValue (ssv : option SimpleSettingValue)
  : tfString * tfString :=
  match ssv with
  | None => (StringNull, StringNull)
  | Some ssv =>
      let ty := ssv_ODataType ssv in
      if (ty =? odata_StringValue)%string then
        (StringValue "string", StringValue (fmt.sprintV (ssv_Value ssv)))
      else if (ty =? odata_IntegerValue)%string then
        (StringValue "integer", StringValue (fmt.sprintV (ssv_Value ssv)))
      else if (ty =? odata_BooleanValue)%string then
        match ssv_Value ssv with
        | GoBool true => (StringValue "boolean", StringValue "true")
        | GoBool false => (StringValue "boolean", StringValue "false")
        | other => (StringValue "boolean", StringValue (fmt.sprintV other))
        end
      else
        (StringValue "string", StringValue (fmt.sprintV (ssv_Value ssv)))
  end.

(** One turn of the loop of [parseChildSettings]: the child to append, or
    [None] for a [continue]. *)
Definition parseChild (apiChild : SettingsCatalogPolicySetting)
  : M (option ChildSettingModel) :=
  match SettingInstance_ apiChild with
  | None => ret None
  | Some instance =>
      let id := StringValue (SettingDefinitionId instance) in
      match SimpleSettingValue_ instance, ChoiceSettingValue_ instance with
      | Some ssv, _ =>
          let (ty, v) := parseSimpleSettingValue (Some ssv) in
          ret (Some {| child_DefinitionID := id; child_ValueType := ty;
                       child_Value := v |})
      | None, Some csv =>
          ret (Some {| child_DefinitionID := id;
                       child_ValueType := StringValue "choice";
                       child_Value := StringValue (csv_Value csv) |})
      | None, None => ret None
      end
  end.

Fixpoint parseChildren (apiChildren : list SettingsCatalogPolicySetting)
  : M (list ChildSettingModel) :=
  match apiChildren with
  | [] => ret []
  | apiChild :: rest =>
      child <- parseChild apiChild ;;
      others <- parseChildren rest ;;
      ret (match child with
           | Some c => c :: others
           | None => others
           end)
  end.

(** [parseChildSettings] *)
Definition parseChildSettings (apiChildren : list SettingsCatalogPolicySetting)
  : M (tfList ChildSettingModel) :=
  children <- parseChildren apiChildren ;;
  match children with
  | [] => ret ListNull
  | _ :: _ => ret (ListValueFrom children)
  end.

(** The children of a decoded choice or group value. *)
Definition decodeChildren (apiChildren : list SettingsCatalogPolicySetting)
  : M (tfList ChildSettingModel) :=
  if (0 <? length apiChildren)%nat then parseChildSettings apiChildren
  else ret ListNull.

(** One turn of the loop of [convertAPISettingsToModel]. *)
Definition convertAPISetting (apiSetting : SettingsCatalogPolicySetting)
  : M (option SettingModel) :=
  match SettingInstance_ apiSetting with
  | None => ret None
  | Some instance =>
      let id := StringValue (SettingDefinitionId instance) in
      match SimpleSettingValue_ instance with
      | Some ssv =>
          let (ty, v) := parseSimpleSettingValue (Some ssv) in
          ret (Some {| DefinitionID := id; ValueType := ty; Value := v;
                       Children := ListNull |})
      | None =>
          match ChoiceSettingValue_ instance with
          | Some csv =>
              children <- decodeChildren (csv_Children csv) ;;
              ret (Some {| DefinitionID := id; ValueType := StringValue "choice";
                           Value := StringValue (csv_Value csv);
                           Children := children |})
          | None =>
              if (0 <? length (SimpleSettingCollectionValue instance))%nat then
                let values :=
                  map (fun v => fmt.sprintV (ssv_Value v))
                      (SimpleSettingCollectionValue instance) in
                ret (Some {| DefinitionID := id;
                             ValueType := StringValue "collection";
                             Value := StringValue (json.Marshal_strings values);
                             Children := ListNull |})
              else
                match GroupSettingValue_ instance with
                | Some gsv =>
                    children <- decodeChildren (gsv_Children gsv) ;;
                    ret (Some {| DefinitionID := id;
                                 ValueType := StringValue "group";
                                 Value := StringNull;
                                 Children := children |})
                | None =>
                    tflog Warn "Unknown setting type"
                          [("definition_id", GoString (SettingDefinitionId instance));
                           ("odata_type", GoString (si_ODataType instance))] ;;;
                    ret None
                end
          end
      end
  end.

Fixpoint convertAPISettings (apiSettings : list SettingsCatalogPolicySetting)
  : M (list SettingModel) :=
  match apiSettings with
  | [] => ret []
  | apiSetting :: rest =>
      setting <- convertAPISetting apiSetting ;;
      others <- convertAPISettings rest ;;
      ret (match setting with
           | Some s => s :: others
           | None => others
           end)
  end.

(** [convertAPISettingsToModel] *)
Definition convertAPISettingsToModel (apiSettings : list SettingsCatalogPolicySetting)
  : M (tfList SettingModel) :=
  settings <- convertAPISettings apiSettings ;;
  match settings with
  | [] => ret ListNull
  | _ :: _ => ret (ListValueFrom settings)
  end.

(** *** Create, Read, Update, Delete

    Each method is taken from the point where the plan or the prior state
    has been read into [data]. *)

Definition is_NotFound (err : error) : bool :=
  match err with
  | GraphError code _ => (code =? "NotFound")%string
  | _ => false
  end.

Section Lifecycle.

Variable ParseFloat : string -> option string.

(** What the Graph endpoint answers to a request of [doRequest]. *)
Variable transport : Request -> error + GraphResponse.

(** What [json.Unmarshal] stores into each field of a policy that is not
    a string, from a JSON value and what the field holds. *)
Variable decode_RoleScopeTagIds : json.value -> list string -> json.Error + list string.
Variable decode_SettingCount : json.value -> Z -> json.Error + Z.
Variable decode_Settings :
  json.value -> list SettingsCatalogPolicySetting
  -> json.Error + list SettingsCatalogPolicySetting.
Variable decode_TemplateReference :
  json.value -> option SettingsCatalogTemplateReference
  -> json.Error + option SettingsCatalogTemplateReference.

Definition doRequest (method path : string) (body : option Body)
  : M (error + GraphResponse) :=
  let req := {| Method := method; Path := path; RequestBody := body |} in
  send req ;;; ret (transport req).

Definition Get (path : string) : M (error + GraphResponse) :=
  doRequest "GET" path None.

Definition Put (path : string) (body : Body) : M (error + GraphResponse) :=
  doRequest "PUT" path (Some body).

(** [clients.GetSettingsCatalogPolicy]: the GET goes through [doRequest]
    as every request does; its response is written as JSON and read back
    into a policy, as in [GraphClient.GetSettingsCatalogPolicy]. *)
Definition GetSettingsCatalogPolicy (id : string)
  : M (error + SettingsCatalogPolicy) :=
  let path := PathSettingsCatalogPolicies ++ "('" ++ id ++ "')?$expand=settings" in
  r <- Get path ;;
  match r with
  | inl err => ret (inl (wrapError "failed to get settings catalog policy" err))
  | inr resp =>
      match GraphClient.Unmarshal_policy
              decode_RoleScopeTagIds decode_SettingCount decode_Settings
              decode_TemplateReference (GraphClient.Marshal_GraphResponse resp) with
      | inl err => ret (inl (wrapError "failed to parse policy" err))
      | inr policy =>
          ret (inr (if (p_ID policy =? "")%string
                    then GraphClient.with_string GraphClient.FID (r_ID resp) policy
                    else policy))
      end
  end.

(** [clients.UpdateSettingsCatalogPolicySettings]: [None] is a [nil]
    error. *)
Definition UpdateSettingsCatalogPolicySettings (policyId : string)
           (settings : slice SettingsCatalogPolicySetting) : M (option error) :=
  let path := PathSettingsCatalogPolicies ++ "('" ++ policyId ++ "')/settings" in
  r <- Put path (SettingsBody settings) ;;
  match r with
  | inl err =>
      ret (Some (wrapError "failed to update settings catalog policy settings" err))
  | inr _ => ret None
  end.

Definition with_ID (data : SettingsCatalogPolicySettingsResourceModel) (id : tfString)
  : SettingsCatalogPolicySettingsResourceModel :=
  {| model_ID := id; PolicyID := PolicyID data; model_Settings := model_Settings data |}.

Definition with_Settings (data : SettingsCatalogPolicySettingsResourceModel)
           (l : tfList SettingModel) : SettingsCatalogPolicySettingsResourceModel :=
  {| model_ID := model_ID data; PolicyID := PolicyID data; model_Settings := l |}.

Definition Create (data : SettingsCatalogPolicySettingsResourceModel) : M unit :=
  let policyID := ValueString (PolicyID data) in
  tflog Debug "Creating Settings Catalog policy settings"
        [("policy_id", GoString policyID)] ;;;
  apiSettings <- convertToAPISettings ParseFloat data ;;
  failed <- HasError ;;
  if failed then ret tt
  else
    err <- UpdateSettingsCatalogPolicySettings policyID apiSettings ;;
    match err with
    | Some e =>
        AddError "Error Creating Settings Catalog Policy Settings"
                 "Could not update policy settings: " e
    | None =>
        tflog Debug "Created Settings Catalog policy settings"
              [("policy_id", GoString policyID)] ;;;
        set_state (SetTo (with_ID data (PolicyID data)))
    end.

Definition Read (data : SettingsCatalogPolicySettingsResourceModel) : M unit :=
  let policyID := ValueString (PolicyID data) in
  tflog Debug "Reading Settings Catalog policy settings"
        [("policy_id", GoString policyID)] ;;;
  r <- GetSettingsCatalogPolicy policyID ;;
  match r with
  | inl err =>
      if is_NotFound err then set_state Removed
      else
        AddError "Error Reading Settings Catalog Policy Settings"
                 ("Could not read policy ID " ++ policyID ++ ": ") err
  | inr policy =>
      if (length (Settings policy) =? 0)%nat then set_state Removed
      else
        settings <- convertAPISettingsToModel (Settings policy) ;;
        failed <- HasError ;;
        if failed then ret tt
        else
          tflog Debug "Read Settings Catalog policy settings"
                [("policy_id", GoString policyID);
                 ("settings_count",
                  GoInt64 (Z.of_nat (length (Settings policy))))] ;;;
          set_state (SetTo (with_Settings data settings))
  end.

Definition Update (data : SettingsCatalogPolicySettingsResourceModel) : M unit :=
  let policyID := ValueString (PolicyID data) in
  tflog Debug "Updating Settings Catalog policy settings"
        [("policy_id", GoString policyID)] ;;;
  apiSettings <- convertToAPISettings ParseFloat data ;;
  failed <- HasError ;;
  if failed then ret tt
  else
    err <- UpdateSettingsCatalogPolicySettings policyID apiSettings ;;
    match err with
    | Some e =>
        AddError "Error Updating Settings Catalog Policy Settings"
                 "Could not update policy settings: " e
    | None => set_state (SetTo data)
    end.

Definition Delete (data : SettingsCatalogPolicySettingsResourceModel) : M unit :=
  let policyID := ValueString (PolicyID data) in
  tflog Debug "Deleting Settings Catalog policy settings"
        [("policy_id", GoString policyID)] ;;;
  err <- UpdateSettingsCatalogPolicySettings policyID (make_slice []) ;;
  match err with
  | Some e =>
      if is_NotFound e then ret tt
      else
        AddError "Error Deleting Settings Catalog Policy Settings"
                 "Could not clear policy settings: " e
  | None => ret tt
  end.

End Lifecycle.

End provider.

(** ** Vocabulary of the statements *)

Module spec.
Import clients provider.

(** A declared setting of a given value type. *)
Definition declared (ty : string) (id value : tfString)
           (children : tfList ChildSettingModel) : SettingModel :=
  {| DefinitionID := id; ValueType := StringValue ty; Value := value;
     Children := children |}.

Definition boolean_value (b : bool) : SimpleSettingValue :=
  {| ssv_ODataType := odata_BooleanValue; ssv_Value := GoBool b |}.

Definition string_value (s : string) : SimpleSettingValue :=
  {| ssv_ODataType := odata_StringValue; ssv_Value := GoString s |}.

(** The three subtype tags [parseSimpleSettingValue] knows. *)
Definition recognised_subtype (ty : string) : bool :=
  (ty =? odata_StringValue)%string || (ty =? odata_IntegerValue)%string
  || (ty =? odata_BooleanValue)%string.

(** A wire element with no instance, or whose instance fills none of the
    four value fields the decoder looks at. *)
Definition no_known_shape (e : SettingsCatalogPolicySetting) : bool :=
  match SettingInstance_ e with
  | None => true
  | Some inst =>
      match SimpleSettingValue_ inst, ChoiceSettingValue_ inst,
            SimpleSettingCollectionValue inst, GroupSettingValue_ inst with
      | None, None, [], None => true
      | _, _, _, _ => false
      end
  end.

(** A child the declared child model cannot hold: an instance with
    neither a simple value nor a choice value. *)
Definition unsupported_child (e : SettingsCatalogPolicySetting) : bool :=
  match SettingInstance_ e with
  | None => false
  | Some inst =>
      match SimpleSettingValue_ inst, ChoiceSettingValue_ inst with
      | None, None => true
      | _, _ => false
      end
  end.

Definition no_errors (env : Env) : bool := negb (existsb is_error (diagnostics env)).

(** What decoding yields for a wire list, and for one element of it: the
    decoded settings do not depend on the diagnostics and log lines
    collected so far (lemma [convertAPISettings_result]). *)
Definition decoded (l : list SettingsCatalogPolicySetting) : list SettingModel :=
  fst (convertAPISettings l empty_env).

(** The line [convertAPISettingsToModel] logs before it skips an instance
    of unknown shape. *)
Definition unknown_type_warning (inst : SettingInstance) : LogEntry :=
  {| level := Warn; message := "Unknown setting type";
     fields := [("definition_id", GoString (SettingDefinitionId inst));
                ("odata_type", GoString (si_ODataType inst))] |}.

(** The path of the policy object itself (what
    [DeleteSettingsCatalogPolicy] would address). *)
Definition policy_path (id : string) : string :=
  PathSettingsCatalogPolicies ++ "('" ++ id ++ "')".

(** *** Example inputs *)

Definition unrecognised_subtype_example : list SettingsCatalogPolicySetting :=
  [wrap_setting (Some (simple_instance "a" odata_IntegerValue (GoFloat64 "42")));
   wrap_setting (Some (simple_instance "b" "#microsoft.graph.somethingNew"
                                       (GoBool true)));
   wrap_setting (Some (choice_instance "c" "c_1" []))].

(** An instance that carries only a [groupSettingCollectionValue]. *)
Definition group_collection_instance (id : string) : SettingInstance :=
  {| si_ODataType :=
       "#microsoft.graph.deviceManagementConfigurationGroupSettingCollectionInstance";
     SettingDefinitionId := id;
     SettingInstanceTemplateRef_ := None;
     SimpleSettingValue_ := None; ChoiceSettingValue_ := None;
     SimpleSettingCollectionValue := []; GroupSettingValue_ := None;
     GroupSettingCollectionValue :=
       [{| gsv_ODataType := odata_GroupValue; gsv_Children := [] |}] |}.

(** A group whose first child is itself a group and whose second child is
    a boolean. *)
Definition nested_group_example : SettingsCatalogPolicySetting :=
  wrap_setting
    (Some (group_instance "outer"
             [wrap_setting (Some (group_instance "inner" []));
              wrap_setting (Some (simple_instance "flag" odata_BooleanValue
                                                  (GoBool true)))])).

(** *** Encoding failures *)

(** The diagnostic the encoder adds for a top-level setting whose value
    it cannot parse, an integer that [strconv.ParseInt] rejects or a
    collection that [json.Unmarshal] rejects; [None] for every other
    setting. *)
Definition parse_failure (ParseFloat : string -> option string) (s : SettingModel)
  : option Diagnostic :=
  let value := ValueString (Value s) in
  if (ValueString (ValueType s) =? "integer")%string then
    match strconv.ParseInt value with
    | inl e =>
        Some {| severity := SeverityError; summary := "Invalid Integer Value";
                detail := "Could not parse '" ++ value ++ "' as integer: ";
                cause := NumError "ParseInt" value e |}
    | inr _ => None
    end
  else if (ValueString (ValueType s) =? "collection")%string then
    match json.Unmarshal_slice ParseFloat value with
    | inl e =>
        Some {| severity := SeverityError; summary := "Invalid Collection Value";
                detail := "Could not parse '" ++ value ++ "' as JSON array: ";
                cause := JSONError e |}
    | inr _ => None
    end
  else None.

(** Position and definition id of every setting of a list whose value
    does not parse. *)
Fixpoint offenders_from (ParseFloat : string -> option string) (pos : nat)
         (l : list SettingModel) : list (nat * string) :=
  match l with
  | [] => []
  | s :: rest =>
      match parse_failure ParseFloat s with
      | Some _ => (pos, ValueString (DefinitionID s)) :: offenders_from ParseFloat (S pos) rest
      | None => offenders_from ParseFloat (S pos) rest
      end
  end.

Definition offenders (ParseFloat : string -> option string)
           (data : SettingsCatalogPolicySettingsResourceModel) : list (nat * string) :=
  offenders_from ParseFloat 0 (Elements (model_Settings data)).

(** [env'] is [env] with error diagnostics added and nothing else
    changed. *)
Definition adds_errors_only (env env' : Env) : Prop :=
  exists extra,
    diagnostics env' = (diagnostics env ++ extra)%list
    /\ forallb is_error extra = true
    /\ logs env' = logs env
    /\ requests env' = requests env
    /\ state env' = state env.

(** A [ParseFloat] for texts without numbers: every literal is reported
    out of range. *)
Definition no_numbers : string -> option string := fun _ => None.

Definition accepting : Request -> error + GraphResponse :=
  fun _ => inr {| r_ODataContext := ""; r_ODataType := ""; r_ODataNextLink := "";
                  r_Value := ""; r_ID := "" |}.

Definition plan_of (settings : list SettingModel)
  : SettingsCatalogPolicySettingsResourceModel :=
  {| model_ID := StringNull; PolicyID := StringValue "p1";
     model_Settings := ListValue settings |}.

(** Two plans with the same bad integer value under different definition
    ids and at different positions. *)
Definition bad_integer_first :=
  plan_of [declared "integer" (StringValue "max_age") (StringValue "abc") (ListValue [])].

Definition bad_integer_second :=
  plan_of [declared "string" (StringValue "banner") (StringValue "hello") (ListValue []);
           declared "integer" (StringValue "min_length") (StringValue "abc") (ListValue [])].

(** *** Round trips *)

(** Encode one declared setting, wrap the instance as
    [convertToAPISettings] does, decode the one-element wire list. *)
Definition roundtrip (ParseFloat : string -> option string) (s : SettingModel)
  : tfList SettingModel :=
  let (inst, env) := convertSettingInstance ParseFloat s empty_env in
  fst (convertAPISettingsToModel [wrap_setting inst] env).

(** "Valid for its kind", read off the value coercion rules: an integer
    value parses as a base-10 int64, a boolean value is ["true"] or
    ["false"], a collection value is accepted by [json.Unmarshal]; any
    value is a valid string or choice. *)
Definition valid_for_kind (ParseFloat : string -> option string) (s : SettingModel)
  : bool :=
  let ty := ValueString (ValueType s) in
  let value := ValueString (Value s) in
  if (ty =? "integer")%string then
    match strconv.ParseInt value with inr _ => true | inl _ => false end
  else if (ty =? "boolean")%string then
    ((value =? "true") || (value =? "false"))%string
  else if (ty =? "collection")%string then
    match json.Unmarshal_slice ParseFloat value with inr _ => true | inl _ => false end
  else true.

(** Declared settings in the form the decoder produces: integers in
    canonical decimal, booleans as ["true"] or ["false"], collections as
    the compact JSON array of their strings, a null value for groups, a
    null children list where there are no children. *)
Inductive CanonicalChild : Type :=
| ChildString (v : string)
| ChildInteger (z : Z)
| ChildBoolean (b : bool)
| ChildChoice (v : string).

Inductive Canonical : Type :=
| CString (v : string)
| CInteger (z : Z)
| CBoolean (b : bool)
| CChoice (v : string) (children : list (string * CanonicalChild))
| CCollection (l : list string)
| CGroup (children : list (string * CanonicalChild)).

Definition bool_text (b : bool) : string := if b then "true" else "false".

Definition declare_child (c : string * CanonicalChild) : ChildSettingModel :=
  let (id, v) := c in
  match v with
  | ChildString s =>
      {| child_DefinitionID := StringValue id; child_ValueType := StringValue "string";
         child_Value := StringValue s |}
  | ChildInteger z =>
      {| child_DefinitionID := StringValue id; child_ValueType := StringValue "integer";
         child_Value := StringValue (strconv.FormatInt z) |}
  | ChildBoolean b =>
      {| child_DefinitionID := StringValue id; child_ValueType := StringValue "boolean";
         child_Value := StringValue (bool_text b) |}
  | ChildChoice s =>
      {| child_DefinitionID := StringValue id; child_ValueType := StringValue "choice";
         child_Value := StringValue s |}
  end.

Definition declare_children (cs : list (string * CanonicalChild))
  : tfList ChildSettingModel :=
  match cs with
  | [] => ListNull
  | _ :: _ => ListValue (map declare_child cs)
  end.

Definition declare (id : string) (c : Canonical) : SettingModel :=
  match c with
  | CString v => declared "string" (StringValue id) (StringValue v) ListNull
  | CInteger z =>
      declared "integer" (StringValue id) (StringValue (strconv.FormatInt z)) ListNull
  | CBoolean b => declared "boolean" (StringValue id) (StringValue (bool_text b)) ListNull
  | CChoice v cs => declared "choice" (StringValue id) (StringValue v) (declare_children cs)
  | CCollection l =>
      declared "collection" (StringValue id) (StringValue (json.array_of_strings l))
               ListNull
  | CGroup cs => declared "group" (StringValue id) StringNull (declare_children cs)
  end.

Definition child_in_range (c : string * CanonicalChild) : bool :=
  match snd c with
  | ChildInteger z => strconv.int64_range z
  | _ => true
  end.

(** Integers are int64 values; a collection is a non-empty list of
    well-formed UTF-8 strings. *)
Definition in_range_of_kind (c : Canonical) : bool :=
  match c with
  | CInteger z => strconv.int64_range z
  | CChoice _ cs => forallb child_in_range cs
  | CCollection l =>
      match l with
      | [] => false
      | _ :: _ => forallb json.ValidString l
      end
  | CGroup cs => forallb child_in_range cs
  | _ => true
  end.

(** The wire form of a canonical child. *)
Definition wire_child (c : string * CanonicalChild) : SettingsCatalogPolicySetting :=
  let (id, v) := c in
  wrap_setting
    (Some match v with
          | ChildString s => simple_instance id odata_StringValue (GoString s)
          | ChildInteger z => simple_instance id odata_IntegerValue (GoInt64 z)
          | ChildBoolean b => simple_instance id odata_BooleanValue (GoBool b)
          | ChildChoice s => choice_instance id s []
          end).

(** The wire form of a canonical setting. *)
Definition wire (id : string) (c : Canonical) : SettingInstance :=
  match c with
  | CString v => simple_instance id odata_StringValue (GoString v)
  | CInteger z => simple_instance id odata_IntegerValue (GoInt64 z)
  | CBoolean b => simple_instance id odata_BooleanValue (GoBool b)
  | CChoice v cs => choice_instance id v (map wire_child cs)
  | CCollection l => collection_instance id (map string_value l)
  | CGroup cs => group_instance id (map wire_child cs)
  end.

Definition leading_zeros : SettingModel :=
  declared "integer" (StringValue "device_lock_timeout") (StringValue "007") ListNull.

Definition empty_collection : SettingModel :=
  declared "collection" (StringValue "allowed_apps")
           (StringValue (json.array_of_strings [])) ListNull.

(** A one-byte string that is not UTF-8. *)
Definition stray_byte : string := String (byte_of 0xFF) "".

(** *** The schema and the shape of what the codec produces *)

(** [stringvalidator.OneOf] *)
Definition OneOf (allowed : list string) (v : string) : bool :=
  existsb (String.eqb v) allowed.

(** The value types the schema allows for a setting and for a child. *)
Definition setting_value_types : list string :=
  ["string"; "integer"; "boolean"; "choice"; "collection"; "group"].

Definition child_value_types : list string :=
  ["string"; "integer"; "boolean"; "choice"].





Definition known (v : tfString) : bool :=
  match v with
  | StringNull => false
  | StringValue _ => true
  end.

(** A decoded child: known fields and a value type the schema allows. *)
Definition decoded_child_ok (c : ChildSettingModel) : bool :=
  known (child_DefinitionID c) && known (child_ValueType c) && known (child_Value c)
  && OneOf child_value_types (ValueString (child_ValueType c)).

(** A decoded setting: a known definition id; a value type the schema
    allows; a value that is null exactly for groups; children that are null
    or, for choices and groups only, a non-empty list of decoded
    children. *)
Definition decoded_setting_ok (s : SettingModel) : bool :=
  let ty := ValueString (ValueType s) in
  known (DefinitionID s) && known (ValueType s)
  && OneOf setting_value_types ty
  && Bool.eqb (known (Value s)) (negb (ty =? "group")%string)
  && match Children s with
     | ListNull => true
     | ListValue [] => false
     | ListValue cs =>
         ((ty =? "choice") || (ty =? "group"))%string && forallb decoded_child_ok cs
     end.

(** The log lines of a decode: one warning for each instance of unknown
    shape, in order. *)
Definition decode_warnings (l : list SettingsCatalogPolicySetting) : list LogEntry :=
  flat_map (fun e =>
              match SettingInstance_ e with
              | Some inst => if no_known_shape e then [unknown_type_warning inst] else []
              | None => []
              end) l.

Definition with_logs (env : Env) (extra : list LogEntry) : Env :=
  {| diagnostics := diagnostics env; logs := (logs env ++ extra)%list;
     requests := requests env; state := state env |}.

(** A plan in canonical form and its wire list. *)
Definition declare_all (plan : list (string * Canonical)) : list SettingModel :=
  map (fun p => declare (fst p) (snd p)) plan.

Definition wire_all (plan : list (string * Canonical))
  : list SettingsCatalogPolicySetting :=
  map (fun p => wrap_setting (Some (wire (fst p) (snd p)))) plan.

Definition canonical_plan (policy : string) (plan : list (string * Canonical))
  : SettingsCatalogPolicySettingsResourceModel :=
  {| model_ID := StringNull; PolicyID := StringValue policy;
     model_Settings := ListValue (declare_all plan) |}.

(** The request [UpdateSettingsCatalogPolicySettings] sends. *)
Definition settings_put (policy : string) (settings : slice SettingsCatalogPolicySetting)
  : Request :=
  {| Method := "PUT";
     Path := PathSettingsCatalogPolicies ++ "('" ++ policy ++ "')/settings";
     RequestBody := Some (SettingsBody settings) |}.

(** The diagnostic of a failed write. *)
Definition write_failure (summary : string) (err : error) : Diagnostic :=
  {| severity := SeverityError; summary := summary;
     detail := "Could not update policy settings: ";
     cause := wrapError "failed to update settings catalog policy settings" err |}.

Definition sample_plan : list (string * Canonical) :=
  [("banner", CString "hello"); ("max_age", CInteger 90);
   ("firewall", CChoice "firewall_1" [("stealth", ChildBoolean true)]);
   ("allowed_apps", CCollection ["a"; "b"])].

(** [append]ing a list of elements one by one. *)
Definition append_all {A} (s : slice A) (l : list A) : slice A :=
  fold_left append l s.

(** An endpoint that answers every request with the same error. *)
Definition rejecting (e : error) : Request -> error + GraphResponse := fun _ => inl e.

Definition not_found : error :=
  GraphError "NotFound" "The policy does not exist.".

(** The diagnostic [Delete] adds when the write fails. *)
Definition delete_failure (err : error) : Diagnostic :=
  {| severity := SeverityError;
     summary := "Error Deleting Settings Catalog Policy Settings";
     detail := "Could not clear policy settings: ";
     cause := wrapError "failed to update settings catalog policy settings" err |}.

Definition plan_in_range (plan : list (string * Canonical)) : bool :=
  forallb (fun p => in_range_of_kind (snd p)) plan.

(** The GET of a policy with its settings. *)
Definition expanded_get (policy : string) : Request :=
  {| Method := "GET";
     Path := PathSettingsCatalogPolicies ++ "('" ++ policy ++ "')?$expand=settings";
     RequestBody := None |}.

(** The diagnostic [Read] adds when the client returns an error. *)
Definition read_failure (policy : string) (err : error) : Diagnostic :=
  {| severity := SeverityError;
     summary := "Error Reading Settings Catalog Policy Settings";
     detail := "Could not read policy ID " ++ policy ++ ": ";
     cause := err |}.

(** The value types other than the collection. *)
Definition plain_value_types : list string :=
  ["string"; "integer"; "boolean"; "choice"; "group"].

(** Every child has one of the value types the schema allows for a
    child. *)
Definition children_validated (children : list ChildSettingModel) : bool :=
  forallb (fun c => OneOf child_value_types (ValueString (child_ValueType c))) children.

(** A setting whose integer does not follow the canonical form, with a
    child whose boolean does not either. *)
Definition padded_choice : SettingModel :=
  declared "choice" (StringValue "firewall") (StringValue "firewall_1")
    (ListValue [{| child_DefinitionID := StringValue "max_age";
                   child_ValueType := StringValue "integer";
                   child_Value := StringValue "+007" |};
                {| child_DefinitionID := StringValue "stealth";
                   child_ValueType := StringValue "boolean";
                   child_Value := StringValue "yes" |}]).

Definition padded_choice_wire : SettingInstance :=
  choice_instance "firewall" "firewall_1"
    [wrap_setting (Some (simple_instance "max_age" odata_IntegerValue (GoInt64 7)));
     wrap_setting (Some (simple_instance "stealth" odata_BooleanValue (GoBool false)))].


(** The instances of a list of settings, each encoded after the ones
    before it, with the diagnostics they left. *)
Fixpoint encode_each (ParseFloat : string -> option string) (settings : list SettingModel)
         (env : Env) : list (option SettingInstance) :=
  match settings with
  | [] => []
  | s :: rest =>
      let (inst, env') := convertSettingInstance ParseFloat s env in
      inst :: encode_each ParseFloat rest env'
  end.

(** The slice that [append] builds from a [nil] variable. *)
Definition slice_of {A} (l : list A) : slice A :=
  match l with
  | [] => nil_slice
  | _ :: _ => make_slice l
  end.

(** The line [Read] logs on entry. *)
Definition reading_line (policy : string) : LogEntry :=
  {| level := Debug; message := "Reading Settings Catalog policy settings";
     fields := [("policy_id", GoString policy)] |}.

(** What [Read] leaves behind when the client answers [answer]. *)
Definition after_Read (env : Env) (policy : string)
           (answer : error + SettingsCatalogPolicy) : Env :=
  {| diagnostics :=
       match answer with
       | inl e => (diagnostics env ++ [read_failure policy e])%list
       | inr _ => diagnostics env
       end;
     logs := (logs env ++ [reading_line policy])%list;
     requests := (requests env ++ [expanded_get policy])%list;
     state := match answer with
              | inl _ => state env
              | inr _ => Removed
              end |}.

End spec.

(** ** Import *)

Module SettingsCatalogPolicySettingsResource.
Import clients provider.

(** The state after the two [SetAttribute] calls on the empty state of
    the response: the settings stay null. *)
Definition imported (id : string) : SettingsCatalogPolicySettingsResourceModel :=
  {| model_ID := StringValue id; PolicyID := StringValue id;
     model_Settings := ListNull |}.

(** [ImportState] *)
Definition ImportState (id : string) : M unit := set_state (SetTo (imported id)).

End SettingsCatalogPolicySettingsResource.

(** ** Proofs *)

Import clients provider spec.

Ltac run := unfold bind, ret, AddError, HasError, tflog, send, set_state; simpl.

(** *** Strings *)

Lemma append_assoc : forall a b c : string, ((a ++ b) ++ c = a ++ (b ++ c))%string.
Proof.
  induction a as [|x a IH]; intros b c; simpl; [reflexivity|now rewrite IH].
Qed.

Lemma append_cons : forall c (a b : string),
    (String c a ++ b = String c (a ++ b))%string.
Proof. reflexivity. Qed.

Lemma append_nil_r : forall a : string, (a ++ "" = a)%string.
Proof.
  induction a as [|x a IH]; simpl; [reflexivity|now rewrite IH].
Qed.

Lemma append_length : forall a b : string,
    String.length (a ++ b) = (String.length a + String.length b)%nat.
Proof.
  induction a as [|x a IH]; intros b; simpl; [reflexivity|now rewrite IH].
Qed.

(** *** Boolean coercion *)

(** C3: encoding a boolean setting yields wire [true] exactly for the
    value ["true"] and wire [false] for every other value, the null value
    and ["yes"] included, and adds no diagnostic; decoding a wire boolean
    yields ["true"] for [true] and ["false"] for [false]. *)
Theorem boolean_coercion :
  forall (ParseFloat : string -> option string) id value children env,
    convertSettingInstance ParseFloat (declared "boolean" id value children) env
    = (Some (simple_instance (ValueString id) odata_BooleanValue
                             (GoBool (ValueString value =? "true")%string)), env)
    /\ ((ValueString value =? "true")%string = true <-> value = StringValue "true")
    /\ (ValueString (StringValue "yes") =? "true")%string = false
    /\ (ValueString StringNull =? "true")%string = false
    /\ (forall b,
          parseSimpleSettingValue (Some (boolean_value b))
          = (StringValue "boolean", StringValue (if b then "true" else "false"))).
Proof.
  intros pf id value children env.
  split; [reflexivity|].
  split.
  - split.
    + intro H. apply String.eqb_eq in H. destruct value; simpl in H.
      * discriminate.
      * now subst.
    + intros ->. reflexivity.
  - repeat split; try reflexivity.
    intros []; reflexivity.
Qed.

(** *** Decoding: general facts *)

Lemma parseChild_env : forall c env, snd (parseChild c env) = env.
Proof.
  intros c env. unfold parseChild.
  destruct (SettingInstance_ c) as [inst|]; [|reflexivity].
  destruct (SimpleSettingValue_ inst) as [ssv|].
  - destruct (parseSimpleSettingValue (Some ssv)); reflexivity.
  - destruct (ChoiceSettingValue_ inst); reflexivity.
Qed.

Lemma parseChild_result : forall c env env',
    fst (parseChild c env) = fst (parseChild c env').
Proof.
  intros c env env'. unfold parseChild.
  destruct (SettingInstance_ c) as [inst|]; [|reflexivity].
  destruct (SimpleSettingValue_ inst) as [ssv|].
  - destruct (parseSimpleSettingValue (Some ssv)); reflexivity.
  - destruct (ChoiceSettingValue_ inst); reflexivity.
Qed.

Lemma parseChildren_env : forall l env, snd (parseChildren l env) = env.
Proof.
  induction l as [|c l IH]; intros env; [reflexivity|].
  simpl. unfold bind.
  pose proof (parseChild_env c env) as Hc.
  destruct (parseChild c env) as [r e1]. simpl in Hc. subst e1.
  specialize (IH env). destruct (parseChildren l env) as [rs e2].
  simpl in IH. subst e2. reflexivity.
Qed.

Lemma parseChildren_result : forall l env env',
    fst (parseChildren l env) = fst (parseChildren l env').
Proof.
  induction l as [|c l IH]; intros env env'; [reflexivity|].
  simpl. unfold bind.
  pose proof (parseChild_env c env) as Hc.
  pose proof (parseChild_env c env') as Hc'.
  pose proof (parseChild_result c env env') as Hr.
  destruct (parseChild c env) as [r e1], (parseChild c env') as [r' e1'].
  simpl in *. subst.
  specialize (IH env env').
  destruct (parseChildren l env) as [rs e2], (parseChildren l env') as [rs' e2'].
  simpl in *. subst. reflexivity.
Qed.

Lemma parseChildSettings_env : forall l env, snd (parseChildSettings l env) = env.
Proof.
  intros l env. unfold parseChildSettings, bind.
  pose proof (parseChildren_env l env) as H.
  destruct (parseChildren l env) as [[|c cs] e]; simpl in *; now subst.
Qed.

Lemma parseChildSettings_result : forall l env env',
    fst (parseChildSettings l env) = fst (parseChildSettings l env').
Proof.
  intros l env env'. unfold parseChildSettings, bind.
  pose proof (parseChildren_result l env env') as H.
  destruct (parseChildren l env) as [cs e], (parseChildren l env') as [cs' e'].
  simpl in H. subst cs'. destruct cs; reflexivity.
Qed.

Lemma decodeChildren_env : forall l env, snd (decodeChildren l env) = env.
Proof.
  intros l env. unfold decodeChildren.
  destruct (0 <? length l)%nat; [apply parseChildSettings_env|reflexivity].
Qed.

Lemma decodeChildren_result : forall l env env',
    fst (decodeChildren l env) = fst (decodeChildren l env').
Proof.
  intros l env env'. unfold decodeChildren.
  destruct (0 <? length l)%nat; [apply parseChildSettings_result|reflexivity].
Qed.

(** Decoding one element adds no diagnostic, sends nothing and leaves the
    state alone; at most it logs. *)
Lemma convertAPISetting_frame : forall e env,
    let env' := snd (convertAPISetting e env) in
    diagnostics env' = diagnostics env
    /\ requests env' = requests env
    /\ state env' = state env.
Proof.
  intros e env. unfold convertAPISetting.
  destruct (SettingInstance_ e) as [inst|]; [|now simpl].
  destruct (SimpleSettingValue_ inst) as [ssv|].
  { destruct (parseSimpleSettingValue (Some ssv)). now simpl. }
  destruct (ChoiceSettingValue_ inst) as [csv|].
  { unfold bind. pose proof (decodeChildren_env (csv_Children csv) env) as H.
    destruct (decodeChildren (csv_Children csv) env) as [ch e1].
    simpl in *. now subst. }
  destruct (0 <? length (SimpleSettingCollectionValue inst))%nat; [now simpl|].
  destruct (GroupSettingValue_ inst) as [gsv|].
  { unfold bind. pose proof (decodeChildren_env (gsv_Children gsv) env) as H.
    destruct (decodeChildren (gsv_Children gsv) env) as [ch e1].
    simpl in *. now subst. }
  now simpl.
Qed.

Lemma convertAPISetting_result : forall e env env',
    fst (convertAPISetting e env) = fst (convertAPISetting e env').
Proof.
  intros e env env'. unfold convertAPISetting.
  destruct (SettingInstance_ e) as [inst|]; [|reflexivity].
  destruct (SimpleSettingValue_ inst) as [ssv|].
  { destruct (parseSimpleSettingValue (Some ssv)). reflexivity. }
  destruct (ChoiceSettingValue_ inst) as [csv|].
  { unfold bind.
    pose proof (decodeChildren_result (csv_Children csv) env env') as H.
    destruct (decodeChildren (csv_Children csv) env) as [ch e1],
             (decodeChildren (csv_Children csv) env') as [ch' e1'].
    simpl in *. now subst. }
  destruct (0 <? length (SimpleSettingCollectionValue inst))%nat; [reflexivity|].
  destruct (GroupSettingValue_ inst) as [gsv|].
  { unfold bind.
    pose proof (decodeChildren_result (gsv_Children gsv) env env') as H.
    destruct (decodeChildren (gsv_Children gsv) env) as [ch e1],
             (decodeChildren (gsv_Children gsv) env') as [ch' e1'].
    simpl in *. now subst. }
  reflexivity.
Qed.

Lemma convertAPISettings_cons : forall e l env,
    convertAPISettings (e :: l) env
    = (match fst (convertAPISetting e env) with
       | Some s => s :: fst (convertAPISettings l (snd (convertAPISetting e env)))
       | None => fst (convertAPISettings l (snd (convertAPISetting e env)))
       end,
       snd (convertAPISettings l (snd (convertAPISetting e env)))).
Proof.
  intros e l env. simpl. unfold bind.
  destruct (convertAPISetting e env) as [r e1]. simpl.
  destruct (convertAPISettings l e1) as [rs e2]. reflexivity.
Qed.

Lemma convertAPISettings_frame : forall l env,
    let env' := snd (convertAPISettings l env) in
    diagnostics env' = diagnostics env
    /\ requests env' = requests env
    /\ state env' = state env.
Proof.
  induction l as [|e l IH]; intros env; [now simpl|].
  rewrite convertAPISettings_cons. simpl.
  destruct (IH (snd (convertAPISetting e env))) as (Hd & Hr & Hs).
  destruct (convertAPISetting_frame e env) as (Hd' & Hr' & Hs').
  simpl in *. repeat split; congruence.
Qed.

Lemma convertAPISettings_result : forall l env,
    fst (convertAPISettings l env) = decoded l.
Proof.
  unfold decoded.
  induction l as [|e l IH]; intros env; [reflexivity|].
  rewrite !convertAPISettings_cons. simpl.
  rewrite (convertAPISetting_result e env empty_env).
  rewrite (IH (snd (convertAPISetting e env))).
  rewrite (IH (snd (convertAPISetting e empty_env))).
  reflexivity.
Qed.

Lemma decoded_cons : forall e l,
    decoded (e :: l)
    = match fst (convertAPISetting e empty_env) with
      | Some s => s :: decoded l
      | None => decoded l
      end.
Proof.
  intros e l. unfold decoded at 1. rewrite convertAPISettings_cons. simpl.
  rewrite !convertAPISettings_result. reflexivity.
Qed.

Lemma decoded_app : forall l1 l2, decoded (l1 ++ l2) = (decoded l1 ++ decoded l2)%list.
Proof.
  induction l1 as [|e l1 IH]; intros l2; [reflexivity|].
  simpl. rewrite !decoded_cons, IH.
  destruct (fst (convertAPISetting e empty_env)); reflexivity.
Qed.

Lemma decoded_length : forall l, (length (decoded l) <= length l)%nat.
Proof.
  induction l as [|e l IH]; [now simpl|].
  rewrite decoded_cons.
  destruct (fst (convertAPISetting e empty_env)); simpl; lia.
Qed.

Lemma convertAPISettings_app_env : forall l1 l2 env,
    snd (convertAPISettings (l1 ++ l2) env)
    = snd (convertAPISettings l2 (snd (convertAPISettings l1 env))).
Proof.
  induction l1 as [|e l1 IH]; intros l2 env; [reflexivity|].
  simpl app. rewrite !convertAPISettings_cons. simpl. apply IH.
Qed.

Lemma convertAPISettingsToModel_eq : forall l env,
    convertAPISettingsToModel l env
    = (match decoded l with [] => ListNull | _ :: _ => ListValue (decoded l) end,
       snd (convertAPISettings l env)).
Proof.
  intros l env. unfold convertAPISettingsToModel, bind.
  rewrite <- (convertAPISettings_result l env).
  destruct (convertAPISettings l env) as [[|s ss] e]; reflexivity.
Qed.

(** *** Unrecognised simple-value subtypes *)

(** C5: in any wire list, a node whose simple setting value carries a
    subtype tag other than the three known ones decodes to a declared
    setting of value type ["string"] whose value is the [%v] text of the
    wire value; the nodes before and after it decode as they do on their
    own, and no diagnostic is added. *)
Theorem unrecognised_subtype_decodes_as_string :
  forall pre node post inst ssv env,
    SettingInstance_ node = Some inst ->
    SimpleSettingValue_ inst = Some ssv ->
    recognised_subtype (ssv_ODataType ssv) = false ->
    let fallback :=
      {| DefinitionID := StringValue (SettingDefinitionId inst);
         ValueType := StringValue "string";
         Value := StringValue (fmt.sprintV (ssv_Value ssv));
         Children := ListNull |} in
    convertAPISetting node env = (Some fallback, env)
    /\ fst (convertAPISettingsToModel (pre ++ node :: post) env)
       = ListValue (decoded pre ++ fallback :: decoded post)%list
    /\ diagnostics (snd (convertAPISettingsToModel (pre ++ node :: post) env))
       = diagnostics env
    /\ snd (convertAPISettingsToModel (pre ++ node :: post) env)
       = snd (convertAPISettingsToModel (pre ++ post) env).
Proof.
  intros pre node post inst ssv env Hinst Hssv Hty fallback.
  assert (Hone : forall env0, convertAPISetting node env0 = (Some fallback, env0)).
  { intros env0. unfold convertAPISetting. rewrite Hinst, Hssv.
    unfold parseSimpleSettingValue, recognised_subtype in *.
    apply orb_false_iff in Hty. destruct Hty as [Hty Hb].
    apply orb_false_iff in Hty. destruct Hty as [Hs Hi].
    rewrite Hs, Hi, Hb. reflexivity. }
  split; [apply Hone|].
  rewrite !convertAPISettingsToModel_eq. simpl fst. simpl snd.
  rewrite decoded_app, decoded_cons, Hone. simpl fst.
  repeat split.
  - destruct (decoded pre); reflexivity.
  - apply convertAPISettings_frame.
  - rewrite !convertAPISettings_app_env, convertAPISettings_cons, Hone.
    reflexivity.
Qed.

Lemma unrecognised_subtype_decodes_as_string_witness :
  fst (convertAPISettingsToModel unrecognised_subtype_example empty_env)
  = ListValue
      [ declared "integer" (StringValue "a") (StringValue "42") ListNull;
        declared "string" (StringValue "b") (StringValue "true") ListNull;
        declared "choice" (StringValue "c") (StringValue "c_1") ListNull ].
Proof.
  exact (proj1 (proj2
    (unrecognised_subtype_decodes_as_string
       [wrap_setting (Some (simple_instance "a" odata_IntegerValue (GoFloat64 "42")))]
       (wrap_setting (Some (simple_instance "b" "#microsoft.graph.somethingNew"
                                            (GoBool true))))
       [wrap_setting (Some (choice_instance "c" "c_1" []))]
       _ _ empty_env eq_refl eq_refl eq_refl))).
Defined.

(** *** Elements of unknown shape *)

(** C9: a top-level wire element with no instance, or whose instance fills
    none of the four value fields the decoder looks at, yields no declared
    setting: the decoded list is that of the other elements and is strictly
    shorter than the wire list; no diagnostic is added, and nothing but the
    warning ["Unknown setting type"] is logged for it (that warning when
    the instance is present, no line when it is nil); in particular no
    ["string"] setting is made up for it. *)
Theorem unknown_shapes_are_skipped :
  forall pre e post env,
    no_known_shape e = true ->
    convertAPISetting e env
    = (None,
       match SettingInstance_ e with
       | None => env
       | Some inst =>
           {| diagnostics := diagnostics env;
              logs := (logs env ++ [unknown_type_warning inst])%list;
              requests := requests env; state := state env |}
       end)
    /\ fst (convertAPISettingsToModel (pre ++ e :: post) env)
       = fst (convertAPISettingsToModel (pre ++ post) env)
    /\ Elements (fst (convertAPISettingsToModel (pre ++ e :: post) env))
       = (decoded pre ++ decoded post)%list
    /\ diagnostics (snd (convertAPISettingsToModel (pre ++ e :: post) env))
       = diagnostics env
    /\ (length (Elements (fst (convertAPISettingsToModel (pre ++ e :: post) env)))
        < length (pre ++ e :: post))%nat.
Proof.
  intros pre e post env Hshape.
  assert (Hone : forall env0, fst (convertAPISetting e env0) = None).
  { intros env0. unfold no_known_shape in Hshape. unfold convertAPISetting.
    destruct (SettingInstance_ e) as [inst|]; [|reflexivity].
    destruct (SimpleSettingValue_ inst); [discriminate|].
    destruct (ChoiceSettingValue_ inst); [discriminate|].
    destruct (SimpleSettingCollectionValue inst); [|discriminate].
    destruct (GroupSettingValue_ inst); [discriminate|]. reflexivity. }
  split.
  { unfold no_known_shape in Hshape. unfold convertAPISetting.
    destruct (SettingInstance_ e) as [inst|]; [|reflexivity].
    destruct (SimpleSettingValue_ inst); [discriminate|].
    destruct (ChoiceSettingValue_ inst); [discriminate|].
    destruct (SimpleSettingCollectionValue inst); [|discriminate].
    destruct (GroupSettingValue_ inst); [discriminate|]. reflexivity. }
  rewrite !convertAPISettingsToModel_eq. simpl fst. simpl snd.
  rewrite !decoded_app, decoded_cons, Hone.
  assert (Hel : forall l : list SettingModel,
             Elements (match l with [] => ListNull | _ :: _ => ListValue l end) = l)
    by (intros []; reflexivity).
  rewrite Hel.
  repeat split.
  - apply convertAPISettings_frame.
  - rewrite <- decoded_app.
    pose proof (decoded_length (pre ++ post)) as Hlen.
    rewrite !length_app in *. simpl. lia.
Qed.

Lemma unknown_shapes_are_skipped_witness :
  fst (convertAPISettingsToModel
         ([wrap_setting (Some (simple_instance "a" odata_StringValue (GoString "x")))]
            ++ wrap_setting (Some (group_collection_instance "g"))
            :: [wrap_setting None]) empty_env)
  = fst (convertAPISettingsToModel
           ([wrap_setting (Some (simple_instance "a" odata_StringValue (GoString "x")))]
              ++ [wrap_setting None]) empty_env).
Proof.
  exact (proj1 (proj2
    (unknown_shapes_are_skipped
       [wrap_setting (Some (simple_instance "a" odata_StringValue (GoString "x")))]
       (wrap_setting (Some (group_collection_instance "g")))
       [wrap_setting None] empty_env eq_refl))).
Defined.

(** *** Children the declared model cannot hold *)

Lemma parseChildren_skip : forall pre c post env,
    fst (parseChild c empty_env) = None ->
    parseChildren (pre ++ c :: post) env = parseChildren (pre ++ post) env.
Proof.
  induction pre as [|p pre IH]; intros c post env Hc.
  - simpl. unfold bind.
    pose proof (parseChild_env c env) as He.
    pose proof (parseChild_result c env empty_env) as Hr.
    destruct (parseChild c env) as [r e1]. simpl in *. subst e1.
    rewrite Hr, Hc. destruct (parseChildren post env); reflexivity.
  - simpl. unfold bind. destruct (parseChild p env) as [r e1].
    now rewrite IH.
Qed.

Lemma decodeChildren_parse : forall l env,
    decodeChildren l env = parseChildSettings l env.
Proof.
  intros [|c l] env; reflexivity.
Qed.

(** C2 (what the code does): when a group or choice node is decoded, a
    child whose instance carries neither a simple value nor a choice value,
    a nested group for instance, is left out of the decoded children and
    the other children are decoded as if it were not there; but nothing is
    emitted for it: the diagnostics, the log and the rest of the
    environment are exactly what they were. *)
Theorem unsupported_child_dropped_without_diagnostic :
  forall pre child post env,
    unsupported_child child = true ->
    parseChild child env = (None, env)
    /\ parseChildSettings (pre ++ child :: post) env
       = parseChildSettings (pre ++ post) env
    /\ snd (parseChildSettings (pre ++ child :: post) env) = env
    /\ (forall id,
          convertAPISetting
            (wrap_setting (Some (group_instance id (pre ++ child :: post)))) env
          = (Some (declared "group" (StringValue id) StringNull
                            (fst (parseChildSettings (pre ++ post) env))), env))
    /\ (forall id value,
          convertAPISetting
            (wrap_setting (Some (choice_instance id value (pre ++ child :: post)))) env
          = (Some (declared "choice" (StringValue id) (StringValue value)
                            (fst (parseChildSettings (pre ++ post) env))), env)).
Proof.
  intros pre child post env Hc.
  assert (Hone : forall env0, parseChild child env0 = (None, env0)).
  { intros env0. unfold unsupported_child in Hc. unfold parseChild.
    destruct (SettingInstance_ child) as [inst|]; [|discriminate].
    destruct (SimpleSettingValue_ inst); [discriminate|].
    destruct (ChoiceSettingValue_ inst); [discriminate|]. reflexivity. }
  assert (Hskip : parseChildSettings (pre ++ child :: post) env
                  = parseChildSettings (pre ++ post) env).
  { unfold parseChildSettings, bind.
    rewrite (parseChildren_skip pre child post env); [reflexivity|].
    now rewrite Hone. }
  assert (Hpair : parseChildSettings (pre ++ post) env
                  = (fst (parseChildSettings (pre ++ post) env), env)).
  { rewrite (surjective_pairing (parseChildSettings (pre ++ post) env)) at 1.
    now rewrite parseChildSettings_env. }
  split; [apply Hone|]. split; [exact Hskip|].
  split; [apply parseChildSettings_env|]. split.
  - intros id. unfold convertAPISetting, bind.
    cbn [SettingInstance_ wrap_setting group_instance SimpleSettingValue_
         ChoiceSettingValue_ GroupSettingValue_ SimpleSettingCollectionValue
         gsv_Children SettingDefinitionId length Nat.ltb Nat.leb].
    rewrite decodeChildren_parse, Hskip, Hpair. reflexivity.
  - intros id value. unfold convertAPISetting, bind.
    cbn [SettingInstance_ wrap_setting choice_instance SimpleSettingValue_
         ChoiceSettingValue_ csv_Children csv_Value SettingDefinitionId].
    rewrite decodeChildren_parse, Hskip, Hpair. reflexivity.
Qed.

Lemma unsupported_child_dropped_without_diagnostic_witness :
  parseChild (wrap_setting (Some (group_instance "inner" []))) empty_env
  = (None, empty_env)
  /\ convertAPISettingsToModel [nested_group_example] empty_env
     = (ListValue
          [ declared "group" (StringValue "outer") StringNull
              (ListValue [ {| child_DefinitionID := StringValue "flag";
                              child_ValueType := StringValue "boolean";
                              child_Value := StringValue "true" |} ]) ],
        empty_env).
Proof.
  split.
  - exact (proj1
      (unsupported_child_dropped_without_diagnostic
         [] (wrap_setting (Some (group_instance "inner" [])))
         [wrap_setting (Some (simple_instance "flag" odata_BooleanValue (GoBool true)))]
         empty_env eq_refl)).
  - reflexivity.
Defined.

(** *** Groups without children *)

(** C7: a group setting with no children (a null or an empty children
    list) encodes, without any diagnostic, to an instance whose group value
    has an empty children slice, for which [json.Marshal] writes no
    ["children"] key at all; that instance decodes to a group setting
    whose children list is null, that is, has no element. *)
Theorem group_without_children :
  forall (ParseFloat : string -> option string) id value children env,
    Elements children = [] ->
    let group_value := {| gsv_ODataType := odata_GroupValue; gsv_Children := [] |} in
    let wire := group_instance (ValueString id) [] in
    convertSettingInstance ParseFloat (declared "group" id value children) env
    = (Some wire, env)
    /\ GroupSettingValue_ wire = Some group_value
    /\ GroupSettingValue_keys group_value = ["@odata.type"]
    /\ convertAPISettingsToModel [wrap_setting (Some wire)] env
       = (ListValue [declared "group" (StringValue (ValueString id)) StringNull ListNull],
          env)
    /\ Elements (@ListNull ChildSettingModel) = [].
Proof.
  intros pf id value children env Hch group_value wire.
  split; [|repeat split; reflexivity].
  unfold convertSettingInstance, declared, encodeChildren. simpl.
  rewrite Hch. simpl. rewrite andb_false_r. reflexivity.
Qed.

Lemma group_without_children_witness :
  convertSettingInstance (fun _ => None)
    (declared "group" (StringValue "g") StringNull (ListValue [])) empty_env
  = (Some (group_instance "g" []), empty_env).
Proof.
  exact (proj1 (group_without_children (fun _ => None) (StringValue "g") StringNull
                  (ListValue []) empty_env eq_refl)).
Defined.

(** *** Delete *)

Lemma append_longer : forall a b : string, b <> "" -> (a ++ b)%string <> a.
Proof.
  intros a b Hb Heq.
  assert (Hlen : String.length (a ++ b) = String.length a) by now rewrite Heq.
  rewrite append_length in Hlen.
  destruct b; [now apply Hb|]. simpl in Hlen. lia.
Qed.

(** C8: whatever the endpoint answers, [Delete] sends exactly one request,
    a PUT of [{"settings": []}] (an empty, non-nil list) to the settings of
    the policy; the request is not a DELETE and is not addressed to the
    policy object itself, so nothing asks the service to remove or change
    the parent policy. *)
Theorem Delete_clears_the_settings :
  forall transport data env,
    let id := ValueString (PolicyID data) in
    let put :=
      {| Method := "PUT";
         Path := PathSettingsCatalogPolicies ++ "('" ++ id ++ "')/settings";
         RequestBody := Some (SettingsBody (make_slice [])) |} in
    requests (snd (Delete transport data env)) = (requests env ++ [put])%list
    /\ Method put <> "DELETE"
    /\ Path put = policy_path id ++ "/settings"
    /\ Path put <> policy_path id.
Proof.
  intros transport data env id put.
  assert (Hpath : Path put = policy_path id ++ "/settings").
  { unfold put, policy_path. simpl Path.
    rewrite !append_assoc. reflexivity. }
  split.
  - unfold Delete, UpdateSettingsCatalogPolicySettings, Put, doRequest. run.
    destruct (transport _) as [err|resp]; simpl.
    + destruct err; simpl; try reflexivity.
    + reflexivity.
  - split; [discriminate|]. split; [exact Hpath|].
    rewrite Hpath. apply append_longer. discriminate.
Qed.

(** *** Read *)

Lemma convertAPISetting_none : forall e env,
    fst (convertAPISetting e env) = None <-> no_known_shape e = true.
Proof.
  intros e env. unfold convertAPISetting, no_known_shape.
  destruct (SettingInstance_ e) as [inst|]; [|now simpl].
  destruct (SimpleSettingValue_ inst) as [ssv|].
  { destruct (parseSimpleSettingValue (Some ssv)). simpl. split; discriminate. }
  destruct (ChoiceSettingValue_ inst) as [csv|].
  { unfold bind. destruct (decodeChildren (csv_Children csv) env). simpl.
    split; discriminate. }
  destruct (SimpleSettingCollectionValue inst) as [|v vs].
  2:{ simpl. split; discriminate. }
  simpl. destruct (GroupSettingValue_ inst) as [gsv|].
  { unfold bind. destruct (decodeChildren (gsv_Children gsv) env). simpl.
    split; discriminate. }
  now simpl.
Qed.

Lemma decoded_nil_iff : forall l,
    decoded l = [] <-> forallb no_known_shape l = true.
Proof.
  induction l as [|e l IH]; [now simpl|].
  rewrite decoded_cons. simpl. rewrite andb_true_iff, <- IH.
  rewrite <- (convertAPISetting_none e empty_env).
  destruct (fst (convertAPISetting e empty_env)); split.
  - discriminate.
  - intros [H _]. discriminate.
  - now intros ->.
  - now intros [_ ->].
Qed.

(** *** Encoding: what it leaves behind *)

Lemma adds_errors_only_refl : forall env, adds_errors_only env env.
Proof.
  intros env. exists []. rewrite app_nil_r. repeat split; reflexivity.
Qed.

Lemma adds_errors_only_trans : forall e1 e2 e3,
    adds_errors_only e1 e2 -> adds_errors_only e2 e3 -> adds_errors_only e1 e3.
Proof.
  intros e1 e2 e3 (x & Hd & Hx & Hl & Hr & Hs) (y & Hd' & Hy & Hl' & Hr' & Hs').
  exists (x ++ y)%list. rewrite Hd', Hd, app_assoc, forallb_app, Hx, Hy.
  repeat split; congruence.
Qed.

Lemma convertChildSetting_adds : forall c env,
    adds_errors_only env (snd (convertChildSetting c env)).
Proof.
  intros c env. unfold convertChildSetting.
  repeat match goal with
         | |- context [if ?b then _ else _] => destruct b
         end; try apply adds_errors_only_refl.
  destruct (strconv.ParseInt _); [|apply adds_errors_only_refl].
  unfold invalid_integer, bind. simpl. eexists. repeat split; reflexivity.
Qed.

Lemma convertChildren_adds : forall l env,
    adds_errors_only env (snd (convertChildren l env)).
Proof.
  induction l as [|c l IH]; intros env; [apply adds_errors_only_refl|].
  simpl. unfold bind.
  pose proof (convertChildSetting_adds c env) as Hc.
  destruct (convertChildSetting c env) as [r e1]. simpl in Hc.
  specialize (IH e1). destruct (convertChildren l e1) as [rs e2]. simpl in *.
  eapply adds_errors_only_trans; eassumption.
Qed.

Lemma encodeChildren_adds : forall ch env,
    adds_errors_only env (snd (encodeChildren ch env)).
Proof.
  intros ch env. unfold encodeChildren.
  destruct (negb (IsNull ch) && (0 <? length (Elements ch))%nat)%bool;
    [|apply adds_errors_only_refl].
  unfold bind, HasError.
  destruct (existsb is_error (diagnostics env)); [apply adds_errors_only_refl|].
  pose proof (convertChildren_adds (Elements ch) env) as H.
  destruct (convertChildren (Elements ch) env). exact H.
Qed.

(** A setting whose value does not parse adds exactly its diagnostic. *)
Lemma convertSettingInstance_failure : forall pf s d env,
    parse_failure pf s = Some d ->
    convertSettingInstance pf s env
    = (None, {| diagnostics := (diagnostics env ++ [d])%list; logs := logs env;
                requests := requests env; state := state env |}).
Proof.
  intros pf s d env. unfold parse_failure, convertSettingInstance.
  destruct (ValueString (ValueType s) =? "integer")%string eqn:Hi.
  - apply String.eqb_eq in Hi. rewrite Hi. simpl.
    destruct (strconv.ParseInt _); [|discriminate].
    intros [= <-]. reflexivity.
  - destruct (ValueString (ValueType s) =? "collection")%string eqn:Hc; [|discriminate].
    apply String.eqb_eq in Hc. rewrite Hc. simpl.
    destruct (json.Unmarshal_slice _ _); [|discriminate].
    intros [= <-]. reflexivity.
Qed.

Lemma convertSettingInstance_adds : forall pf s env,
    adds_errors_only env (snd (convertSettingInstance pf s env)).
Proof.
  intros pf s env. unfold convertSettingInstance.
  repeat match goal with
         | |- context [if ?b then _ else _] => destruct b
         end; try apply adds_errors_only_refl.
  - destruct (strconv.ParseInt _); [|apply adds_errors_only_refl].
    unfold invalid_integer, bind. simpl. eexists. repeat split; reflexivity.
  - unfold bind. pose proof (encodeChildren_adds (Children s) env) as H.
    destruct (encodeChildren (Children s) env). exact H.
  - destruct (json.Unmarshal_slice _ _); [|apply adds_errors_only_refl].
    unfold bind. simpl. eexists. repeat split; reflexivity.
  - unfold bind. pose proof (encodeChildren_adds (Children s) env) as H.
    destruct (encodeChildren (Children s) env). exact H.
Qed.

Lemma convertSettings_adds : forall pf l acc env,
    let env' := snd (convertSettings pf l acc env) in
    adds_errors_only env env'
    /\ forall s d, In s l -> parse_failure pf s = Some d -> In d (diagnostics env').
Proof.
  induction l as [|s l IH]; intros acc env.
  - split; [apply adds_errors_only_refl|intros ? ? []].
  - simpl. unfold bind.
    pose proof (convertSettingInstance_adds pf s env) as Hs.
    pose proof (convertSettingInstance_failure pf s) as Hf.
    destruct (convertSettingInstance pf s env) as [inst e1] eqn:He. simpl in Hs.
    destruct (IH (append acc (wrap_setting inst)) e1) as [Hrest Hin].
    split; [eapply adds_errors_only_trans; eassumption|].
    intros s' d [<-|Hmem] Hd.
    + specialize (Hf d env Hd). rewrite He in Hf. injection Hf as _ He1.
      destruct Hrest as (extra & Hdiag & _). rewrite Hdiag, He1. simpl.
      rewrite !in_app_iff. left. right. now left.
    + eapply Hin; eassumption.
Qed.

Lemma in_existsb_error : forall d l,
    In d l -> is_error d = true -> existsb is_error l = true.
Proof.
  intros d l Hin Hd. apply existsb_exists. now exists d.
Qed.

Lemma parse_failure_is_error : forall pf s d,
    parse_failure pf s = Some d -> is_error d = true.
Proof.
  intros pf s d. unfold parse_failure.
  repeat match goal with
         | |- context [if ?b then _ else _] => destruct b
         | |- context [match ?x with inl _ => _ | inr _ => _ end] => destruct x
         end; try discriminate; intros [= <-]; reflexivity.
Qed.

(** What [convertToAPISettings] leaves when some setting does not parse. *)
Lemma convertToAPISettings_failure : forall pf data env s d,
    no_errors env = true ->
    In s (Elements (model_Settings data)) ->
    parse_failure pf s = Some d ->
    let env' := snd (convertToAPISettings pf data env) in
    adds_errors_only env env' /\ In d (diagnostics env')
    /\ existsb is_error (diagnostics env') = true.
Proof.
  intros pf data env s d Henv Hin Hd.
  unfold convertToAPISettings, bind, HasError.
  unfold no_errors in Henv. apply negb_true_iff in Henv. rewrite Henv.
  destruct (convertSettings_adds pf (Elements (model_Settings data)) nil_slice env)
    as [Hadds Hall].
  cbv zeta. repeat split; [exact Hadds|eauto|].
  eapply in_existsb_error; [eauto|eapply parse_failure_is_error; eassumption].
Qed.

(** *** Create and Update with a value that does not parse *)

Lemma write_aborts : forall pf data env s d (k : slice SettingsCatalogPolicySetting -> M unit)
                            (entry : LogEntry),
    no_errors env = true ->
    In s (Elements (model_Settings data)) ->
    parse_failure pf s = Some d ->
    let start := {| diagnostics := diagnostics env; logs := (logs env ++ [entry])%list;
                    requests := requests env; state := state env |} in
    let env' :=
      snd ((apiSettings <- convertToAPISettings pf data ;;
            failed <- HasError ;;
            if failed then ret tt else k apiSettings) start) in
    In d (diagnostics env') /\ requests env' = requests env /\ state env' = state env.
Proof.
  intros pf data env s d k entry Henv Hin Hd start.
  assert (Hstart : no_errors start = true) by exact Henv.
  destruct (convertToAPISettings_failure pf data start s d Hstart Hin Hd)
    as ((extra & _ & _ & _ & Hr & Hs) & Hmem & Herr).
  cbv zeta in *. unfold bind, HasError.
  destruct (convertToAPISettings pf data start) as [api e1]. simpl in *.
  rewrite Herr. simpl. auto.
Qed.

(** C4 as amended: when a setting of the plan is an integer whose value
    [strconv.ParseInt] rejects, or a collection whose value
    [json.Unmarshal] rejects, [Create] and [Update] add the error
    diagnostic of that setting, send no request and set no state.  The
    diagnostic quotes the value and carries the parser's error; it is the
    same whatever the definition id and the children of the setting, so it
    names neither the definition id nor the position. *)
Theorem parse_failure_aborts_the_write :
  forall ParseFloat transport data env s d,
    no_errors env = true ->
    In s (Elements (model_Settings data)) ->
    parse_failure ParseFloat s = Some d ->
    (let env' := snd (Create ParseFloat transport data env) in
     In d (diagnostics env') /\ requests env' = requests env /\ state env' = state env)
    /\ (let env' := snd (Update ParseFloat transport data env) in
        In d (diagnostics env') /\ requests env' = requests env
        /\ state env' = state env)
    /\ (forall id children,
           parse_failure ParseFloat
             {| DefinitionID := id; ValueType := ValueType s; Value := Value s;
                Children := children |} = Some d).
Proof.
  intros pf transport data env s d Henv Hin Hd.
  split; [|split].
  - unfold Create. unfold bind at 1. unfold tflog at 1. cbv beta iota.
    eapply write_aborts; eassumption.
  - unfold Update. unfold bind at 1. unfold tflog at 1. cbv beta iota.
    eapply write_aborts; eassumption.
  - intros id children. exact Hd.
Qed.

Lemma parse_failure_aborts_the_write_witness :
  let env' := snd (Create no_numbers accepting bad_integer_second empty_env) in
  In {| severity := SeverityError; summary := "Invalid Integer Value";
        detail := "Could not parse 'abc' as integer: ";
        cause := NumError "ParseInt" "abc" strconv.ErrSyntax |} (diagnostics env')
  /\ requests env' = [] /\ state env' = Untouched.
Proof.
  exact (proj1
    (parse_failure_aborts_the_write no_numbers accepting bad_integer_second empty_env
       (declared "integer" (StringValue "min_length") (StringValue "abc") (ListValue []))
       _ eq_refl (or_intror (or_introl eq_refl)) eq_refl)).
Defined.

(** C4 as stated fails: the two plans below have their bad integer under
    different definition ids and at different positions, and [Create]
    leaves exactly the same diagnostics for both, so the error cannot tell
    which element is at fault. *)
Lemma diagnostics_do_not_locate_the_offender :
  offenders no_numbers bad_integer_first = [(0%nat, "max_age")]
  /\ offenders no_numbers bad_integer_second = [(1%nat, "min_length")]
  /\ diagnostics (snd (Create no_numbers accepting bad_integer_first empty_env))
     = diagnostics (snd (Create no_numbers accepting bad_integer_second empty_env))
  /\ diagnostics (snd (Create no_numbers accepting bad_integer_first empty_env))
     = [{| severity := SeverityError; summary := "Invalid Integer Value";
           detail := "Could not parse 'abc' as integer: ";
           cause := NumError "ParseInt" "abc" strconv.ErrSyntax |}].
Proof.
  repeat split; reflexivity.
Qed.

(** The JSON text [null] is not an array, yet [json.Unmarshal] accepts it
    for a slice: such a collection is no failure and has no values. *)
Lemma null_collection_is_accepted : forall pf id children env,
    parse_failure pf (declared "collection" id (StringValue "null") children) = None
    /\ convertSettingInstance pf
         (declared "collection" id (StringValue "null") children) env
       = (Some (collection_instance (ValueString id) []), env).
Proof.
  intros pf id children env. split; reflexivity.
Qed.

(** *** strconv: printing an int64 and parsing it back *)

Lemma byte_val_of : forall n, (n < 256)%N -> byte_val (byte_of n) = n.
Proof. intros n Hn. apply N_ascii_embedding. exact Hn. Qed.

Lemma digit_char_val : forall d,
    (0 <= d < 10)%Z ->
    strconv.is_digit (strconv.digit_char d) = true
    /\ strconv.digit_val (strconv.digit_char d) = d.
Proof.
  intros d Hd. unfold strconv.is_digit, strconv.digit_val, strconv.digit_char, in_range.
  rewrite byte_val_of by lia.
  split.
  - apply andb_true_iff. split; apply N.leb_le; lia.
  - lia.
Qed.

Lemma digits_of_acc : forall fuel n acc,
    strconv.digits_of fuel n acc = (strconv.digits_of fuel n "" ++ acc)%string.
Proof.
  induction fuel as [|f IH]; intros n acc; [reflexivity|].
  simpl. destruct (n <? 10)%Z; [reflexivity|].
  rewrite IH. rewrite (IH _ (String _ "")). rewrite append_assoc. reflexivity.
Qed.

Lemma digits_of_parse : forall fuel n,
    (0 <= n < 10 ^ Z.of_nat fuel)%Z ->
    exists k : nat,
      forall rest a,
        (0 <= a)%Z ->
        (a * 10 ^ Z.of_nat k + n <= strconv.maxUint64)%Z ->
        strconv.ParseUint_loop (strconv.digits_of fuel n "" ++ rest) a
        = strconv.ParseUint_loop rest (a * 10 ^ Z.of_nat k + n).
Proof.
  induction fuel as [|f IH]; intros n Hn.
  - exists 0%nat. intros rest a Ha Hmax. simpl in *.
    f_equal. lia.
  - simpl strconv.digits_of.
    destruct (n <? 10)%Z eqn:Hlt.
    + apply Z.ltb_lt in Hlt. exists 1%nat. intros rest a Ha Hmax.
      change (10 ^ Z.of_nat 1)%Z with 10%Z in *.
      simpl. rewrite Z.mod_small by lia.
      destruct (digit_char_val n ltac:(lia)) as [-> ->].
      replace (strconv.maxUint64 <? a * 10 + n)%Z with false
        by (symmetry; apply Z.ltb_ge; lia).
      reflexivity.
    + apply Z.ltb_ge in Hlt.
      assert (Hdiv : (0 <= n / 10 < 10 ^ Z.of_nat f)%Z).
      { rewrite Nat2Z.inj_succ, Z.pow_succ_r in Hn by lia.
        split; [apply Z.div_pos; lia|].
        apply Z.div_lt_upper_bound; lia. }
      destruct (IH (n / 10)%Z Hdiv) as [k Hk].
      exists (S k). intros rest a Ha Hmax.
      rewrite digits_of_acc, append_assoc.
      rewrite Nat2Z.inj_succ, Z.pow_succ_r in Hmax by lia.
      pose proof (Z.div_mod n 10 ltac:(lia)) as Hdm.
      pose proof (Z.mod_pos_bound n 10 ltac:(lia)) as Hmod.
      assert (Hpow : (0 <= 10 ^ Z.of_nat k)%Z) by (apply Z.pow_nonneg; lia).
      rewrite Hk by nia.
      simpl.
      destruct (digit_char_val (n mod 10) Hmod) as [-> ->].
      replace ((a * 10 ^ Z.of_nat k + n / 10) * 10 + n mod 10)%Z
        with (a * 10 ^ Z.of_nat (S k) + n)%Z
        by (rewrite Nat2Z.inj_succ, Z.pow_succ_r by lia; nia).
      replace (strconv.maxUint64 <? a * 10 ^ Z.of_nat (S k) + n)%Z with false
        by (symmetry; apply Z.ltb_ge;
            rewrite Nat2Z.inj_succ, Z.pow_succ_r by lia; lia).
      reflexivity.
Qed.

Lemma digits_of_head : forall fuel n,
    (0 <= n)%Z ->
    exists c r, strconv.digits_of (S fuel) n "" = String c r
                /\ strconv.is_digit c = true.
Proof.
  induction fuel as [|f IH]; intros n Hn.
  - simpl. pose proof (Z.mod_pos_bound n 10 ltac:(lia)) as Hmod.
    destruct (digit_char_val (n mod 10) Hmod) as [Hd _].
    destruct (n <? 10)%Z; eauto.
  - change (strconv.digits_of (S (S f)) n "")
      with (if (n <? 10)%Z then String (strconv.digit_char (n mod 10)) ""
            else strconv.digits_of (S f) (n / 10)
                   (String (strconv.digit_char (n mod 10)) "")).
    pose proof (Z.mod_pos_bound n 10 ltac:(lia)) as Hmod.
    destruct (digit_char_val (n mod 10) Hmod) as [Hd _].
    destruct (n <? 10)%Z eqn:Hlt; [eauto|].
    apply Z.ltb_ge in Hlt.
    destruct (IH (n / 10)%Z ltac:(apply Z.div_pos; lia)) as (c & r & Heq & Hc).
    rewrite digits_of_acc, Heq. simpl. eauto.
Qed.

Lemma ParseUint_FormatUint : forall n,
    (0 <= n <= strconv.maxUint64)%Z ->
    strconv.ParseUint (strconv.FormatUint n) = inr n
    /\ exists c r, strconv.FormatUint n = String c r /\ strconv.is_digit c = true.
Proof.
  intros n Hn. unfold strconv.FormatUint.
  destruct (digits_of_head 19 n ltac:(lia)) as (c & r & Heq & Hc).
  split; [|eauto].
  unfold strconv.ParseUint. rewrite Heq, <- Heq.
  assert (Hrange : (0 <= n < 10 ^ Z.of_nat 20)%Z).
  { change (10 ^ Z.of_nat 20)%Z with 100000000000000000000%Z.
    unfold strconv.maxUint64 in Hn. lia. }
  destruct (digits_of_parse 20 n Hrange) as [k Hk].
  rewrite <- (append_nil_r (strconv.digits_of 20 n "")).
  rewrite Hk; simpl; try lia. reflexivity.
Qed.

Lemma digit_not_sign : forall c,
    strconv.is_digit c = true -> (c =? "-")%char = false /\ (c =? "+")%char = false.
Proof.
  intros c Hc. split.
  - destruct (c =? "-")%char eqn:E; [|reflexivity].
    apply Ascii.eqb_eq in E. subst c. discriminate.
  - destruct (c =? "+")%char eqn:E; [|reflexivity].
    apply Ascii.eqb_eq in E. subst c. discriminate.
Qed.

(** The decimal text of an int64 parses back to it. *)
Lemma ParseInt_FormatInt : forall z,
    strconv.int64_range z = true ->
    strconv.ParseInt (strconv.FormatInt z) = inr z.
Proof.
  intros z Hz. unfold strconv.int64_range in Hz.
  apply andb_true_iff in Hz. destruct Hz as [Hlo Hhi].
  apply Z.leb_le in Hlo. apply Z.ltb_lt in Hhi.
  unfold strconv.cutoff63 in *.
  unfold strconv.FormatInt. destruct (z <? 0)%Z eqn:Hneg.
  - apply Z.ltb_lt in Hneg.
    destruct (ParseUint_FormatUint (- z)) as [Hp _];
      [unfold strconv.maxUint64; lia|].
    unfold strconv.ParseInt.
    change (("-" =? "-")%char) with true. simpl orb. cbv iota.
    rewrite Hp. simpl andb.
    replace (strconv.cutoff63 <? - z)%Z with false
      by (symmetry; apply Z.ltb_ge; unfold strconv.cutoff63; lia).
    f_equal. lia.
  - apply Z.ltb_ge in Hneg.
    destruct (ParseUint_FormatUint z) as [Hp (c & r & Heq & Hc)];
      [unfold strconv.maxUint64; lia|].
    unfold strconv.ParseInt. rewrite Heq.
    destruct (digit_not_sign c Hc) as [-> ->]. simpl orb. cbv iota.
    rewrite <- Heq, Hp. simpl negb. simpl andb.
    replace (strconv.cutoff63 <=? z)%Z with false
      by (symmetry; apply Z.leb_gt; unfold strconv.cutoff63; lia).
    reflexivity.
Qed.

(** *** encoding/json: a marshalled list of strings unmarshals to itself *)

Import json.

Lemma unquote_quote_ascii : forall c t,
    (byte_val c <? 0x80)%N = true ->
    unquote (quote_ascii c ++ t) = push c (unquote t).
Proof.
  intros [b0 b1 b2 b3 b4 b5 b6 b7] t H.
  destruct b7; [destruct b0, b1, b2, b3, b4, b5, b6; discriminate H|].
  clear H.
  destruct b0, b1, b2, b3, b4, b5, b6; reflexivity.
Qed.

Lemma high_byte : forall c,
    (byte_val c <? 0x80)%N = false ->
    is_byte 34 c = false /\ is_byte 92 c = false /\ (byte_val c <? 32)%N = false.
Proof.
  intros c H. apply N.ltb_ge in H. unfold is_byte.
  repeat split; [apply N.eqb_neq; lia|apply N.eqb_neq; lia|apply N.ltb_ge; lia].
Qed.

Lemma quote_body_eq : forall s,
    quote_body s
    = match s with
      | EmptyString => ""
      | String b0 r1 =>
          if (byte_val b0 <? 0x80)%N then quote_ascii b0 ++ quote_body r1
          else
            let bad := escaped_replacement ++ quote_body r1 in
            match r1 with
            | String b1 r2 =>
                if valid2 b0 b1 then String b0 (String b1 (quote_body r2))
                else
                  match r2 with
                  | String b2 r3 =>
                      if valid3 b0 b1 b2 then
                        if is_line_sep b0 b1 b2 then
                          "\u202" ++
                          String (hex_digit (N.land (byte_val b2) 15)) (quote_body r3)
                        else String b0 (String b1 (String b2 (quote_body r3)))
                      else
                        match r3 with
                        | String b3 r4 =>
                            if valid4 b0 b1 b2 b3 then
                              String b0 (String b1 (String b2 (String b3 (quote_body r4))))
                            else bad
                        | EmptyString => bad
                        end
                  | EmptyString => bad
                  end
            | EmptyString => bad
            end
      end.
Proof. destruct s; reflexivity. Qed.

Lemma unquote_high : forall c r1,
    (byte_val c <? 0x80)%N = false ->
    unquote (String c r1)
    = let bad := pushs replacement (unquote r1) in
      match r1 with
      | String b1 r2 =>
          if valid2 c b1 then push c (push b1 (unquote r2))
          else
            match r2 with
            | String b2 r3 =>
                if valid3 c b1 b2 then push c (push b1 (push b2 (unquote r3)))
                else
                  match r3 with
                  | String b3 r4 =>
                      if valid4 c b1 b2 b3 then
                        push c (push b1 (push b2 (push b3 (unquote r4))))
                      else bad
                  | EmptyString => bad
                  end
            | EmptyString => bad
            end
      | EmptyString => bad
      end.
Proof.
  intros c r1 H. destruct (high_byte c H) as (Hq & Hb & Hc).
  change (unquote (String c r1))
    with (if is_byte 34 c then Some ("", r1)
          else if is_byte 92 c then
            match r1 with
            | EmptyString => None
            | String e r2 =>
                match simple_escape e with
                | Some d => push d (unquote r2)
                | None =>
                    if is_byte 117 e then
                      match r2 with
                      | String h1 (String h2 (String h3 (String h4 r6))) =>
                          match hex4 h1 h2 h3 h4 with
                          | None => None
                          | Some rr =>
                              if is_surrogate rr then
                                let lone := pushs replacement (unquote r6) in
                                match r6 with
                                | String e1 (String e2 (String l1 (String l2
                                    (String l3 (String l4 r12))))) =>
                                    match
                                      (if is_byte 92 e1 && is_byte 117 e2
                                       then hex4 l1 l2 l3 l4 else None)
                                    with
                                    | Some rr1 =>
                                        match utf16_DecodeRune rr rr1 with
                                        | Some dec => pushs (EncodeRune dec) (unquote r12)
                                        | None => lone
                                        end
                                    | None => lone
                                    end
                                | _ => lone
                                end
                              else pushs (EncodeRune rr) (unquote r6)
                          end
                      | _ => None
                      end
                    else None
                end
            end
          else if (byte_val c <? 32)%N then None
          else if (byte_val c <? 0x80)%N then push c (unquote r1)
          else
            let bad := pushs replacement (unquote r1) in
            match r1 with
            | String b1 r2 =>
                if valid2 c b1 then push c (push b1 (unquote r2))
                else
                  match r2 with
                  | String b2 r3 =>
                      if valid3 c b1 b2 then push c (push b1 (push b2 (unquote r3)))
                      else
                        match r3 with
                        | String b3 r4 =>
                            if valid4 c b1 b2 b3 then
                              push c (push b1 (push b2 (push b3 (unquote r4))))
                            else bad
                        | EmptyString => bad
                        end
                  | EmptyString => bad
                  end
            | EmptyString => bad
            end).
  rewrite Hq, Hb, Hc, H. reflexivity.
Qed.

Lemma ValidString_eq : forall s,
    ValidString s
    = match s with
      | EmptyString => true
      | String b0 r1 =>
          if (byte_val b0 <? 0x80)%N then ValidString r1
          else
            match r1 with
            | String b1 r2 =>
                if valid2 b0 b1 then ValidString r2
                else
                  match r2 with
                  | String b2 r3 =>
                      if valid3 b0 b1 b2 then ValidString r3
                      else
                        match r3 with
                        | String b3 r4 =>
                            if valid4 b0 b1 b2 b3 then ValidString r4 else false
                        | EmptyString => false
                        end
                  | EmptyString => false
                  end
            | EmptyString => false
            end
      end.
Proof. destruct s; reflexivity. Qed.

Lemma byte_of_val : forall c n, byte_val c = n -> c = byte_of n.
Proof. intros c n <-. symmetry. apply ascii_N_embedding. Qed.

Lemma is_byte_eq : forall n c, is_byte n c = true -> c = byte_of n.
Proof. intros n c H. apply N.eqb_eq in H. now apply byte_of_val. Qed.

Lemma unquote_line_sep : forall b2 t,
    in_range 0xA8 0xA9 b2 = true ->
    unquote (String backslash
               (String "u" (String "2" (String "0" (String "2"
                  (String (hex_digit (N.land (byte_val b2) 15)) t))))))
    = pushs (String (byte_of 0xE2) (String (byte_of 0x80) (String b2 ""))) (unquote t).
Proof.
  intros [c0 c1 c2 c3 c4 c5 c6 c7] t H.
  destruct c0, c1, c2, c3, c4, c5, c6, c7; try discriminate H; reflexivity.
Qed.

(** A quoted string of well-formed UTF-8 is read back as it was. *)
Lemma unquote_quote_body : forall n s rest,
    (String.length s <= n)%nat ->
    ValidString s = true ->
    unquote (quote_body s ++ String dquote rest) = Some (s, rest).
Proof.
  induction n as [|n IH]; intros s rest Hlen Hvalid.
  { destruct s; [reflexivity|simpl in Hlen; lia]. }
  destruct s as [|b0 r1]; [reflexivity|].
  rewrite ValidString_eq in Hvalid. rewrite quote_body_eq.
  simpl in Hlen.
  destruct (byte_val b0 <? 0x80)%N eqn:H0.
  { rewrite append_assoc, unquote_quote_ascii by exact H0.
    rewrite IH by (assumption || lia). reflexivity. }
  cbv zeta.
  destruct r1 as [|b1 r2]; [discriminate|]. simpl in Hlen.
  destruct (valid2 b0 b1) eqn:H2.
  { rewrite !append_cons. rewrite unquote_high by exact H0. cbv zeta. rewrite H2.
    rewrite IH by (assumption || lia). reflexivity. }
  destruct r2 as [|b2 r3]; [discriminate|]. simpl in Hlen.
  destruct (valid3 b0 b1 b2) eqn:H3.
  { destruct (is_line_sep b0 b1 b2) eqn:Hsep.
    - unfold is_line_sep in Hsep.
      apply andb_true_iff in Hsep. destruct Hsep as [Hsep Hb2].
      apply andb_true_iff in Hsep. destruct Hsep as [Hb0 Hb1].
      apply is_byte_eq in Hb0. apply is_byte_eq in Hb1. subst b0 b1.
      cbn [String.append].
      rewrite unquote_line_sep by exact Hb2.
      rewrite IH by (assumption || lia). reflexivity.
    - rewrite !append_cons. rewrite unquote_high by exact H0. cbv zeta. rewrite H2, H3.
      rewrite IH by (assumption || lia). reflexivity. }
  destruct r3 as [|b3 r4]; [discriminate|]. simpl in Hlen.
  destruct (valid4 b0 b1 b2 b3) eqn:H4; [|discriminate].
  rewrite !append_cons. rewrite unquote_high by exact H0. cbv zeta. rewrite H2, H3, H4.
  rewrite IH by (assumption || lia). reflexivity.
Qed.

Lemma quote_app : forall s rest,
    (quote s ++ rest)%string = String dquote (quote_body s ++ String dquote rest).
Proof.
  intros s rest. unfold quote. rewrite append_cons, append_assoc. reflexivity.
Qed.

Lemma parse_value_quote : forall fuel depth s rest,
    ValidString s = true ->
    parse_value (S fuel) depth (quote s ++ rest) = Some (JString s, rest).
Proof.
  intros fuel depth s rest Hs. rewrite quote_app.
  change (parse_value (S fuel) depth (String dquote (quote_body s ++ String dquote rest)))
    with (match unquote (quote_body s ++ String dquote rest) with
          | Some (t, rest') => Some (JString t, rest')
          | None => None
          end).
  rewrite (unquote_quote_body (String.length s)) by (auto || lia). reflexivity.
Qed.

Lemma skip_ws_quote : forall s rest,
    skip_ws (quote s ++ rest) = (quote s ++ rest)%string.
Proof. intros s rest. rewrite quote_app. reflexivity. Qed.

Lemma join_cons2 : forall sep (x y : string) l,
    join sep (x :: y :: l) = (x ++ sep ++ join sep (y :: l))%string.
Proof. reflexivity. Qed.

Lemma parse_elements_strings : forall l x fuel depth rest,
    (length (x :: l) < fuel)%nat ->
    forallb ValidString (x :: l) = true ->
    parse_elements fuel depth (join "," (map quote (x :: l)) ++ String "]" rest)
    = Some (map JString (x :: l), rest).
Proof.
  induction l as [|y l IH]; intros x fuel depth rest Hfuel Hvalid.
  - destruct fuel as [|[|f]]; simpl in Hfuel; try lia.
    simpl in Hvalid. rewrite andb_true_r in Hvalid.
    change (join "," (map quote [x])) with (quote x).
    change (parse_elements (S (S f)) depth (quote x ++ String "]" rest))
      with (match parse_value (S f) depth (quote x ++ String "]" rest) with
            | None => None
            | Some (v, r) =>
                match skip_ws r with
                | EmptyString => None
                | String c r' =>
                    if is_byte 44 c then
                      match parse_elements (S f) depth (skip_ws r') with
                      | Some (l, rest) => Some (v :: l, rest)
                      | None => None
                      end
                    else if is_byte 93 c then Some ([v], r')
                    else None
                end
            end).
    rewrite parse_value_quote by exact Hvalid. reflexivity.
  - destruct fuel as [|[|f]]; simpl in Hfuel; try lia.
    change (forallb ValidString (x :: y :: l))
      with (ValidString x && forallb ValidString (y :: l))%bool in Hvalid.
    apply andb_true_iff in Hvalid. destruct Hvalid as [Hx Hrest].
    change (map quote (x :: y :: l)) with (quote x :: quote y :: map quote l).
    rewrite join_cons2, !append_assoc.
    change (parse_elements (S (S f)) depth
              (quote x ++ "," ++ join "," (quote y :: map quote l) ++ String "]" rest))
      with (match parse_value (S f) depth
                    (quote x ++ "," ++ join "," (quote y :: map quote l)
                           ++ String "]" rest) with
            | None => None
            | Some (v, r) =>
                match skip_ws r with
                | EmptyString => None
                | String c r' =>
                    if is_byte 44 c then
                      match parse_elements (S f) depth (skip_ws r') with
                      | Some (l, rest) => Some (v :: l, rest)
                      | None => None
                      end
                    else if is_byte 93 c then Some ([v], r')
                    else None
                end
            end).
    rewrite parse_value_quote by exact Hx.
    change (skip_ws ("," ++ join "," (quote y :: map quote l) ++ String "]" rest))
      with (String "," (join "," (quote y :: map quote l) ++ String "]" rest)).
    cbv iota beta.
    change (is_byte 44 ",") with true. cbv iota.
    assert (Hskip : skip_ws (join "," (quote y :: map quote l) ++ String "]" rest)
                    = (join "," (quote y :: map quote l) ++ String "]" rest)%string).
    { destruct l as [|z l].
      - change (join "," (quote y :: map quote [])) with (quote y).
        apply skip_ws_quote.
      - change (map quote (z :: l)) with (quote z :: map quote l).
        rewrite join_cons2, !append_assoc. apply skip_ws_quote. }
    rewrite Hskip.
    change (quote y :: map quote l) with (map quote (y :: l)).
    rewrite (IH y (S f) depth rest) by (simpl in *; (lia || assumption)).
    reflexivity.
Qed.

Lemma join_quote_length : forall l,
    (length l <= String.length (join "," (map quote l)))%nat.
Proof.
  induction l as [|x [|y l] IH].
  - simpl. lia.
  - change (join "," (map quote [x])) with (quote x).
    rewrite <- (append_nil_r (quote x)), quote_app. simpl. lia.
  - change (map quote (x :: y :: l)) with (quote x :: quote y :: map quote l).
    rewrite join_cons2, quote_app.
    change (quote y :: map quote l) with (map quote (y :: l)).
    simpl String.length. rewrite !append_length.
    simpl in IH. simpl. lia.
Qed.

Lemma parse_value_array_of_strings : forall l fuel rest,
    (S (length l) < fuel)%nat ->
    forallb ValidString l = true ->
    parse_value fuel 0 (array_of_strings l ++ rest) = Some (JArray (map JString l), rest).
Proof.
  intros l fuel rest Hfuel Hvalid. unfold array_of_strings.
  destruct fuel as [|f]; [lia|].
  destruct l as [|x l].
  - reflexivity.
  - change (("[" ++ join "," (map quote (x :: l)) ++ "]") ++ rest)%string
      with (String "[" ((join "," (map quote (x :: l)) ++ "]") ++ rest)).
    rewrite append_assoc.
    change ("]" ++ rest)%string with (String "]" rest).
    assert (Hhead : exists t,
               (join "," (map quote (x :: l)) ++ String "]" rest)%string
               = String dquote t).
    { destruct l as [|y l].
      - change (join "," (map quote [x])) with (quote x).
        rewrite quote_app. eauto.
      - change (map quote (x :: y :: l)) with (quote x :: quote y :: map quote l).
        rewrite join_cons2, !append_assoc, quote_app. eauto. }
    destruct Hhead as [t Ht].
    change (parse_value (S f) 0
              (String "[" (join "," (map quote (x :: l)) ++ String "]" rest)))
      with (match skip_ws (join "," (map quote (x :: l)) ++ String "]" rest) with
            | EmptyString => None
            | String c' r' as r0 =>
                if is_byte 93 c' then Some (JArray [], r')
                else
                  match parse_elements f (N.succ 0) r0 with
                  | Some (l, rest) => Some (JArray l, rest)
                  | None => None
                  end
            end).
    rewrite Ht.
    change (skip_ws (String dquote t)) with (String dquote t).
    cbv iota beta. change (is_byte 93 dquote) with false. cbv iota.
    rewrite <- Ht.
    rewrite parse_elements_strings by (simpl in *; (lia || assumption)).
    reflexivity.
Qed.

Lemma parse_document_array_of_strings : forall l,
    forallb ValidString l = true ->
    parse_document (array_of_strings l) = Some (JArray (map JString l)).
Proof.
  intros l Hvalid. unfold parse_document.
  assert (Hskip : skip_ws (array_of_strings l) = array_of_strings l) by reflexivity.
  rewrite Hskip.
  rewrite <- (append_nil_r (array_of_strings l)) at 2.
  rewrite parse_value_array_of_strings; [reflexivity| |exact Hvalid].
  pose proof (join_quote_length l) as Hlen.
  unfold array_of_strings. rewrite !append_length.
  simpl String.length. lia.
Qed.

Lemma to_interfaces_strings : forall pf l,
    to_interfaces pf (map JString l) = Some (map GoString l).
Proof.
  intros pf. induction l as [|x l IH]; [reflexivity|].
  simpl. rewrite IH. reflexivity.
Qed.

(** [json.Unmarshal] of the compact array of a list of well-formed UTF-8
    strings yields these strings, in order. *)
Lemma Unmarshal_array_of_strings : forall pf l,
    forallb ValidString l = true ->
    Unmarshal_slice pf (array_of_strings l) = inr (map GoString l).
Proof.
  intros pf l Hvalid. unfold Unmarshal_slice.
  rewrite parse_document_array_of_strings by exact Hvalid.
  rewrite to_interfaces_strings. reflexivity.
Qed.

Lemma sprintV_strings : forall l, map fmt.sprintV (map GoString l) = l.
Proof.
  induction l as [|x l IH]; [reflexivity|]. simpl. now rewrite IH.
Qed.

(** *** Collections *)

Lemma collection_encodes : forall pf id l children env,
    forallb ValidString l = true ->
    convertSettingInstance pf
      (declared "collection" id (StringValue (array_of_strings l)) children) env
    = (Some (collection_instance (ValueString id) (map string_value l)), env).
Proof.
  intros pf id l children env Hvalid.
  unfold convertSettingInstance, declared. simpl.
  rewrite Unmarshal_array_of_strings by exact Hvalid.
  unfold ret. rewrite map_map. reflexivity.
Qed.

Lemma collection_decodes : forall id x l env,
    convertAPISettingsToModel
      [wrap_setting (Some (collection_instance id (map string_value (x :: l))))] env
    = (ListValue [declared "collection" (StringValue id)
                           (StringValue (array_of_strings (x :: l))) ListNull],
       env).
Proof.
  intros id x l env.
  unfold convertAPISettingsToModel, bind. simpl. unfold bind, ret. simpl.
  rewrite map_map. simpl. rewrite map_id. reflexivity.
Qed.

(** C6 as amended: for every non-empty list of well-formed UTF-8 strings,
    encoding the collection setting whose value is the compact JSON array
    of the list yields one wire string value per element, in order, and
    decoding that wire node yields the collection setting with the same
    JSON array, which denotes the same strings in the same order. *)
Theorem collection_round_trip :
  forall (ParseFloat : string -> option string) id l children env,
    l <> [] ->
    forallb ValidString l = true ->
    let wire_values := map string_value l in
    convertSettingInstance ParseFloat
      (declared "collection" id (StringValue (array_of_strings l)) children) env
    = (Some (collection_instance (ValueString id) wire_values), env)
    /\ convertAPISettingsToModel
         [wrap_setting (Some (collection_instance (ValueString id) wire_values))] env
       = (ListValue [declared "collection" (StringValue (ValueString id))
                              (StringValue (array_of_strings l)) ListNull],
          env)
    /\ Unmarshal_slice ParseFloat (array_of_strings l) = inr (map GoString l).
Proof.
  intros pf id l children env Hne Hvalid wire_values.
  split; [apply collection_encodes; exact Hvalid|].
  split; [|apply Unmarshal_array_of_strings; exact Hvalid].
  destruct l as [|x l]; [now elim Hne|]. apply collection_decodes.
Qed.

Lemma collection_round_trip_witness :
  roundtrip no_numbers
    (declared "collection" (StringValue "allowed_apps")
              (StringValue (array_of_strings ["a"; "b"; "c"])) ListNull)
  = ListValue [declared "collection" (StringValue "allowed_apps")
                        (StringValue (array_of_strings ["a"; "b"; "c"])) ListNull].
Proof.
  unfold roundtrip.
  destruct (collection_round_trip no_numbers (StringValue "allowed_apps")
              ["a"; "b"; "c"] ListNull empty_env ltac:(discriminate) eq_refl)
    as (Henc & Hdec & _).
  rewrite Henc. cbv beta iota. cbv zeta in Hdec.
  rewrite Hdec. reflexivity.
Defined.

(** C6 as stated fails for the empty list: its JSON array [[]] encodes to
    an instance without any collection value, which the decoder does not
    recognise as a collection; it skips the node and no setting comes
    back. *)
Lemma empty_collection_is_lost :
  Value empty_collection = StringValue (array_of_strings [])
  /\ fst (convertSettingInstance no_numbers empty_collection empty_env)
     = Some (collection_instance "allowed_apps" [])
  /\ roundtrip no_numbers empty_collection = ListNull.
Proof. repeat split; reflexivity. Qed.

(** A string that is not well-formed UTF-8 does not survive either:
    [json.Marshal] writes the escape of U+FFFD for the stray byte. *)
Lemma ill_formed_string_is_replaced :
  ValidString stray_byte = false
  /\ Unmarshal_slice no_numbers (array_of_strings [stray_byte])
     = inr [GoString replacement]
  /\ replacement <> stray_byte.
Proof.
  repeat split; try reflexivity. discriminate.
Qed.

(** *** The round trip of a declared setting *)

Lemma bool_text_true : forall b, (bool_text b =? "true")%string = b.
Proof. intros []; reflexivity. Qed.

Lemma convertChildSetting_canonical : forall c env,
    child_in_range c = true ->
    convertChildSetting (declare_child c) env = (Some (wire_child c), env).
Proof.
  intros [id [v|z|b|v]] env Hc; unfold convertChildSetting; simpl.
  - reflexivity.
  - unfold child_in_range in Hc. simpl in Hc.
    rewrite ParseInt_FormatInt by exact Hc. reflexivity.
  - rewrite bool_text_true. reflexivity.
  - reflexivity.
Qed.

Lemma parseChild_canonical : forall c env,
    parseChild (wire_child c) env = (Some (declare_child c), env).
Proof.
  intros [id [v|z|b|v]] env; try reflexivity.
  destruct b; reflexivity.
Qed.

Lemma convertChildren_canonical : forall cs env,
    forallb child_in_range cs = true ->
    convertChildren (map declare_child cs) env = (map wire_child cs, env).
Proof.
  induction cs as [|c cs IH]; intros env Hcs; [reflexivity|].
  simpl in Hcs. apply andb_true_iff in Hcs. destruct Hcs as [Hc Hcs].
  simpl. unfold bind.
  rewrite convertChildSetting_canonical by exact Hc.
  rewrite IH by exact Hcs. reflexivity.
Qed.

Lemma parseChildren_canonical : forall cs env,
    parseChildren (map wire_child cs) env = (map declare_child cs, env).
Proof.
  induction cs as [|c cs IH]; intros env; [reflexivity|].
  simpl. unfold bind. rewrite parseChild_canonical, IH. reflexivity.
Qed.

Lemma encodeChildren_canonical : forall cs env,
    no_errors env = true ->
    forallb child_in_range cs = true ->
    encodeChildren (declare_children cs) env = (Some (map wire_child cs), env).
Proof.
  intros cs env Henv Hcs. unfold encodeChildren.
  destruct cs as [|c cs]; [reflexivity|].
  unfold declare_children.
  change (negb (IsNull (ListValue (map declare_child (c :: cs)))) &&
          (0 <? length (Elements (ListValue (map declare_child (c :: cs)))))%nat)%bool
    with true.
  change (Elements (ListValue (map declare_child (c :: cs))))
    with (map declare_child (c :: cs)).
  unfold bind, HasError. cbv beta iota.
  unfold no_errors in Henv. apply negb_true_iff in Henv. rewrite Henv.
  rewrite convertChildren_canonical by exact Hcs. reflexivity.
Qed.

Lemma decodeChildren_canonical : forall cs env,
    decodeChildren (map wire_child cs) env = (declare_children cs, env).
Proof.
  intros cs env. unfold decodeChildren.
  destruct cs as [|c cs]; [reflexivity|].
  change (0 <? length (map wire_child (c :: cs)))%nat with true. cbv iota.
  unfold parseChildSettings, bind.
  rewrite parseChildren_canonical. reflexivity.
Qed.

Lemma canonical_encodes : forall pf id c env,
    in_range_of_kind c = true ->
    no_errors env = true ->
    convertSettingInstance pf (declare id c) env = (Some (wire id c), env).
Proof.
  intros pf id c env Hc Henv. destruct c as [v|z|b|v cs|l|cs]; simpl in Hc.
  - reflexivity.
  - unfold convertSettingInstance. simpl.
    rewrite ParseInt_FormatInt by exact Hc. reflexivity.
  - unfold convertSettingInstance. simpl. rewrite bool_text_true. reflexivity.
  - unfold convertSettingInstance. simpl. unfold bind.
    rewrite encodeChildren_canonical by assumption. reflexivity.
  - destruct l as [|x l]; [discriminate|].
    apply collection_encodes. exact Hc.
  - unfold convertSettingInstance. simpl. unfold bind.
    rewrite encodeChildren_canonical by assumption. reflexivity.
Qed.

Lemma canonical_decodes : forall id c env,
    in_range_of_kind c = true ->
    convertAPISettingsToModel [wrap_setting (Some (wire id c))] env
    = (ListValue [declare id c], env).
Proof.
  intros id c env Hc. destruct c as [v|z|b|v cs|l|cs]; simpl in Hc.
  - reflexivity.
  - reflexivity.
  - destruct b; reflexivity.
  - unfold convertAPISettingsToModel, convertAPISettings, convertAPISetting, bind.
    cbn [SettingInstance_ wrap_setting wire choice_instance SimpleSettingValue_
         ChoiceSettingValue_ csv_Children csv_Value SettingDefinitionId].
    rewrite decodeChildren_canonical. reflexivity.
  - destruct l as [|x l]; [discriminate|]. apply collection_decodes.
  - unfold convertAPISettingsToModel, convertAPISettings, convertAPISetting, bind.
    cbn [SettingInstance_ wrap_setting wire group_instance SimpleSettingValue_
         ChoiceSettingValue_ GroupSettingValue_ SimpleSettingCollectionValue
         gsv_Children SettingDefinitionId length Nat.ltb Nat.leb].
    rewrite decodeChildren_canonical. reflexivity.
Qed.

(** C1 as amended: a declared setting in canonical form (a string or a
    choice with any value; an integer written as the canonical decimal of
    an int64; a boolean written ["true"] or ["false"]; a collection
    written as the compact JSON array of a non-empty list of well-formed
    UTF-8 strings; a group with a null value; children absent as a null
    list, or a non-empty list of children in canonical form, for choice and
    group only) encodes without diagnostics, and decoding the wire node
    gives back exactly that setting: definition id, value type, value and
    children. *)
Theorem canonical_round_trip :
  forall (ParseFloat : string -> option string) id c env,
    in_range_of_kind c = true ->
    no_errors env = true ->
    convertSettingInstance ParseFloat (declare id c) env = (Some (wire id c), env)
    /\ convertAPISettingsToModel [wrap_setting (Some (wire id c))] env
       = (ListValue [declare id c], env)
    /\ roundtrip ParseFloat (declare id c) = ListValue [declare id c].
Proof.
  intros pf id c env Hc Henv.
  split; [apply canonical_encodes; assumption|].
  split; [apply canonical_decodes; assumption|].
  unfold roundtrip.
  rewrite canonical_encodes by (assumption || reflexivity).
  rewrite canonical_decodes by assumption. reflexivity.
Qed.

Lemma canonical_round_trip_witness :
  roundtrip no_numbers
    (declare "firewall"
       (CChoice "firewall_enabled"
          [("profile", ChildString "domain"); ("log_size", ChildInteger (-42));
           ("stealth", ChildBoolean true); ("mode", ChildChoice "mode_1")]))
  = ListValue
      [declare "firewall"
         (CChoice "firewall_enabled"
            [("profile", ChildString "domain"); ("log_size", ChildInteger (-42));
             ("stealth", ChildBoolean true); ("mode", ChildChoice "mode_1")])].
Proof.
  exact (proj2 (proj2
    (canonical_round_trip no_numbers "firewall"
       (CChoice "firewall_enabled"
          [("profile", ChildString "domain"); ("log_size", ChildInteger (-42));
           ("stealth", ChildBoolean true); ("mode", ChildChoice "mode_1")])
       empty_env eq_refl eq_refl))).
Defined.

(** C1 as stated fails: ["007"] is a valid integer value, it parses as a
    base-10 int64, and it comes back as ["7"]. *)
Lemma leading_zeros_do_not_round_trip :
  valid_for_kind no_numbers leading_zeros = true
  /\ roundtrip no_numbers leading_zeros
     = ListValue [declared "integer" (StringValue "device_lock_timeout")
                           (StringValue "7") ListNull]
  /\ roundtrip no_numbers leading_zeros <> ListValue [leading_zeros].
Proof.
  repeat split; try reflexivity. discriminate.
Qed.

(** ** Further properties of the codec *)

(** *** What a decode leaves behind *)

Lemma with_logs_nil : forall env, with_logs env [] = env.
Proof.
  intros [d l r s]. unfold with_logs. simpl. now rewrite app_nil_r.
Qed.

Lemma with_logs_app : forall env a b,
    with_logs (with_logs env a) b = with_logs env (a ++ b).
Proof.
  intros env a b. unfold with_logs. simpl. now rewrite app_assoc.
Qed.

Lemma convertAPISetting_env : forall e env,
    snd (convertAPISetting e env) = with_logs env (decode_warnings [e]).
Proof.
  intros e env. unfold decode_warnings, convertAPISetting. cbn [flat_map].
  unfold no_known_shape.
  destruct (SettingInstance_ e) as [inst|]; [|now rewrite with_logs_nil].
  destruct (SimpleSettingValue_ inst) as [ssv|].
  { destruct (parseSimpleSettingValue (Some ssv)). cbn. now rewrite with_logs_nil. }
  destruct (ChoiceSettingValue_ inst) as [csv|].
  { unfold bind. pose proof (decodeChildren_env (csv_Children csv) env) as H.
    destruct (decodeChildren (csv_Children csv) env) as [ch e1].
    cbn in *. subst. now rewrite with_logs_nil. }
  destruct (SimpleSettingCollectionValue inst) as [|v vs].
  2:{ cbn. now rewrite with_logs_nil. }
  cbn [length Nat.ltb Nat.leb]. cbv iota.
  destruct (GroupSettingValue_ inst) as [gsv|].
  { unfold bind. pose proof (decodeChildren_env (gsv_Children gsv) env) as H.
    destruct (decodeChildren (gsv_Children gsv) env) as [ch e1].
    cbn in *. subst. now rewrite with_logs_nil. }
  reflexivity.
Qed.

Lemma decode_warnings_cons : forall e l,
    decode_warnings (e :: l) = (decode_warnings [e] ++ decode_warnings l)%list.
Proof.
  intros e l. unfold decode_warnings. simpl. now rewrite app_nil_r.
Qed.

Lemma convertAPISettings_env : forall l env,
    snd (convertAPISettings l env) = with_logs env (decode_warnings l).
Proof.
  induction l as [|e l IH]; intros env.
  - simpl. now rewrite with_logs_nil.
  - rewrite convertAPISettings_cons. simpl snd.
    rewrite IH, convertAPISetting_env, with_logs_app, <- decode_warnings_cons.
    reflexivity.
Qed.

(** A decode adds no diagnostic, sends no request and leaves the state
    alone; all it leaves is one ["Unknown setting type"] warning in the log
    for each wire element whose instance fills none of the four value
    fields, in the order of the wire list; an element without instance
    leaves nothing. *)
Theorem decode_logs_only_warnings :
  forall l env,
    snd (convertAPISettingsToModel l env) = with_logs env (decode_warnings l)
    /\ length (decode_warnings l)
       = length (filter (fun e => match SettingInstance_ e with
                                  | Some _ => no_known_shape e
                                  | None => false
                                  end) l).
Proof.
  intros l env. split.
  - rewrite convertAPISettingsToModel_eq. simpl. apply convertAPISettings_env.
  - induction l as [|e l IH]; [reflexivity|].
    rewrite decode_warnings_cons, length_app, IH.
    unfold decode_warnings. simpl.
    destruct (SettingInstance_ e); [|reflexivity].
    destruct (no_known_shape e); reflexivity.
Qed.

(** *** What a decode produces *)

Lemma parseSimpleSettingValue_kind : forall ssv,
    exists t v,
      parseSimpleSettingValue (Some ssv) = (StringValue t, StringValue v)
      /\ (t = "string" \/ t = "integer" \/ t = "boolean").
Proof.
  intros ssv. unfold parseSimpleSettingValue.
  destruct (ssv_ODataType ssv =? odata_StringValue)%string; [eauto 6|].
  destruct (ssv_ODataType ssv =? odata_IntegerValue)%string; [eauto 6|].
  destruct (ssv_ODataType ssv =? odata_BooleanValue)%string; [|eauto 6].
  destruct (ssv_Value ssv) as [|[]| | | | |]; eauto 6.
Qed.

Lemma parseChild_ok : forall c env ch,
    fst (parseChild c env) = Some ch -> decoded_child_ok ch = true.
Proof.
  intros c env ch. unfold parseChild.
  destruct (SettingInstance_ c) as [inst|]; [|discriminate].
  destruct (SimpleSettingValue_ inst) as [ssv|].
  - destruct (parseSimpleSettingValue_kind ssv) as (t & v & -> & Ht).
    simpl. intros [= <-].
    destruct Ht as [->|[->| ->]]; reflexivity.
  - destruct (ChoiceSettingValue_ inst); [|discriminate].
    simpl. intros [= <-]. reflexivity.
Qed.

Lemma parseChildren_ok : forall l env,
    forallb decoded_child_ok (fst (parseChildren l env)) = true.
Proof.
  induction l as [|c l IH]; intros env; [reflexivity|].
  simpl. unfold bind.
  pose proof (parseChild_ok c env) as Hc.
  destruct (parseChild c env) as [r e1]. simpl in Hc.
  specialize (IH e1). destruct (parseChildren l e1) as [rs e2]. simpl in *.
  destruct r as [ch|]; [|exact IH].
  simpl. now rewrite (Hc ch eq_refl), IH.
Qed.

Lemma decodeChildren_ok : forall l env,
    match fst (decodeChildren l env) with
    | ListNull => True
    | ListValue cs => cs <> [] /\ forallb decoded_child_ok cs = true
    end.
Proof.
  intros l env. unfold decodeChildren.
  destruct (0 <? length l)%nat; [|exact I].
  unfold parseChildSettings, bind.
  pose proof (parseChildren_ok l env) as H.
  destruct (parseChildren l env) as [[|c cs] e]; simpl in *; [exact I|].
  split; [discriminate|exact H].
Qed.

Lemma convertAPISetting_ok : forall e env s,
    fst (convertAPISetting e env) = Some s -> decoded_setting_ok s = true.
Proof.
  intros e env s. unfold convertAPISetting.
  destruct (SettingInstance_ e) as [inst|]; [|discriminate].
  destruct (SimpleSettingValue_ inst) as [ssv|].
  { destruct (parseSimpleSettingValue_kind ssv) as (t & v & -> & Ht).
    simpl. intros [= <-].
    destruct Ht as [->|[->| ->]]; reflexivity. }
  destruct (ChoiceSettingValue_ inst) as [csv|].
  { unfold bind. pose proof (decodeChildren_ok (csv_Children csv) env) as H.
    destruct (decodeChildren (csv_Children csv) env) as [ch e1].
    simpl in *. intros [= <-]. unfold decoded_setting_ok. simpl.
    destruct ch as [|[|c cs]]; [reflexivity|now destruct H|].
    destruct H as [_ H]. exact H. }
  destruct (0 <? length (SimpleSettingCollectionValue inst))%nat.
  { simpl. intros [= <-]. reflexivity. }
  destruct (GroupSettingValue_ inst) as [gsv|]; [|discriminate].
  unfold bind. pose proof (decodeChildren_ok (gsv_Children gsv) env) as H.
  destruct (decodeChildren (gsv_Children gsv) env) as [ch e1].
  simpl in *. intros [= <-]. unfold decoded_setting_ok. simpl.
  destruct ch as [|[|c cs]]; [reflexivity|now destruct H|].
  destruct H as [_ H]. exact H.
Qed.

(** Whatever the wire list holds, every setting a decode returns is one the
    schema accepts: its definition id and value type are known, the value
    type is one of the six, the value is null exactly for a group, and its
    children are either null or a non-empty list, under a choice or a group
    only, of children with known fields and one of the four child value
    types. *)
Theorem decoded_settings_satisfy_the_schema :
  forall l env,
    forallb decoded_setting_ok (Elements (fst (convertAPISettingsToModel l env))) = true.
Proof.
  intros l env. rewrite convertAPISettingsToModel_eq. simpl fst.
  assert (H : forallb decoded_setting_ok (decoded l) = true).
  { induction l as [|e l IH]; [reflexivity|].
    rewrite decoded_cons.
    pose proof (convertAPISetting_ok e empty_env) as He.
    destruct (fst (convertAPISetting e empty_env)) as [s|]; [|exact IH].
    simpl. now rewrite (He s eq_refl), IH. }
  destruct (decoded l); [reflexivity|exact H].
Qed.

(** *** What an encode produces *)

Lemma ParseUint_loop_nonneg : forall s n z,
    (0 <= n)%Z -> strconv.ParseUint_loop s n = inr z -> (0 <= z)%Z.
Proof.
  induction s as [|c s IH]; intros n z Hn; simpl.
  - now intros [= <-].
  - destruct (strconv.is_digit c) eqn:Hc; [|discriminate].
    destruct (strconv.maxUint64 <? n * 10 + strconv.digit_val c)%Z; [discriminate|].
    apply IH.
    unfold strconv.is_digit, in_range in Hc. apply andb_true_iff in Hc.
    destruct Hc as [Hlo _]. apply N.leb_le in Hlo.
    unfold strconv.digit_val. lia.
Qed.

(** What [strconv.ParseInt] returns without error is an int64. *)
Lemma ParseInt_range : forall s z,
    strconv.ParseInt s = inr z -> strconv.int64_range z = true.
Proof.
  intros s z. unfold strconv.ParseInt.
  destruct s as [|c r]; [discriminate|].
  remember (if ((c =? "+")%char || (c =? "-")%char)%bool then r else String c r) as body.
  destruct (strconv.ParseUint body) as [e|un] eqn:Hp; [discriminate|].
  assert (Hun : (0 <= un)%Z).
  { unfold strconv.ParseUint in Hp. destruct body; [discriminate|].
    eapply ParseUint_loop_nonneg; [|exact Hp]. lia. }
  unfold strconv.int64_range, strconv.cutoff63.
  destruct (c =? "-")%char; simpl.
  - destruct (9223372036854775808 <? un)%Z eqn:Hc; [discriminate|].
    apply Z.ltb_ge in Hc. intros [= <-].
    apply andb_true_iff. split; [apply Z.leb_le|apply Z.ltb_lt]; lia.
  - destruct (9223372036854775808 <=? un)%Z eqn:Hc; [discriminate|].
    apply Z.leb_gt in Hc. intros [= <-].
    apply andb_true_iff. split; [apply Z.leb_le|apply Z.ltb_lt]; lia.
Qed.





Lemma OneOf_setting_value_types : forall v,
    OneOf setting_value_types v
    = ((v =? "string") || (v =? "integer") || (v =? "boolean") || (v =? "choice")
       || (v =? "collection") || (v =? "group"))%string.
Proof.
  intros v. unfold OneOf, setting_value_types. simpl.
  rewrite orb_false_r, !orb_assoc. reflexivity.
Qed.



(** *** The schema and the encoder agree on the value types *)

(** The six value types the schema validator accepts are exactly the ones
    the encoder has a case for: when the encoder returns an instance, the
    instance carries an instance tag if and only if the value type passes
    the validator.  For any other value type the encoder, without a
    diagnostic, returns an instance with only the definition id, which the
    decoder then skips with a warning. *)
Theorem validated_value_types_are_encoded :
  forall (ParseFloat : string -> option string) s env inst,
    fst (convertSettingInstance ParseFloat s env) = Some inst ->
    (OneOf setting_value_types (ValueString (ValueType s)) = true
     <-> si_ODataType inst <> "")
    /\ (OneOf setting_value_types (ValueString (ValueType s)) = false ->
        convertSettingInstance ParseFloat s env
        = (Some (new_instance (ValueString (DefinitionID s))), env)
        /\ fst (convertAPISettingsToModel [wrap_setting (Some inst)] env) = ListNull
        /\ decode_warnings [wrap_setting (Some inst)] = [unknown_type_warning inst]).
Proof.
  intros pf s env inst. rewrite OneOf_setting_value_types.
  unfold convertSettingInstance.
  destruct (ValueString (ValueType s) =? "string")%string.
  { intros [= <-]. simpl. split; [split; [discriminate|reflexivity]|discriminate]. }
  destruct (ValueString (ValueType s) =? "integer")%string.
  { destruct (strconv.ParseInt _); [discriminate|].
    intros [= <-]. simpl. split; [split; [discriminate|reflexivity]|discriminate]. }
  destruct (ValueString (ValueType s) =? "boolean")%string.
  { intros [= <-]. simpl. split; [split; [discriminate|reflexivity]|discriminate]. }
  destruct (ValueString (ValueType s) =? "choice")%string.
  { unfold bind. destruct (encodeChildren (Children s) env) as [[cs|] e1]; [|discriminate].
    intros [= <-]. simpl. split; [split; [discriminate|reflexivity]|discriminate]. }
  destruct (ValueString (ValueType s) =? "collection")%string.
  { destruct (json.Unmarshal_slice _ _); [discriminate|].
    intros [= <-]. simpl. split; [split; [discriminate|reflexivity]|discriminate]. }
  destruct (ValueString (ValueType s) =? "group")%string.
  { unfold bind. destruct (encodeChildren (Children s) env) as [[cs|] e1]; [|discriminate].
    intros [= <-]. simpl. split; [split; [discriminate|reflexivity]|discriminate]. }
  intros [= <-]. simpl. split.
  - split; [discriminate|intros H; now elim H].
  - intros _. repeat split; reflexivity.
Qed.

Lemma validated_value_types_are_encoded_witness :
  OneOf setting_value_types "collection" = true
  <-> si_ODataType (collection_instance "allowed_apps" [string_value "a"]) <> "".
Proof.
  exact (proj1
    (validated_value_types_are_encoded no_numbers
       (declare "allowed_apps" (CCollection ["a"])) empty_env _ eq_refl)).
Defined.

(** *** The wire list of a plan *)

Lemma no_errors_false : forall env,
    no_errors env = true -> existsb is_error (diagnostics env) = false.
Proof. intros env H. unfold no_errors in H. now apply negb_true_iff in H. Qed.

Lemma convertToAPISettings_adds : forall pf data env,
    adds_errors_only env (snd (convertToAPISettings pf data env)).
Proof.
  intros pf data env. unfold convertToAPISettings, bind, HasError.
  destruct (existsb is_error (diagnostics env)); [apply adds_errors_only_refl|].
  apply convertSettings_adds.
Qed.

Lemma append_all_make : forall A (l a : list A),
    append_all (make_slice a) l = make_slice (a ++ l).
Proof.
  intros A. induction l as [|x l IH]; intros a; unfold append_all in *; simpl.
  - now rewrite app_nil_r.
  - rewrite IH, <- app_assoc. reflexivity.
Qed.

Lemma append_all_nil : forall A (l : list A),
    append_all nil_slice l = match l with [] => nil_slice | _ :: _ => make_slice l end.
Proof.
  intros A [|x l]; [reflexivity|].
  unfold append_all. simpl. apply (append_all_make A l [x]).
Qed.

Lemma convertSettings_each : forall pf l acc env,
    fst (convertSettings pf l acc env)
    = append_all acc (map wrap_setting (encode_each pf l env)).
Proof.
  induction l as [|s l IH]; intros acc env; [reflexivity|].
  simpl. unfold bind. destruct (convertSettingInstance pf s env) as [inst e1].
  rewrite IH. reflexivity.
Qed.

Lemma encode_each_length : forall pf l env,
    length (encode_each pf l env) = length l.
Proof.
  induction l as [|s l IH]; intros env; [reflexivity|].
  simpl. destruct (convertSettingInstance pf s env) as [inst e1].
  simpl. now rewrite IH.
Qed.

Lemma encode_each_nth : forall pf l env i s,
    nth_error l i = Some s ->
    exists env_i,
      adds_errors_only env env_i
      /\ nth_error (encode_each pf l env) i
         = Some (fst (convertSettingInstance pf s env_i)).
Proof.
  induction l as [|s0 l IH]; intros env i s Hi; [destruct i; discriminate|].
  destruct i as [|i]; simpl in Hi.
  - injection Hi as ->. exists env. split; [apply adds_errors_only_refl|].
    simpl. destruct (convertSettingInstance pf s env); reflexivity.
  - simpl. pose proof (convertSettingInstance_adds pf s0 env) as H0.
    destruct (convertSettingInstance pf s0 env) as [inst e1]. simpl in H0.
    destruct (IH e1 i s Hi) as (env_i & Hadds & Hnth).
    exists env_i. split; [eapply adds_errors_only_trans; eassumption|exact Hnth].
Qed.

Lemma adds_nothing : forall env env',
    adds_errors_only env env' -> no_errors env' = true -> env' = env.
Proof.
  intros env env' (extra & Hd & Hx & Hl & Hr & Hs) Hno.
  unfold no_errors in Hno. apply negb_true_iff in Hno.
  rewrite Hd, existsb_app in Hno. apply orb_false_iff in Hno.
  destruct Hno as [_ Hno].
  destruct extra as [|d extra].
  - rewrite app_nil_r in Hd. destruct env, env'. simpl in *. congruence.
  - simpl in Hx, Hno. apply andb_true_iff in Hx. destruct Hx as [Hx _].
    rewrite Hx in Hno. discriminate.
Qed.

Lemma no_errors_before : forall env env',
    adds_errors_only env env' -> no_errors env' = true -> no_errors env = true.
Proof.
  intros env env' H Hno. now rewrite <- (adds_nothing env env' H Hno).
Qed.

Lemma encode_each_pointwise : forall pf l acc env,
    no_errors (snd (convertSettings pf l acc env)) = true ->
    encode_each pf l env = map (fun s => fst (convertSettingInstance pf s env)) l.
Proof.
  induction l as [|s l IH]; intros acc env Hno; [reflexivity|].
  simpl in Hno |- *. unfold bind in Hno.
  pose proof (convertSettingInstance_adds pf s env) as H0.
  destruct (convertSettingInstance pf s env) as [inst e1]. simpl in H0 |- *.
  destruct (convertSettings_adds pf l (append acc (wrap_setting inst)) e1) as [H1 _].
  cbv zeta in H1.
  pose proof (no_errors_before _ _ H1 Hno) as Hno1.
  pose proof (adds_nothing _ _ H0 Hno1) as ->.
  rewrite (IH _ _ Hno). reflexivity.
Qed.

(** [convertToAPISettings] returns one wire element per declared setting,
    in the order of the plan: the i-th element wraps, under the tag of a
    configuration setting and an empty id, what [convertSettingInstance]
    returns for the i-th setting, run with the diagnostics the settings
    before it have left, so its instance is nil exactly where that call
    returns nil.  When the whole call leaves no error, nothing was added
    and every instance is the one of its setting taken alone.  For a plan
    without settings the result is the nil slice, not an empty one; so it
    is, with nothing encoded, whenever the diagnostics already hold an
    error. *)
Theorem one_wire_element_per_setting :
  forall (ParseFloat : string -> option string) data env,
    let settings := Elements (model_Settings data) in
    let each := encode_each ParseFloat settings env in
    (no_errors env = true ->
     fst (convertToAPISettings ParseFloat data env) = slice_of (map wrap_setting each)
     /\ length each = length settings
     /\ (forall i s,
            nth_error settings i = Some s ->
            exists env_i,
              adds_errors_only env env_i
              /\ nth_error each i
                 = Some (fst (convertSettingInstance ParseFloat s env_i)))
     /\ (no_errors (snd (convertToAPISettings ParseFloat data env)) = true ->
         each = map (fun s => fst (convertSettingInstance ParseFloat s env)) settings
         /\ snd (convertToAPISettings ParseFloat data env) = env))
    /\ (no_errors env = false ->
        convertToAPISettings ParseFloat data env = (nil_slice, env)).
Proof.
  intros pf data env settings each. split.
  - intros Henv. pose proof (no_errors_false env Henv) as Hno.
    split; [|split; [|split]].
    + unfold convertToAPISettings, bind, HasError. rewrite Hno.
      fold settings. rewrite convertSettings_each, append_all_nil.
      fold each. destruct (map wrap_setting each); reflexivity.
    + apply encode_each_length.
    + intros i s Hi. apply encode_each_nth. exact Hi.
    + intros Hafter. split.
      * revert Hafter. unfold convertToAPISettings, bind, HasError. rewrite Hno.
        apply encode_each_pointwise.
      * apply adds_nothing; [apply convertToAPISettings_adds|exact Hafter].
  - intros Henv. unfold convertToAPISettings, bind, HasError, no_errors in *.
    apply negb_false_iff in Henv. rewrite Henv. reflexivity.
Qed.

Lemma one_wire_element_per_setting_witness :
  fst (convertToAPISettings no_numbers bad_integer_second empty_env)
  = make_slice
      [wrap_setting (Some (simple_instance "banner" odata_StringValue (GoString "hello")));
       wrap_setting None].
Proof.
  exact (proj1 (proj1 (one_wire_element_per_setting no_numbers bad_integer_second
                         empty_env) eq_refl)).
Defined.

(** *** A whole plan, encoded and decoded *)

Lemma convertSettings_canonical : forall pf plan acc env,
    no_errors env = true ->
    plan_in_range plan = true ->
    convertSettings pf (declare_all plan) acc env = (append_all acc (wire_all plan), env).
Proof.
  induction plan as [|[id c] plan IH]; intros acc env Henv Hplan; [reflexivity|].
  unfold plan_in_range in Hplan. simpl in Hplan.
  apply andb_true_iff in Hplan. destruct Hplan as [Hc Hplan].
  simpl. unfold bind.
  rewrite canonical_encodes by assumption.
  rewrite IH by assumption. reflexivity.
Qed.

Lemma convertAPISetting_canonical : forall id c env,
    in_range_of_kind c = true ->
    convertAPISetting (wrap_setting (Some (wire id c))) env = (Some (declare id c), env).
Proof.
  intros id c env Hc.
  pose proof (canonical_decodes id c env Hc) as H.
  unfold convertAPISettingsToModel, bind in H. simpl in H. unfold bind in H.
  destruct (convertAPISetting (wrap_setting (Some (wire id c))) env) as [[s|] e1];
    simpl in H.
  - now injection H as -> ->.
  - discriminate.
Qed.

Lemma convertAPISettings_canonical : forall plan env,
    plan_in_range plan = true ->
    convertAPISettings (wire_all plan) env = (declare_all plan, env).
Proof.
  induction plan as [|[id c] plan IH]; intros env Hplan; [reflexivity|].
  unfold plan_in_range in Hplan. simpl in Hplan.
  apply andb_true_iff in Hplan. destruct Hplan as [Hc Hplan].
  simpl. unfold bind.
  rewrite convertAPISetting_canonical by exact Hc.
  rewrite IH by exact Hplan. reflexivity.
Qed.

Lemma convertToAPISettings_canonical :
  forall (ParseFloat : string -> option string) policy plan env,
    plan <> [] ->
    plan_in_range plan = true ->
    no_errors env = true ->
    convertToAPISettings ParseFloat (canonical_plan policy plan) env
    = (make_slice (wire_all plan), env).
Proof.
  intros pf policy plan env Hne Hplan Henv.
  unfold convertToAPISettings, bind, HasError.
  unfold no_errors in Henv. pose proof Henv as Henv'.
  apply negb_true_iff in Henv'. rewrite Henv'.
  simpl Elements. rewrite convertSettings_canonical by assumption.
  rewrite append_all_nil. destruct plan; [now elim Hne|reflexivity].
Qed.

Lemma convertAPISettingsToModel_canonical : forall plan env,
    plan <> [] ->
    plan_in_range plan = true ->
    convertAPISettingsToModel (wire_all plan) env = (ListValue (declare_all plan), env).
Proof.
  intros plan env Hne Hplan.
  unfold convertAPISettingsToModel, bind.
  rewrite convertAPISettings_canonical by exact Hplan.
  destruct plan; [now elim Hne|reflexivity].
Qed.

(** For a non-empty plan of settings in canonical form, encoding the whole
    list adds no diagnostic and returns the wire forms of the settings in
    plan order, and decoding that wire list returns the declared settings
    of the plan, in the same order, with no log line. *)
Theorem plan_round_trip :
  forall (ParseFloat : string -> option string) policy plan env,
    plan <> [] ->
    plan_in_range plan = true ->
    no_errors env = true ->
    convertToAPISettings ParseFloat (canonical_plan policy plan) env
    = (make_slice (wire_all plan), env)
    /\ convertAPISettingsToModel (wire_all plan) env
       = (ListValue (declare_all plan), env).
Proof.
  intros pf policy plan env Hne Hplan Henv. split.
  - apply convertToAPISettings_canonical; assumption.
  - apply convertAPISettingsToModel_canonical; assumption.
Qed.

Lemma plan_round_trip_witness :
  convertAPISettingsToModel (wire_all sample_plan) empty_env
  = (ListValue (declare_all sample_plan), empty_env).
Proof.
  exact (proj2 (plan_round_trip no_numbers "p1" sample_plan empty_env
                  ltac:(discriminate) eq_refl eq_refl)).
Defined.

(** *** Create and Update: what is sent and what is recorded *)

(** The common part of [Create] and [Update], after the first log line:
    [done] is what the method does once the write has succeeded. *)
Lemma write_outcome : forall pf tr data env (summary : string) (done : M unit)
                             (recorded : StateAction),
    (forall e0, diagnostics (snd (done e0)) = diagnostics e0
                /\ requests (snd (done e0)) = requests e0
                /\ state (snd (done e0)) = recorded) ->
    let policy := ValueString (PolicyID data) in
    let env' :=
      snd ((apiSettings <- convertToAPISettings pf data ;;
            failed <- HasError ;;
            if failed then ret tt
            else
              err <- UpdateSettingsCatalogPolicySettings tr policy apiSettings ;;
              match err with
              | Some e => AddError summary "Could not update policy settings: " e
              | None => done
              end) env) in
    (requests env' = requests env /\ state env' = state env
     /\ existsb is_error (diagnostics env') = true)
    \/ (exists body e,
           requests env' = (requests env ++ [settings_put policy body])%list
           /\ tr (settings_put policy body) = inl e
           /\ state env' = state env
           /\ In (write_failure summary e) (diagnostics env'))
    \/ (exists body r,
           requests env' = (requests env ++ [settings_put policy body])%list
           /\ tr (settings_put policy body) = inr r
           /\ state env' = recorded
           /\ existsb is_error (diagnostics env') = false).
Proof.
  intros pf tr data env summary done recorded Hdone policy env'.
  unfold env'. clear env'.
  destruct (convertToAPISettings_adds pf data env) as (extra & Hd & _ & _ & Hr & Hs).
  unfold UpdateSettingsCatalogPolicySettings, Put, doRequest, bind, send, ret,
    HasError.
  destruct (convertToAPISettings pf data env) as [api e1]. simpl in Hd, Hr, Hs.
  cbv beta iota.
  destruct (existsb is_error (diagnostics e1)) eqn:Herr.
  { left. simpl. auto. }
  right. cbv beta iota. fold policy.
  change {| Method := "PUT";
            Path := PathSettingsCatalogPolicies ++ "('" ++ policy ++ "')/settings";
            RequestBody := Some (SettingsBody api) |}
    with (settings_put policy api).
  destruct (tr (settings_put policy api)) as [e|r] eqn:Htr.
  - left. exists api, e. simpl. rewrite Hr, Hs.
    repeat split; try reflexivity; try assumption.
    apply in_or_app. right. now left.
  - right. exists api, r.
    match goal with
    | |- context [done ?e0] => destruct (Hdone e0) as (Hdd & Hdr & Hds)
    end.
    rewrite Hdr, Hds, Hdd. simpl. rewrite Hr.
    repeat split; try reflexivity; assumption.
Qed.

(** Whatever the plan and the endpoint, [Create] and [Update] send at most
    one request, the PUT of the settings of the policy.  Either an error
    diagnostic stops them before anything is sent; or the PUT is sent and
    fails, the failure is reported with the client's wrapped error and the
    state is left as it was; or the PUT succeeds and only then is the state
    set, by [Create] to the plan with the policy id as id, by [Update] to
    the plan as it is, with no error diagnostic. *)
Theorem writes_send_one_put_and_record_only_on_success :
  forall (ParseFloat : string -> option string) tr data env,
    let policy := ValueString (PolicyID data) in
    (let env' := snd (Create ParseFloat tr data env) in
     (requests env' = requests env /\ state env' = state env
      /\ existsb is_error (diagnostics env') = true)
     \/ (exists body e,
            requests env' = (requests env ++ [settings_put policy body])%list
            /\ tr (settings_put policy body) = inl e
            /\ state env' = state env
            /\ In (write_failure "Error Creating Settings Catalog Policy Settings" e)
                  (diagnostics env'))
     \/ (exists body r,
            requests env' = (requests env ++ [settings_put policy body])%list
            /\ tr (settings_put policy body) = inr r
            /\ state env' = SetTo (with_ID data (PolicyID data))
            /\ existsb is_error (diagnostics env') = false))
    /\ (let env' := snd (Update ParseFloat tr data env) in
        (requests env' = requests env /\ state env' = state env
         /\ existsb is_error (diagnostics env') = true)
        \/ (exists body e,
               requests env' = (requests env ++ [settings_put policy body])%list
               /\ tr (settings_put policy body) = inl e
               /\ state env' = state env
               /\ In (write_failure "Error Updating Settings Catalog Policy Settings" e)
                     (diagnostics env'))
        \/ (exists body r,
               requests env' = (requests env ++ [settings_put policy body])%list
               /\ tr (settings_put policy body) = inr r
               /\ state env' = SetTo data
               /\ existsb is_error (diagnostics env') = false)).
Proof.
  intros pf tr data env policy. split.
  - unfold Create. unfold bind at 1. unfold tflog at 1. cbv beta iota.
    match goal with
    | |- context [snd (?m ?e0)] =>
        pose proof (write_outcome pf tr data e0
                      "Error Creating Settings Catalog Policy Settings"
                      (tflog Debug "Created Settings Catalog policy settings"
                             [("policy_id", GoString (ValueString (PolicyID data)))] ;;;
                       set_state (SetTo (with_ID data (PolicyID data))))
                      (SetTo (with_ID data (PolicyID data)))
                      ltac:(intros; repeat split; reflexivity)) as H
    end.
    exact H.
  - unfold Update. unfold bind at 1. unfold tflog at 1. cbv beta iota.
    match goal with
    | |- context [snd (?m ?e0)] =>
        pose proof (write_outcome pf tr data e0
                      "Error Updating Settings Catalog Policy Settings"
                      (set_state (SetTo data)) (SetTo data)
                      ltac:(intros; repeat split; reflexivity)) as H
    end.
    exact H.
Qed.

(** *** Delete: which failures are reported *)

(** The error [Delete] gets from the client is the endpoint's error wrapped
    by [UpdateSettingsCatalogPolicySettings], so the test for a
    [*GraphError] with code [NotFound] never succeeds on it: whatever error
    the endpoint answers, a [NotFound] included, [Delete] reports it as an
    error diagnostic; when the PUT succeeds it adds nothing.  The state is
    never touched by [Delete] itself. *)
Theorem Delete_reports_every_failure :
  forall tr data env,
    let put := settings_put (ValueString (PolicyID data)) (make_slice []) in
    let env' := snd (Delete tr data env) in
    diagnostics env' =
      (diagnostics env ++
       match tr put with
       | inl e => [delete_failure e]
       | inr _ => []
       end)%list
    /\ state env' = state env.
Proof.
  intros tr data env put env'.
  assert (Hd : diagnostics env' =
               (diagnostics env ++
                match tr put with
                | inl e => [delete_failure e]
                | inr _ => []
                end)%list).
  { unfold env', Delete, UpdateSettingsCatalogPolicySettings, Put, doRequest.
    unfold bind, ret, tflog, send. cbv beta iota.
    fold (settings_put (ValueString (PolicyID data)) (make_slice [])). fold put.
    destruct (tr put) as [e|r]; simpl.
    - reflexivity.
    - now rewrite app_nil_r. }
  split; [exact Hd|].
  unfold env', Delete, UpdateSettingsCatalogPolicySettings, Put, doRequest.
  unfold bind, ret, tflog, send. cbv beta iota.
  destruct (tr _) as [e|r]; reflexivity.
Qed.

(** *** Strings that are not well-formed UTF-8 *)

Lemma replace_ill_formed_eq : forall s,
    GraphClient.replace_ill_formed s
    = match s with
      | EmptyString => ""
      | String b0 r1 =>
          if (byte_val b0 <? 0x80)%N then String b0 (GraphClient.replace_ill_formed r1)
          else
            let bad := replacement ++ GraphClient.replace_ill_formed r1 in
            match r1 with
            | String b1 r2 =>
                if valid2 b0 b1 then
                  String b0 (String b1 (GraphClient.replace_ill_formed r2))
                else
                  match r2 with
                  | String b2 r3 =>
                      if valid3 b0 b1 b2 then
                        String b0 (String b1 (String b2
                          (GraphClient.replace_ill_formed r3)))
                      else
                        match r3 with
                        | String b3 r4 =>
                            if valid4 b0 b1 b2 b3 then
                              String b0 (String b1 (String b2 (String b3
                                (GraphClient.replace_ill_formed r4))))
                            else bad
                        | EmptyString => bad
                        end
                  | EmptyString => bad
                  end
            | EmptyString => bad
            end
      end.
Proof. destruct s; reflexivity. Qed.

Lemma unquote_escaped_replacement : forall t,
    unquote (escaped_replacement ++ t) = pushs replacement (unquote t).
Proof. reflexivity. Qed.

(** A quoted string is always read back, with each byte that does not
    begin well-formed UTF-8 replaced by U+FFFD. *)
Lemma unquote_quote_body_any : forall n s rest,
    (String.length s <= n)%nat ->
    unquote (quote_body s ++ String dquote rest)
    = Some (GraphClient.replace_ill_formed s, rest).
Proof.
  induction n as [|n IH]; intros s rest Hlen.
  { destruct s; [reflexivity|simpl in Hlen; lia]. }
  destruct s as [|b0 r1]; [reflexivity|].
  rewrite replace_ill_formed_eq, quote_body_eq.
  simpl in Hlen.
  destruct (byte_val b0 <? 0x80)%N eqn:H0.
  { rewrite append_assoc, unquote_quote_ascii by exact H0.
    rewrite IH by lia. reflexivity. }
  cbv zeta.
  assert (Hbad : unquote ((escaped_replacement ++ quote_body r1) ++ String dquote rest)
                 = Some (replacement ++ GraphClient.replace_ill_formed r1, rest)).
  { rewrite append_assoc, unquote_escaped_replacement, IH by lia. reflexivity. }
  destruct r1 as [|b1 r2]; [exact Hbad|]. simpl in Hlen.
  destruct (valid2 b0 b1) eqn:H2.
  { rewrite !append_cons. rewrite unquote_high by exact H0. cbv zeta. rewrite H2.
    rewrite IH by lia. reflexivity. }
  destruct r2 as [|b2 r3]; [exact Hbad|]. simpl in Hlen.
  destruct (valid3 b0 b1 b2) eqn:H3.
  { destruct (is_line_sep b0 b1 b2) eqn:Hsep.
    - unfold is_line_sep in Hsep.
      apply andb_true_iff in Hsep. destruct Hsep as [Hsep Hb2].
      apply andb_true_iff in Hsep. destruct Hsep as [Hb0 Hb1].
      apply is_byte_eq in Hb0. apply is_byte_eq in Hb1. subst b0 b1.
      cbn [String.append].
      rewrite unquote_line_sep by exact Hb2.
      rewrite IH by lia. reflexivity.
    - rewrite !append_cons. rewrite unquote_high by exact H0. cbv zeta. rewrite H2, H3.
      rewrite IH by lia. reflexivity. }
  destruct r3 as [|b3 r4]; [exact Hbad|]. simpl in Hlen.
  destruct (valid4 b0 b1 b2 b3) eqn:H4; [|exact Hbad].
  rewrite !append_cons. rewrite unquote_high by exact H0. cbv zeta. rewrite H2, H3, H4.
  rewrite IH by lia. reflexivity.
Qed.

Lemma replace_ill_formed_valid : forall n s,
    (String.length s <= n)%nat ->
    ValidString s = true -> GraphClient.replace_ill_formed s = s.
Proof.
  intros n s Hlen Hvalid.
  pose proof (unquote_quote_body n s "" Hlen Hvalid) as H1.
  pose proof (unquote_quote_body_any n s "" Hlen) as H2.
  congruence.
Qed.

Lemma replace_ill_formed_is_valid : forall n s,
    (String.length s <= n)%nat ->
    ValidString (GraphClient.replace_ill_formed s) = true.
Proof.
  induction n as [|n IH]; intros s Hlen.
  { destruct s; [reflexivity|simpl in Hlen; lia]. }
  destruct s as [|b0 r1]; [reflexivity|].
  rewrite replace_ill_formed_eq. simpl in Hlen.
  destruct (byte_val b0 <? 0x80)%N eqn:H0.
  { rewrite ValidString_eq, H0. apply IH. lia. }
  cbv zeta.
  assert (Hbad : ValidString (replacement ++ GraphClient.replace_ill_formed r1) = true).
  { change (ValidString (replacement ++ GraphClient.replace_ill_formed r1))
      with (ValidString (GraphClient.replace_ill_formed r1)).
    apply IH. lia. }
  destruct r1 as [|b1 r2]; [exact Hbad|]. simpl in Hlen.
  destruct (valid2 b0 b1) eqn:H2.
  { rewrite ValidString_eq, H0, H2. apply IH. lia. }
  destruct r2 as [|b2 r3]; [exact Hbad|]. simpl in Hlen.
  destruct (valid3 b0 b1 b2) eqn:H3.
  { rewrite ValidString_eq, H0, H2, H3. apply IH. lia. }
  destruct r3 as [|b3 r4]; [exact Hbad|]. simpl in Hlen.
  destruct (valid4 b0 b1 b2 b3) eqn:H4; [|exact Hbad].
  rewrite ValidString_eq, H0, H2, H3, H4. apply IH. lia.
Qed.

Lemma replace_ill_formed_idempotent : forall s,
    GraphClient.replace_ill_formed (GraphClient.replace_ill_formed s)
    = GraphClient.replace_ill_formed s.
Proof.
  intros s. eapply replace_ill_formed_valid; [apply Nat.le_refl|].
  apply (replace_ill_formed_is_valid (String.length s)). apply Nat.le_refl.
Qed.

Lemma parse_value_quote_any : forall fuel depth s rest,
    parse_value (S fuel) depth (quote s ++ rest)
    = Some (JString (GraphClient.replace_ill_formed s), rest).
Proof.
  intros fuel depth s rest. rewrite quote_app.
  change (parse_value (S fuel) depth (String dquote (quote_body s ++ String dquote rest)))
    with (match unquote (quote_body s ++ String dquote rest) with
          | Some (t, rest') => Some (JString t, rest')
          | None => None
          end).
  rewrite (unquote_quote_body_any (String.length s)) by lia. reflexivity.
Qed.

Lemma parse_elements_strings_any : forall l x fuel depth rest,
    (length (x :: l) < fuel)%nat ->
    parse_elements fuel depth (join "," (map quote (x :: l)) ++ String "]" rest)
    = Some (map JString (map GraphClient.replace_ill_formed (x :: l)), rest).
Proof.
  induction l as [|y l IH]; intros x fuel depth rest Hfuel.
  - destruct fuel as [|[|f]]; simpl in Hfuel; try lia.
    change (join "," (map quote [x])) with (quote x).
    change (parse_elements (S (S f)) depth (quote x ++ String "]" rest))
      with (match parse_value (S f) depth (quote x ++ String "]" rest) with
            | None => None
            | Some (v, r) =>
                match skip_ws r with
                | EmptyString => None
                | String c r' =>
                    if is_byte 44 c then
                      match parse_elements (S f) depth (skip_ws r') with
                      | Some (l, rest) => Some (v :: l, rest)
                      | None => None
                      end
                    else if is_byte 93 c then Some ([v], r')
                    else None
                end
            end).
    rewrite parse_value_quote_any. reflexivity.
  - destruct fuel as [|[|f]]; simpl in Hfuel; try lia.
    change (map quote (x :: y :: l)) with (quote x :: quote y :: map quote l).
    rewrite join_cons2, !append_assoc.
    change (parse_elements (S (S f)) depth
              (quote x ++ "," ++ join "," (quote y :: map quote l) ++ String "]" rest))
      with (match parse_value (S f) depth
                    (quote x ++ "," ++ join "," (quote y :: map quote l)
                           ++ String "]" rest) with
            | None => None
            | Some (v, r) =>
                match skip_ws r with
                | EmptyString => None
                | String c r' =>
                    if is_byte 44 c then
                      match parse_elements (S f) depth (skip_ws r') with
                      | Some (l, rest) => Some (v :: l, rest)
                      | None => None
                      end
                    else if is_byte 93 c then Some ([v], r')
                    else None
                end
            end).
    rewrite parse_value_quote_any.
    change (skip_ws ("," ++ join "," (quote y :: map quote l) ++ String "]" rest))
      with (String "," (join "," (quote y :: map quote l) ++ String "]" rest)).
    cbv iota beta.
    change (is_byte 44 ",") with true. cbv iota.
    assert (Hskip : skip_ws (join "," (quote y :: map quote l) ++ String "]" rest)
                    = (join "," (quote y :: map quote l) ++ String "]" rest)%string).
    { destruct l as [|z l].
      - change (join "," (quote y :: map quote [])) with (quote y).
        apply skip_ws_quote.
      - change (map quote (z :: l)) with (quote z :: map quote l).
        rewrite join_cons2, !append_assoc. apply skip_ws_quote. }
    rewrite Hskip.
    change (quote y :: map quote l) with (map quote (y :: l)).
    rewrite (IH y (S f) depth rest) by (simpl in *; lia).
    reflexivity.
Qed.

Lemma parse_document_array_of_any_strings : forall l,
    parse_document (array_of_strings l)
    = Some (JArray (map JString (map GraphClient.replace_ill_formed l))).
Proof.
  intros l. unfold parse_document.
  assert (Hskip : skip_ws (array_of_strings l) = array_of_strings l) by reflexivity.
  rewrite Hskip.
  pose proof (join_quote_length l) as Hlen.
  assert (Hfuel : (S (length l) < 2 * String.length (array_of_strings l) + 2)%nat).
  { unfold array_of_strings. rewrite !append_length. simpl String.length. lia. }
  revert Hfuel. generalize (2 * String.length (array_of_strings l) + 2)%nat.
  intros fuel Hfuel. unfold array_of_strings.
  destruct fuel as [|f]; [lia|].
  destruct l as [|x l]; [reflexivity|].
  change ("[" ++ join "," (map quote (x :: l)) ++ "]")%string
    with (String "[" (join "," (map quote (x :: l)) ++ String "]" "")).
  assert (Hhead : exists t,
             (join "," (map quote (x :: l)) ++ String "]" "")%string
             = String dquote t).
  { destruct l as [|y l].
    - change (join "," (map quote [x])) with (quote x).
      rewrite quote_app. eauto.
    - change (map quote (x :: y :: l)) with (quote x :: quote y :: map quote l).
      rewrite join_cons2, !append_assoc, quote_app. eauto. }
  destruct Hhead as [t Ht].
  change (parse_value (S f) 0
            (String "[" (join "," (map quote (x :: l)) ++ String "]" "")))
    with (match skip_ws (join "," (map quote (x :: l)) ++ String "]" "") with
          | EmptyString => None
          | String c' r' as r0 =>
              if is_byte 93 c' then Some (JArray [], r')
              else
                match parse_elements f (N.succ 0) r0 with
                | Some (l, rest) => Some (JArray l, rest)
                | None => None
                end
          end).
  rewrite Ht.
  change (skip_ws (String dquote t)) with (String dquote t).
  cbv iota beta. change (is_byte 93 dquote) with false. cbv iota.
  rewrite <- Ht.
  rewrite parse_elements_strings_any by (simpl in *; lia).
  reflexivity.
Qed.

(** [json.Unmarshal] of the compact array of any list of strings succeeds
    and yields the strings with their ill-formed bytes replaced. *)
Lemma Unmarshal_array_of_any_strings : forall pf l,
    Unmarshal_slice pf (array_of_strings l)
    = inr (map GoString (map GraphClient.replace_ill_formed l)).
Proof.
  intros pf l. unfold Unmarshal_slice.
  rewrite parse_document_array_of_any_strings, to_interfaces_strings. reflexivity.
Qed.

(** Whatever bytes the strings of a list hold, the collection setting
    whose value is the compact JSON array of the list is encoded without
    a diagnostic, to one wire string value per element, in order, each
    with its ill-formed bytes replaced by U+FFFD; when the list is not
    empty the wire node decodes to the collection setting of the replaced
    strings, and that setting is a fixed point: encoding it again gives
    the same wire node, whose strings are all well-formed. *)
Theorem collection_of_any_strings :
  forall (ParseFloat : string -> option string) id l children env,
    let sent := map GraphClient.replace_ill_formed l in
    let node := collection_instance (ValueString id) (map string_value sent) in
    let back :=
      declared "collection" (StringValue (ValueString id))
               (StringValue (array_of_strings sent)) ListNull in
    convertSettingInstance ParseFloat
      (declared "collection" id (StringValue (array_of_strings l)) children) env
    = (Some node, env)
    /\ (l = [] \/ convertAPISettingsToModel [wrap_setting (Some node)] env
                  = (ListValue [back], env))
    /\ convertSettingInstance ParseFloat back env = (Some node, env)
    /\ forallb ValidString sent = true.
Proof.
  intros pf id l children env sent node back.
  assert (Henc : forall id' l' children',
             convertSettingInstance pf
               (declared "collection" id' (StringValue (array_of_strings l')) children')
               env
             = (Some (collection_instance (ValueString id')
                        (map string_value (map GraphClient.replace_ill_formed l'))),
                env)).
  { intros id' l' children'. unfold convertSettingInstance, declared. simpl.
    rewrite Unmarshal_array_of_any_strings.
    unfold ret. rewrite map_map. reflexivity. }
  split; [apply Henc|]. split; [|split].
  - destruct l as [|x l]; [now left|right].
    unfold node, sent. apply collection_decodes.
  - unfold back. rewrite Henc. unfold node, sent. simpl ValueString.
    replace (map GraphClient.replace_ill_formed (map GraphClient.replace_ill_formed l))
      with (map GraphClient.replace_ill_formed l); [reflexivity|].
    rewrite map_map. apply map_ext. intro x.
    symmetry. apply replace_ill_formed_idempotent.
  - unfold sent. rewrite forallb_forall. intros x Hx.
    apply in_map_iff in Hx. destruct Hx as (y & <- & _).
    apply (replace_ill_formed_is_valid (String.length y)). apply Nat.le_refl.
Qed.

(** *** What the client hands to Read *)

Lemma replace_ill_formed_empty : forall s,
    (GraphClient.replace_ill_formed s =? "")%string = (s =? "")%string.
Proof.
  intros s. destruct s as [|b0 r1]; [reflexivity|].
  rewrite replace_ill_formed_eq.
  destruct (byte_val b0 <? 0x80)%N; [reflexivity|]. cbv zeta.
  destruct r1 as [|b1 r2]; [reflexivity|].
  destruct (valid2 b0 b1); [reflexivity|].
  destruct r2 as [|b2 r3]; [reflexivity|].
  destruct (valid3 b0 b1 b2); [reflexivity|].
  destruct r3 as [|b3 r4]; [reflexivity|].
  destruct (valid4 b0 b1 b2 b3); reflexivity.
Qed.

Lemma decode_members_of_a_response : forall d1 d2 d3 d4 resp m,
    GraphClient.Marshal_GraphResponse resp = Some m ->
    GraphClient.decode_members d1 d2 d3 d4 m GraphClient.zero_policy None
    = (GraphClient.identity_of resp, None).
Proof.
  intros d1 d2 d3 d4 resp m Hm.
  unfold GraphClient.Marshal_GraphResponse in Hm.
  assert (Hvalue : exists value,
             Some m = Some (GraphClient.omitempty "@odata.context" (r_ODataContext resp)
                            ++ GraphClient.omitempty "@odata.type" (r_ODataType resp)
                            ++ GraphClient.omitempty "@odata.nextLink"
                                 (r_ODataNextLink resp)
                            ++ value
                            ++ GraphClient.omitempty "id" (r_ID resp))%list
             /\ (value = [] \/ exists v, value = [("value", v)])).
  { destruct (r_Value resp =? "")%string.
    - exists []. split; [now rewrite <- Hm|now left].
    - destruct (parse_document (r_Value resp)) as [v|]; [|discriminate].
      exists [("value", v)]. split; [now rewrite <- Hm|right; now exists v]. }
  destruct Hvalue as (value & Heq & Hvalue). injection Heq as ->. clear Hm.
  unfold GraphClient.identity_of, GraphClient.omitempty.
  destruct (r_ODataContext resp =? "")%string;
    destruct (r_ODataType resp =? "")%string eqn:Hty;
    destruct (r_ODataNextLink resp =? "")%string;
    destruct (r_ID resp =? "")%string eqn:Hid;
    try (apply String.eqb_eq in Hty; rewrite Hty);
    try (apply String.eqb_eq in Hid; rewrite Hid);
    destruct Hvalue as [->|[v ->]]; reflexivity.
Qed.

Lemma GetSettingsCatalogPolicy_eq : forall tr d1 d2 d3 d4 id,
    GraphClient.GetSettingsCatalogPolicy tr d1 d2 d3 d4 id
    = match tr (expanded_get id) with
      | inl e => inl (wrapError "failed to get settings catalog policy" e)
      | inr resp =>
          match GraphClient.Marshal_GraphResponse resp with
          | Some _ => inr (GraphClient.identity_of resp)
          | None => inl (wrapError "failed to parse policy" (JSONError SyntaxError))
          end
      end.
Proof.
  intros tr d1 d2 d3 d4 id.
  unfold GraphClient.GetSettingsCatalogPolicy, GraphClient.Get.
  fold (expanded_get id).
  destruct (tr (expanded_get id)) as [e|resp]; [reflexivity|].
  unfold GraphClient.Unmarshal_policy.
  destruct (GraphClient.Marshal_GraphResponse resp) as [m|] eqn:Hm; [|reflexivity].
  rewrite (decode_members_of_a_response d1 d2 d3 d4 resp m Hm).
  unfold GraphClient.identity_of.
  change (p_ID (GraphClient.with_string GraphClient.FID
                  (GraphClient.replace_ill_formed (r_ID resp))
                  (GraphClient.with_string GraphClient.FODataType
                     (GraphClient.replace_ill_formed (r_ODataType resp))
                     GraphClient.zero_policy)))
    with (GraphClient.replace_ill_formed (r_ID resp)).
  rewrite replace_ill_formed_empty.
  destruct (r_ID resp =? "")%string eqn:Hid; [|reflexivity].
  apply String.eqb_eq in Hid. rewrite Hid. reflexivity.
Qed.

(** Whatever the endpoint answers and however the fields of a policy are
    decoded, [GetSettingsCatalogPolicy] returns either a wrapped error or
    a policy that holds the type and the id of the response and nothing
    else: the response is re-read through [GraphResponse], which has no
    field for the name, the settings or any other member of the policy,
    so the decoders of these fields are never reached and [Settings] is
    always empty.  No error it returns is a [*GraphError], so none is
    taken for a [NotFound]. *)
Theorem client_returns_no_settings :
  forall tr d1 d2 d3 d4 id,
    GraphClient.GetSettingsCatalogPolicy tr d1 d2 d3 d4 id
    = match tr (expanded_get id) with
      | inl e => inl (wrapError "failed to get settings catalog policy" e)
      | inr resp =>
          match GraphClient.Marshal_GraphResponse resp with
          | Some _ => inr (GraphClient.identity_of resp)
          | None => inl (wrapError "failed to parse policy" (JSONError SyntaxError))
          end
      end
    /\ match GraphClient.GetSettingsCatalogPolicy tr d1 d2 d3 d4 id with
       | inl e => is_NotFound e = false
       | inr policy =>
           Settings policy = [] /\ SettingCount policy = 0%Z /\ Name policy = ""
       end.
Proof.
  intros tr d1 d2 d3 d4 id.
  pose proof (GetSettingsCatalogPolicy_eq tr d1 d2 d3 d4 id) as Heq.
  split; [exact Heq|]. rewrite Heq.
  destruct (tr (expanded_get id)) as [e0|resp]; [reflexivity|].
  destruct (GraphClient.Marshal_GraphResponse resp); [|reflexivity].
  repeat split.
Qed.

(** *** Read *)

Lemma GetSettingsCatalogPolicy_run : forall tr d1 d2 d3 d4 id env,
    GetSettingsCatalogPolicy tr d1 d2 d3 d4 id env
    = (GraphClient.GetSettingsCatalogPolicy tr d1 d2 d3 d4 id,
       {| diagnostics := diagnostics env; logs := logs env;
          requests := (requests env ++ [expanded_get id])%list;
          state := state env |}).
Proof.
  intros tr d1 d2 d3 d4 id env.
  unfold GetSettingsCatalogPolicy, Get, doRequest,
    GraphClient.GetSettingsCatalogPolicy, GraphClient.Get, bind, send, ret.
  fold (expanded_get id).
  destruct (tr (expanded_get id)) as [e|resp]; [reflexivity|].
  destruct (GraphClient.Unmarshal_policy d1 d2 d3 d4
              (GraphClient.Marshal_GraphResponse resp)); reflexivity.
Qed.

Lemma Read_run : forall tr d1 d2 d3 d4 data env,
    snd (Read tr d1 d2 d3 d4 data env)
    = after_Read env (ValueString (PolicyID data))
        (GraphClient.GetSettingsCatalogPolicy tr d1 d2 d3 d4
           (ValueString (PolicyID data))).
Proof.
  intros tr d1 d2 d3 d4 data env. unfold Read.
  unfold bind at 1. unfold tflog at 1. cbv beta iota.
  unfold bind at 1. rewrite GetSettingsCatalogPolicy_run.
  rewrite GetSettingsCatalogPolicy_eq.
  destruct (tr (expanded_get (ValueString (PolicyID data)))) as [e|resp];
    [reflexivity|].
  destruct (GraphClient.Marshal_GraphResponse resp); [|reflexivity].
  change (Settings (GraphClient.identity_of resp))
    with (@nil SettingsCatalogPolicySetting).
  reflexivity.
Qed.

(** [Read] never records settings.  It sends one request, the GET of the
    policy with its settings.  When the GET fails, the error is reported,
    a [NotFound] of the endpoint included (it arrives wrapped), and the
    state is left alone; when the GET succeeds, the resource is removed
    from the state, whatever settings the policy has on the service,
    because the policy the client returns never has any; when the
    response cannot be written back as JSON, the parse error is reported
    and the state is left alone. *)
Theorem Read_of_a_fetched_policy_removes_the_resource :
  forall tr d1 d2 d3 d4 data env,
    let id := ValueString (PolicyID data) in
    let env' := snd (Read tr d1 d2 d3 d4 data env) in
    requests env' = (requests env ++ [expanded_get id])%list
    /\ match tr (expanded_get id) with
       | inl e =>
           state env' = state env
           /\ diagnostics env'
              = (diagnostics env
                 ++ [read_failure id
                       (wrapError "failed to get settings catalog policy" e)])%list
       | inr resp =>
           match GraphClient.Marshal_GraphResponse resp with
           | Some _ => state env' = Removed /\ diagnostics env' = diagnostics env
           | None =>
               state env' = state env
               /\ diagnostics env'
                  = (diagnostics env
                     ++ [read_failure id
                           (wrapError "failed to parse policy"
                                      (JSONError SyntaxError))])%list
           end
       end.
Proof.
  intros tr d1 d2 d3 d4 data env id env'.
  unfold env'. rewrite Read_run. fold id.
  rewrite GetSettingsCatalogPolicy_eq. split; [reflexivity|].
  destruct (tr (expanded_get id)) as [e|resp].
  - split; reflexivity.
  - destruct (GraphClient.Marshal_GraphResponse resp); split; reflexivity.
Qed.

(** C10: whenever the client hands [Read] a policy, the settings list of
    that policy is empty and [Read] removes the resource from the state,
    adding no diagnostic; and [Read] never produces a state of its own,
    so none whose setting list is empty: it leaves the state as it was or
    removes the resource. *)
Theorem Read_removes_a_policy_without_settings :
  forall tr d1 d2 d3 d4 data env,
    let id := ValueString (PolicyID data) in
    let env' := snd (Read tr d1 d2 d3 d4 data env) in
    (forall env0 policy,
        fst (GetSettingsCatalogPolicy tr d1 d2 d3 d4 id env0) = inr policy ->
        Settings policy = []
        /\ state env' = Removed
        /\ diagnostics env' = diagnostics env)
    /\ (forall recorded, state env' = SetTo recorded -> state env = SetTo recorded)
    /\ (state env' = state env \/ state env' = Removed)
    /\ (state env' = Removed ->
        state env = Removed
        \/ exists policy,
            fst (GetSettingsCatalogPolicy tr d1 d2 d3 d4 id env) = inr policy
            /\ length (Settings policy) = 0%nat).
Proof.
  intros tr d1 d2 d3 d4 data env id env'.
  assert (Hrun : env' = after_Read env id
                          (GraphClient.GetSettingsCatalogPolicy tr d1 d2 d3 d4 id)).
  { apply Read_run. }
  assert (Hempty : forall policy,
             GraphClient.GetSettingsCatalogPolicy tr d1 d2 d3 d4 id = inr policy ->
             Settings policy = []).
  { intros policy. rewrite GetSettingsCatalogPolicy_eq.
    destruct (tr (expanded_get id)) as [e|resp]; [discriminate|].
    destruct (GraphClient.Marshal_GraphResponse resp); [|discriminate].
    intros [= <-]. reflexivity. }
  split; [|split; [|split]].
  - intros env0 policy. rewrite GetSettingsCatalogPolicy_run. simpl fst.
    intros Hget. split; [exact (Hempty policy Hget)|].
    rewrite Hrun, Hget. split; reflexivity.
  - intros recorded. rewrite Hrun.
    destruct (GraphClient.GetSettingsCatalogPolicy tr d1 d2 d3 d4 id);
      simpl; [auto|discriminate].
  - rewrite Hrun.
    destruct (GraphClient.GetSettingsCatalogPolicy tr d1 d2 d3 d4 id);
      simpl; [now left|now right].
  - rewrite GetSettingsCatalogPolicy_run. simpl fst. rewrite Hrun.
    destruct (GraphClient.GetSettingsCatalogPolicy tr d1 d2 d3 d4 id)
      as [e|policy] eqn:Hget; simpl.
    + intros H. now left.
    + intros _. right. exists policy. split; [reflexivity|].
      now rewrite (Hempty policy eq_refl).
Qed.

(** *** Create followed by Read *)

(** What [Create] records does not survive a refresh.  For a non-empty
    plan in canonical form, applied where no error is pending to an
    endpoint that accepts the write: [Create] sends exactly the PUT of
    the wire list of the plan, adds no diagnostic and records the plan
    with the policy id as resource id; the [Read] of that state then
    sends the GET of the policy and, when the endpoint answers it with a
    response that can be written back as JSON, removes the resource from
    the state, again with no diagnostic. *)
Theorem Create_then_Read_removes_the_resource :
  forall (ParseFloat : string -> option string) tr d1 d2 d3 d4 policy plan env r resp,
    plan <> [] ->
    plan_in_range plan = true ->
    no_errors env = true ->
    tr (settings_put policy (make_slice (wire_all plan))) = inr r ->
    tr (expanded_get policy) = inr resp ->
    GraphClient.Marshal_GraphResponse resp <> None ->
    let planned := canonical_plan policy plan in
    let recorded := with_ID planned (StringValue policy) in
    let created := snd (Create ParseFloat tr planned env) in
    let refreshed := snd (Read tr d1 d2 d3 d4 recorded created) in
    requests created
    = (requests env ++ [settings_put policy (make_slice (wire_all plan))])%list
    /\ diagnostics created = diagnostics env
    /\ state created = SetTo recorded
    /\ state refreshed = Removed
    /\ diagnostics refreshed = diagnostics env
    /\ requests refreshed
       = (requests env ++ [settings_put policy (make_slice (wire_all plan));
                           expanded_get policy])%list.
Proof.
  intros pf tr d1 d2 d3 d4 policy plan env r resp Hne Hplan Henv Hput Hget Hmarshal
         planned recorded created refreshed.
  assert (Hcreated :
            exists lines,
              created
              = {| diagnostics := diagnostics env;
                   logs := lines;
                   requests :=
                     (requests env
                      ++ [settings_put policy (make_slice (wire_all plan))])%list;
                   state := SetTo recorded |}).
  { unfold created, Create. unfold bind at 1. unfold tflog at 1. cbv beta iota.
    unfold bind at 1.
    match goal with
    | |- context [convertToAPISettings pf planned ?e0] =>
        pose proof (convertToAPISettings_canonical pf policy plan e0 Hne Hplan
                      ltac:(exact Henv)) as Henc;
        fold planned in Henc; rewrite Henc
    end.
    unfold bind at 1. unfold HasError at 1. cbv beta iota.
    cbn [diagnostics]. rewrite (no_errors_false env Henv).
    unfold UpdateSettingsCatalogPolicySettings, Put, doRequest, bind, send, ret.
    cbv beta iota. simpl (ValueString (PolicyID planned)).
    fold (settings_put policy (make_slice (wire_all plan))).
    rewrite Hput. eexists. reflexivity. }
  destruct Hcreated as (lines & Hcreated).
  unfold refreshed. rewrite Read_run.
  change (ValueString (PolicyID recorded)) with policy.
  rewrite GetSettingsCatalogPolicy_eq, Hget.
  destruct (GraphClient.Marshal_GraphResponse resp); [|now elim Hmarshal].
  rewrite Hcreated. simpl. rewrite <- app_assoc. repeat split.
Qed.

Lemma Create_then_Read_removes_the_resource_witness :
  state (snd (Read accepting (GraphClient.null_only []) (GraphClient.null_only 0%Z)
                   (GraphClient.null_only []) (GraphClient.null_only None)
                   (with_ID (canonical_plan "p1" sample_plan) (StringValue "p1"))
                   (snd (Create no_numbers accepting (canonical_plan "p1" sample_plan)
                                empty_env))))
  = Removed.
Proof.
  exact (proj1 (proj2 (proj2 (proj2
           (Create_then_Read_removes_the_resource no_numbers accepting
              (GraphClient.null_only []) (GraphClient.null_only 0%Z)
              (GraphClient.null_only []) (GraphClient.null_only None)
              "p1" sample_plan empty_env _ _
              ltac:(discriminate) eq_refl eq_refl eq_refl eq_refl
              ltac:(discriminate)))))).
Defined.

(** *** The wire form is a fixed point *)

Lemma convertChildSetting_fixed : forall c env o env',
    OneOf child_value_types (ValueString (child_ValueType c)) = true ->
    convertChildSetting c env = (o, env') ->
    match o with
    | None => length (diagnostics env') = S (length (diagnostics env))
    | Some w =>
        env' = env
        /\ exists c',
            (forall e, parseChild w e = (Some c', e))
            /\ (forall e, convertChildSetting c' e = (Some w, e))
    end.
Proof.
  intros c env o env' Hty. unfold convertChildSetting.
  unfold OneOf, child_value_types in Hty. simpl in Hty. rewrite orb_false_r in Hty.
  destruct (ValueString (child_ValueType c) =? "string")%string.
  { intros [= <- <-]. split; [reflexivity|].
    eexists. split; intros e; reflexivity. }
  destruct (ValueString (child_ValueType c) =? "integer")%string.
  { destruct (strconv.ParseInt (ValueString (child_Value c))) as [err|z] eqn:Hp.
    - unfold invalid_integer, bind, AddError, ret. intros [= <- <-].
      simpl. rewrite length_app. simpl. lia.
    - intros [= <- <-]. split; [reflexivity|].
      eexists. split; intros e; [reflexivity|].
      unfold convertChildSetting. simpl.
      rewrite ParseInt_FormatInt by (eapply ParseInt_range; exact Hp).
      reflexivity. }
  destruct (ValueString (child_ValueType c) =? "boolean")%string.
  { intros [= <- <-]. split; [reflexivity|].
    destruct (ValueString (child_Value c) =? "true")%string;
      eexists; split; intros e; reflexivity. }
  destruct (ValueString (child_ValueType c) =? "choice")%string; [|discriminate].
  intros [= <- <-]. split; [reflexivity|].
  eexists. split; intros e; reflexivity.
Qed.

Lemma adds_errors_only_length : forall env env',
    adds_errors_only env env' ->
    (length (diagnostics env) <= length (diagnostics env'))%nat.
Proof.
  intros env env' (extra & Hd & _). rewrite Hd, length_app. lia.
Qed.

Lemma convertChildren_fixed : forall cs env ws,
    children_validated cs = true ->
    convertChildren cs env = (ws, env) ->
    exists cs',
      (forall e, parseChildren ws e = (cs', e))
      /\ (forall e, convertChildren cs' e = (ws, e))
      /\ length cs' = length cs
      /\ length ws = length cs.
Proof.
  induction cs as [|c cs IH]; intros env ws Hv.
  - intros [= <-]. exists []. repeat split.
  - simpl in Hv. apply andb_true_iff in Hv. destruct Hv as [Hc Hv].
    simpl. unfold bind.
    destruct (convertChildSetting c env) as [o e1] eqn:Hone.
    pose proof (convertChildSetting_fixed c env o e1 Hc Hone) as Hfix.
    pose proof (convertChildren_adds cs e1) as Hrest.
    destruct (convertChildren cs e1) as [others e2] eqn:Hothers.
    simpl in Hrest. apply adds_errors_only_length in Hrest.
    unfold ret. intros [= <- ->].
    destruct o as [w|].
    + destruct Hfix as (-> & c' & Hparse & Henc).
      destruct (IH env others Hv Hothers) as (cs' & Hp & He & Hl1 & Hl2).
      exists (c' :: cs'). repeat split.
      * intros e. simpl. unfold bind. rewrite Hparse, Hp. reflexivity.
      * intros e. simpl. unfold bind. rewrite Henc, He. reflexivity.
      * simpl. now rewrite Hl1.
      * simpl. now rewrite Hl2.
    + lia.
Qed.

Lemma encodeChildren_fixed : forall children env ws,
    no_errors env = true ->
    children_validated (Elements children) = true ->
    encodeChildren children env = (Some ws, env) ->
    exists children',
      decodeChildren ws env = (children', env)
      /\ encodeChildren children' env = (Some ws, env).
Proof.
  intros children env ws Henv Hv. unfold encodeChildren.
  pose proof (no_errors_false env Henv) as Hno.
  destruct (negb (IsNull children) && (0 <? length (Elements children))%nat)%bool
    eqn:Hsome.
  - unfold bind, HasError. rewrite Hno.
    destruct (convertChildren (Elements children) env) as [cs e1] eqn:Hcs.
    unfold ret. intros [= -> ->].
    destruct (convertChildren_fixed _ _ _ Hv Hcs) as (cs' & Hp & He & Hl1 & Hl2).
    apply andb_true_iff in Hsome. destruct Hsome as [_ Hpos].
    apply Nat.ltb_lt in Hpos.
    destruct ws as [|w ws]; [simpl in Hl2; lia|].
    destruct cs' as [|c' cs']; [simpl in Hl1; lia|].
    exists (ListValue (c' :: cs')). split.
    + rewrite decodeChildren_parse. unfold parseChildSettings, bind.
      rewrite Hp. reflexivity.
    + unfold encodeChildren, bind, HasError.
      change (negb (IsNull (ListValue (c' :: cs')))
              && (0 <? length (Elements (ListValue (c' :: cs'))))%nat)%bool
        with true.
      cbv beta iota. rewrite Hno. simpl Elements. rewrite He. reflexivity.
  - unfold ret. intros [= <-]. exists ListNull. split; reflexivity.
Qed.

Lemma convertAPISettingsToModel_one : forall x env s',
    convertAPISetting x env = (Some s', env) ->
    convertAPISettingsToModel [x] env = (ListValue [s'], env).
Proof.
  intros x env s' H. unfold convertAPISettingsToModel.
  cbn [convertAPISettings]. unfold bind. rewrite H. reflexivity.
Qed.

Lemma convertAPISetting_choice : forall id v ws env ch,
    decodeChildren ws env = (ch, env) ->
    convertAPISetting (wrap_setting (Some (choice_instance id v ws))) env
    = (Some {| DefinitionID := StringValue id; ValueType := StringValue "choice";
               Value := StringValue v; Children := ch |}, env).
Proof.
  intros id v ws env ch H. unfold convertAPISetting.
  cbn [wrap_setting SettingInstance_ choice_instance SimpleSettingValue_
       ChoiceSettingValue_ csv_Children csv_Value SettingDefinitionId].
  unfold bind. rewrite H. reflexivity.
Qed.

Lemma convertAPISetting_group : forall id ws env ch,
    decodeChildren ws env = (ch, env) ->
    convertAPISetting (wrap_setting (Some (group_instance id ws))) env
    = (Some {| DefinitionID := StringValue id; ValueType := StringValue "group";
               Value := StringNull; Children := ch |}, env).
Proof.
  intros id ws env ch H. unfold convertAPISetting.
  cbn [wrap_setting SettingInstance_ group_instance SimpleSettingValue_
       ChoiceSettingValue_ gsv_Children GroupSettingValue_
       SimpleSettingCollectionValue SettingDefinitionId length Nat.ltb Nat.leb].
  unfold bind. rewrite H. reflexivity.
Qed.

(** What the encoder writes for a setting is a fixed point of the round
    trip.  For a setting of any value type but the collection whose
    children have value types the schema allows: if it is encoded without
    a diagnostic, the wire node decodes to one setting, without a log
    line, and that setting, which may differ from the declared one (an
    integer is rewritten in canonical form, a boolean as [true] or
    [false], an empty list of children as null), encodes to the same wire
    node. *)
Theorem wire_form_is_a_fixed_point :
  forall (ParseFloat : string -> option string) s env inst,
    no_errors env = true ->
    OneOf plain_value_types (ValueString (ValueType s)) = true ->
    children_validated (Elements (Children s)) = true ->
    convertSettingInstance ParseFloat s env = (Some inst, env) ->
    exists s',
      convertAPISettingsToModel [wrap_setting (Some inst)] env = (ListValue [s'], env)
      /\ convertSettingInstance ParseFloat s' env = (Some inst, env).
Proof.
  intros pf s env inst Henv Hty Hv. unfold convertSettingInstance.
  unfold OneOf, plain_value_types in Hty. simpl in Hty. rewrite orb_false_r in Hty.
  destruct (ValueString (ValueType s) =? "string")%string.
  { intros [= <-]. eexists. split; reflexivity. }
  destruct (ValueString (ValueType s) =? "integer")%string.
  { destruct (strconv.ParseInt (ValueString (Value s))) as [err|z] eqn:Hp.
    - unfold invalid_integer, bind, AddError, ret. discriminate.
    - intros [= <-]. eexists. split; [reflexivity|].
      unfold convertSettingInstance. simpl.
      rewrite ParseInt_FormatInt by (eapply ParseInt_range; exact Hp).
      reflexivity. }
  destruct (ValueString (ValueType s) =? "boolean")%string.
  { intros [= <-].
    destruct (ValueString (Value s) =? "true")%string;
      eexists; split; reflexivity. }
  destruct (ValueString (ValueType s) =? "choice")%string.
  { unfold bind.
    destruct (encodeChildren (Children s) env) as [[ws|] e1] eqn:Hcs;
      unfold ret; [|discriminate].
    intros [= <- ->].
    destruct (encodeChildren_fixed _ _ _ Henv Hv Hcs) as (ch & Hdec & Henc).
    eexists. split.
    - apply convertAPISettingsToModel_one, convertAPISetting_choice. exact Hdec.
    - unfold convertSettingInstance. simpl. unfold bind. rewrite Henc. reflexivity. }
  simpl in Hty.
  destruct (ValueString (ValueType s) =? "collection")%string eqn:Hcoll.
  { apply String.eqb_eq in Hcoll. rewrite Hcoll in Hty. discriminate. }
  destruct (ValueString (ValueType s) =? "group")%string; [|discriminate].
  unfold bind.
  destruct (encodeChildren (Children s) env) as [[ws|] e1] eqn:Hcs;
    unfold ret; [|discriminate].
  intros [= <- ->].
  destruct (encodeChildren_fixed _ _ _ Henv Hv Hcs) as (ch & Hdec & Henc).
  eexists. split.
  - apply convertAPISettingsToModel_one, convertAPISetting_group. exact Hdec.
  - unfold convertSettingInstance. simpl. unfold bind. rewrite Henc. reflexivity.
Qed.

Lemma wire_form_is_a_fixed_point_witness :
  exists s',
    convertAPISettingsToModel [wrap_setting (Some padded_choice_wire)] empty_env
    = (ListValue [s'], empty_env)
    /\ convertSettingInstance no_numbers s' empty_env
       = (Some padded_choice_wire, empty_env).
Proof.
  exact (wire_form_is_a_fixed_point no_numbers padded_choice empty_env
           padded_choice_wire eq_refl eq_refl eq_refl eq_refl).
Defined.

(** *** Import followed by Read *)

(** An import never brings settings into the state.  [ImportState]
    records the imported id as id and as policy id, with no settings; the
    [Read] that follows sends the GET of the policy of that id and, when
    the endpoint answers it, removes the resource from the state;
    otherwise it reports the error and the state stays the imported one,
    without settings. *)
Theorem Import_then_Read_never_reads_settings :
  forall tr d1 d2 d3 d4 id env,
    let imported := SettingsCatalogPolicySettingsResource.imported id in
    let env1 := snd (SettingsCatalogPolicySettingsResource.ImportState id env) in
    let env2 := snd (Read tr d1 d2 d3 d4 imported env1) in
    state env1 = SetTo imported
    /\ model_Settings imported = ListNull
    /\ requests env2 = (requests env ++ [expanded_get id])%list
    /\ match tr (expanded_get id) with
       | inl e =>
           state env2 = SetTo imported
           /\ diagnostics env2
              = (diagnostics env
                 ++ [read_failure id
                       (wrapError "failed to get settings catalog policy" e)])%list
       | inr resp =>
           match GraphClient.Marshal_GraphResponse resp with
           | Some _ => state env2 = Removed /\ diagnostics env2 = diagnostics env
           | None =>
               state env2 = SetTo imported
               /\ diagnostics env2
                  = (diagnostics env
                     ++ [read_failure id
                           (wrapError "failed to parse policy"
                                      (JSONError SyntaxError))])%list
           end
       end.
Proof.
  intros tr d1 d2 d3 d4 id env imported env1 env2.
  split; [reflexivity|]. split; [reflexivity|].
  unfold env2. rewrite Read_run.
  change (ValueString (PolicyID imported)) with id.
  rewrite GetSettingsCatalogPolicy_eq. split; [reflexivity|].
  destruct (tr (expanded_get id)) as [e|resp].
  - split; reflexivity.
  - destruct (GraphClient.Marshal_GraphResponse resp); split; reflexivity.
Qed.

(** *** Paginated lists *)

Lemma ListAll_loop_paged : forall tr items_of url_Parse path pages,
    GraphClient.paged tr items_of url_Parse path pages ->
    forall fuel acc,
      GraphClient.ListAll_loop tr items_of url_Parse fuel path acc
      = if (length pages <=? fuel)%nat
        then (map fst pages, Some (inr (acc ++ concat (map snd pages))%list))
        else (map fst (firstn fuel pages), None).
Proof.
  intros tr items_of url_Parse path pages Hpaged.
  assert (Happ : forall acc resp items,
             GraphClient.append_items items_of [] resp = inr items ->
             GraphClient.append_items items_of acc resp = inr (acc ++ items)%list).
  { intros acc resp items. unfold GraphClient.append_items.
    destruct (r_Value resp =? "")%string.
    - intros [= <-]. now rewrite app_nil_r.
    - destruct (items_of (r_Value resp)); [discriminate|].
      simpl. now intros [= <-]. }
  induction Hpaged as [path resp items Hget Hitems Hlink
                      |path resp items next rest Hget Hitems Hlink Hnext Hrest IH];
    intros fuel acc.
  - destruct fuel as [|fuel]; [reflexivity|].
    cbn [GraphClient.ListAll_loop]. rewrite Hget, (Happ acc resp items Hitems), Hlink.
    simpl. now rewrite app_nil_r.
  - destruct fuel as [|fuel]; [reflexivity|].
    cbn [GraphClient.ListAll_loop]. rewrite Hget, (Happ acc resp items Hitems).
    apply String.eqb_neq in Hlink. rewrite Hlink, Hnext, IH.
    cbn [length Nat.leb map fst snd concat firstn].
    destruct (length rest <=? fuel)%nat.
    + now rewrite app_assoc.
    + reflexivity.
Qed.

(** When the endpoint serves a list in pages, each but the last linking
    to the next, [ListAll] requests the pages once each, in order, and
    returns their items in page order; it needs one turn of its loop per
    page, and is still running after fewer turns. *)
Theorem ListAll_gathers_the_pages :
  forall tr items_of url_Parse path pages,
    GraphClient.paged tr items_of url_Parse path pages ->
    forall fuel,
      ((length pages <= fuel)%nat ->
       GraphClient.ListAll tr items_of url_Parse fuel path
       = (map fst pages, Some (inr (concat (map snd pages)))))
      /\ ((fuel < length pages)%nat ->
          GraphClient.ListAll tr items_of url_Parse fuel path
          = (map fst (firstn fuel pages), None)).
Proof.
  intros tr items_of url_Parse path pages Hpaged fuel.
  unfold GraphClient.ListAll.
  rewrite (ListAll_loop_paged _ _ _ _ _ Hpaged). split; intro H.
  - apply Nat.leb_le in H. now rewrite H.
  - apply Nat.leb_gt in H. now rewrite H.
Qed.

Lemma ListAll_gathers_the_pages_witness :
  GraphClient.ListAll GraphClient.two_pages GraphClient.sample_items
    GraphClient.sample_Parse 5 "/deviceManagement/roleScopeTags"
  = (["/deviceManagement/roleScopeTags";
      "/deviceManagement/roleScopeTags?$skiptoken=2"],
     Some (inr ["1"; "2"; "3"])).
Proof.
  refine (proj1 (ListAll_gathers_the_pages GraphClient.two_pages
                   GraphClient.sample_items GraphClient.sample_Parse
                   "/deviceManagement/roleScopeTags"
                   [("/deviceManagement/roleScopeTags", ["1"; "2"]);
                    ("/deviceManagement/roleScopeTags?$skiptoken=2", ["3"])]
                   _ 5) _).
  - eapply GraphClient.paged_next;
      [reflexivity|reflexivity|discriminate|reflexivity|].
    eapply GraphClient.paged_last; reflexivity.
  - simpl. lia.
Defined.

(** A page that links to itself keeps [ListAll] requesting it: whatever
    the number of turns, the loop has requested the page that many times
    and has not returned. *)
Theorem ListAll_never_returns_on_a_self_link :
  forall tr items_of url_Parse path resp items,
    GraphClient.Get tr path = inr resp ->
    GraphClient.append_items items_of [] resp = inr items ->
    r_ODataNextLink resp <> "" ->
    GraphClient.next_path url_Parse (r_ODataNextLink resp) = inr path ->
    forall fuel,
      GraphClient.ListAll tr items_of url_Parse fuel path = (repeat path fuel, None).
Proof.
  intros tr items_of url_Parse path resp items Hget Hitems Hlink Hnext fuel.
  unfold GraphClient.ListAll. generalize (@nil string) as acc.
  induction fuel as [|fuel IH]; intros acc; [reflexivity|].
  cbn [GraphClient.ListAll_loop]. rewrite Hget.
  assert (Happ : exists acc', GraphClient.append_items items_of acc resp = inr acc').
  { revert Hitems. unfold GraphClient.append_items.
    destruct (r_Value resp =? "")%string; [eauto|].
    destruct (items_of (r_Value resp)); [discriminate|eauto]. }
  destruct Happ as (acc' & ->).
  apply String.eqb_neq in Hlink. rewrite Hlink, Hnext, IH. reflexivity.
Qed.

Lemma ListAll_never_returns_on_a_self_link_witness :
  GraphClient.ListAll GraphClient.looping GraphClient.sample_items
    GraphClient.sample_Parse 3 "/deviceManagement/roleScopeTags?"
  = (repeat "/deviceManagement/roleScopeTags?" 3, None).
Proof.
  refine (ListAll_never_returns_on_a_self_link GraphClient.looping
            GraphClient.sample_items GraphClient.sample_Parse
            "/deviceManagement/roleScopeTags?" _ [] eq_refl eq_refl _ eq_refl 3).
  discriminate.
Defined.
